(** * otp-auth: a shallow embedding of the OTP session engine

    The program (package [main], files [main.go] and [filepicker.go]) keeps a
    list of named TOTP providers, derives the current code of the selected
    one, shows a countdown, persists the list as JSON and offers a file
    picker.  Go strings are byte strings: they are modelled by [string]
    (one [ascii] per byte).  Go's [error] results are modelled by [result].
    Slices are lists; indexing out of range is a run-time panic and is
    modelled by the [Panic] outcome.

    The program is mostly glue over library calls.  The calls it depends on
    (package time, strings, encoding/base32, encoding/json, path/filepath,
    sort, and github.com/pquerna/otp) are modelled in the first part of the
    file from their documented behaviour; the functions of the repository
    follow, each next to the source lines it embeds. *)

From Stdlib Require Import ZArith List String Ascii Bool Lia Sorting Permutation.
From stdpp Require Import base option list gmap strings sorting.
Import ListNotations.

#[local] Set Warnings "-register-all".

Local Open Scope string_scope.
Local Open Scope list_scope.
Local Open Scope Z_scope.

(** ** Results and bytes *)

(** A Go [(T, error)] pair: the error is kept as its [Error()] text. *)
Inductive result (A : Type) : Type :=
| Ok (a : A)
| Err (msg : string).
Arguments Ok {A} a.
Arguments Err {A} msg.

Definition is_ok {A} (r : result A) : bool :=
  match r with Ok _ => true | Err _ => false end.

(** The value of a byte, in [0, 256). *)
Definition byteZ (a : ascii) : Z := Z.of_N (N_of_ascii a).

Definition asciiZ (z : Z) : ascii := ascii_of_N (Z.to_N z).

Definition bytes_of_string (s : string) : list Z :=
  map byteZ (list_ascii_of_string s).

Definition string_of_bytes (l : list Z) : string :=
  string_of_list_ascii (map asciiZ l).

(** ** Package time

    A [time.Time] is an instant together with the location it is read in.
    [unixSec] is [t.Unix()], the seconds elapsed since 1970-01-01 00:00:00
    UTC; [zoneOffset] is the offset of the location at that instant, in
    seconds east of UTC (the unit of Go's zone table).  [time.Now()] answers
    in the process's local zone. *)
Record Time : Type := mkTime {
  unixSec : Z;
  zoneOffset : Z
}.

Definition Time_Unix (t : Time) : Z := unixSec t.

(** [t.Second()]: the second within the minute of the wall clock that [t]
    shows in its location, in [0, 59]. *)
Definition Time_Second (t : Time) : Z := (unixSec t + zoneOffset t) mod 60.

(** ** Package strings and unicode *)

(** [unicode.IsSpace] on the UTF-8 encoded form.  The white space of Unicode
    is U+0009..U+000D, U+0020, U+0085, U+00A0, U+1680, U+2000..U+200A,
    U+2028, U+2029, U+202F, U+205F and U+3000; a rune is recognised by its
    (unique, shortest-form) encoding. *)
Definition space1 (b : Z) : bool :=
  (9 <=? b) && (b <=? 13) || (b =? 32).

Definition space2 (b0 b1 : Z) : bool :=
  (b0 =? 194) && ((b1 =? 133) || (b1 =? 160)).

Definition space3 (b0 b1 b2 : Z) : bool :=
  (b0 =? 225) && (b1 =? 154) && (b2 =? 128)
  || (b0 =? 226) && (b1 =? 128)
       && ((128 <=? b2) && (b2 <=? 138) || (b2 =? 168) || (b2 =? 169) || (b2 =? 175))
  || (b0 =? 226) && (b1 =? 129) && (b2 =? 159)
  || (b0 =? 227) && (b1 =? 128) && (b2 =? 128).

Section TrimFunc.

(** Whether one, two or three bytes are the encoding of a rune to trim. *)
Variable p1 : Z -> bool.

Variable p2 : Z -> Z -> bool.

Variable p3 : Z -> Z -> Z -> bool.

(** Whether the string begins with such a rune. *)
Definition startsWithRune (s : list Z) : bool :=
  match s with
  | [] => false
  | b0 :: r0 =>
      p1 b0
      || match r0 with
         | [] => false
         | b1 :: r1 =>
             p2 b0 b1
             || match r1 with
                | [] => false
                | b2 :: _ => p3 b0 b1 b2
                end
         end
  end.

(** Runes are taken off the front while they are to trim. *)
Fixpoint trimRunes (s : list Z) : list Z :=
  match s with
  | [] => []
  | b0 :: r0 =>
      if p1 b0 then trimRunes r0
      else match r0 with
           | [] => s
           | b1 :: r1 =>
               if p2 b0 b1 then trimRunes r1
               else match r1 with
                    | [] => s
                    | b2 :: r2 => if p3 b0 b1 b2 then trimRunes r2 else s
                    end
           end
  end.

End TrimFunc.

(** [strings.TrimLeftFunc(s, unicode.IsSpace)]. *)
Definition trimLeftSpace : list Z -> list Z := trimRunes space1 space2 space3.

Definition leadingSpace : list Z -> bool := startsWithRune space1 space2 space3.

(** [strings.TrimRightFunc(s, unicode.IsSpace)], on the reversed bytes: the
    last rune is found by walking back to its first byte. *)
Definition trimLeftSpaceRev : list Z -> list Z :=
  trimRunes space1 (fun b0 b1 => space2 b1 b0) (fun b0 b1 b2 => space3 b2 b1 b0).

Definition leadingSpaceRev : list Z -> bool :=
  startsWithRune space1 (fun b0 b1 => space2 b1 b0) (fun b0 b1 b2 => space3 b2 b1 b0).

Definition trimRightSpace (s : list Z) : list Z := rev (trimLeftSpaceRev (rev s)).

Definition trailingSpace (s : list Z) : bool := leadingSpaceRev (rev s).

(** [strings.TrimSpace]: all leading and trailing white space removed, as
    defined by Unicode. *)
Definition strings_TrimSpace (s : string) : string :=
  string_of_bytes (trimRightSpace (trimLeftSpace (bytes_of_string s))).

(** [strings.ToUpper] on ASCII letters, which is what the function does to
    a string of ASCII bytes.  Bytes outside ASCII are left as they are: the
    case tables of Unicode are not part of the model.  [asciiToLower] is the
    same for [strings.ToLower]; the functions of the program that call
    [strings.ToLower] take it as a parameter instead, and [asciiToLower] is
    one instance of it. *)
Definition upperByte (b : Z) : Z := if (97 <=? b) && (b <=? 122) then b - 32 else b.

Definition lowerByte (b : Z) : Z := if (65 <=? b) && (b <=? 90) then b + 32 else b.

Definition strings_ToUpper (s : string) : string :=
  string_of_bytes (map upperByte (bytes_of_string s)).

Definition asciiToLower (s : string) : string :=
  string_of_bytes (map lowerByte (bytes_of_string s)).

(** [strings.HasPrefix]. *)
Definition strings_HasPrefix (s p : string) : bool := String.prefix p s.

(** [strings.Repeat]. *)
Fixpoint strings_Repeat (s : string) (n : nat) : string :=
  match n with
  | O => ""
  | S n' => s +:+ strings_Repeat s n'
  end.

(** [strings.ReplaceAll(s, old, new)] for a one-byte [old]. *)
Fixpoint replaceByte (old : ascii) (new : string) (s : string) : string :=
  match s with
  | EmptyString => EmptyString
  | String c r =>
      if Ascii.eqb c old then new +:+ replaceByte old new r
      else String c (replaceByte old new r)
  end.

(** The escaping the program applies before it hands text to the display:
    [strings.ReplaceAll(strings.ReplaceAll(s, "[", "[["), "]", "]]")]. *)
Definition escapeBrackets (s : string) : string :=
  replaceByte "]" "]]" (replaceByte "[" "[[" s).

(** ** Package fmt: decimal formatting *)

Definition digitChar (d : Z) : ascii := asciiZ (48 + d).

Fixpoint decimalAux (fuel : nat) (n : Z) (acc : list ascii) : list ascii :=
  match fuel with
  | O => acc
  | S fuel' =>
      let acc' := digitChar (n mod 10) :: acc in
      if n <? 10 then acc' else decimalAux fuel' (n / 10) acc'
  end.

(** The decimal digits of [n >= 0], most significant first. *)
Definition decimalDigits (n : Z) : list ascii :=
  decimalAux (S (Z.to_nat (Z.log2 n))) n [].

(** The verb [%d]. *)
Definition fmt_d (n : Z) : string :=
  if n <? 0 then String "-" (string_of_list_ascii (decimalDigits (- n)))
  else string_of_list_ascii (decimalDigits n).

(** The verb [%0wd] for [n >= 0]: zeros are put in front up to width [w]. *)
Definition fmt_0d (w : nat) (n : Z) : string :=
  let ds := decimalDigits n in
  string_of_list_ascii (repeat "0"%char (w - length ds) ++ ds).

(** ** Package encoding/base32: [StdEncoding.DecodeString]

    The standard alphabet is [A-Z2-7] with padding [=].  The decoder follows
    the library's loop: carriage returns and line feeds are dropped first;
    the input is then read in groups of eight symbols; a group may end in
    padding once two symbols were read and fewer than eight bytes remain; a
    group with 1, 3 or 6 symbols before its padding is refused. *)
Definition base32_decodeMap (b : Z) : Z :=
  if (65 <=? b) && (b <=? 90) then b - 65
  else if (50 <=? b) && (b <=? 55) then b - 24
  else 255.

Definition padChar : Z := 61.

Definition stripNewlines (src : list Z) : list Z :=
  filter (fun c => negb ((c =? 13) || (c =? 10))) src.

Inductive quantum : Type :=
| QFull (dbuf : list Z) (rest : list Z)
| QEnd (dbuf : list Z)
| QErr (offset : Z).

(** The index of the first byte that is not padding among the first [n]. *)
Fixpoint badPad (n : nat) (k : Z) (src : list Z) : option Z :=
  match n, src with
  | S n', c :: r => if c =? padChar then badPad n' (k + 1) r else Some k
  | _, _ => None
  end.

Definition lenZ {A} (l : list A) : Z := Z.of_nat (length l).

(** The inner loop [for j := 0; j < 8;]: [k] symbols are still to be read,
    [dbuf] holds the [j = 8 - k] values read so far. *)
Fixpoint readQuantum (olen : Z) (k : nat) (dbuf : list Z) (src : list Z) : quantum :=
  match k with
  | O => QFull dbuf src
  | S k' =>
      let j := lenZ dbuf in
      match src with
      | [] => QErr (olen - j)
      | c :: src' =>
          if (c =? padChar) && (2 <=? j) && (lenZ src' <? 8) then
            if lenZ src' + j <? 8 - 1 then QErr olen
            else match badPad (Z.to_nat (8 - 1 - j)) 0 src' with
                 | Some i => QErr (olen - lenZ src' + i - 1)
                 | None =>
                     if (j =? 1) || (j =? 3) || (j =? 6)
                     then QErr (olen - lenZ src' - 1)
                     else QEnd dbuf
                 end
          else
            let v := base32_decodeMap c in
            if v =? 255 then QErr (olen - lenZ src' - 1)
            else readQuantum olen k' (dbuf ++ [v]) src'
      end
  end.

Definition byteOf (x : Z) : Z := x mod 256.

(** Eight 5-bit values packed into five bytes; [dlen] symbols give 5, 4, 3,
    2 or 1 bytes for [dlen] = 8, 7, 5, 4, 2. *)
Definition packQuantum (dbuf : list Z) : list Z :=
  let d i := nth i dbuf 0 in
  let dlen := length dbuf in
  let n := match dlen with
           | 8%nat => 5%nat | 7%nat => 4%nat | 5%nat => 3%nat
           | 4%nat => 2%nat | 2%nat => 1%nat | _ => 0%nat
           end in
  firstn n
    [ byteOf (Z.lor (Z.shiftl (d 0%nat) 3) (Z.shiftr (d 1%nat) 2));
      byteOf (Z.lor (Z.lor (Z.shiftl (d 1%nat) 6) (Z.shiftl (d 2%nat) 1)) (Z.shiftr (d 3%nat) 4));
      byteOf (Z.lor (Z.shiftl (d 3%nat) 4) (Z.shiftr (d 4%nat) 1));
      byteOf (Z.lor (Z.lor (Z.shiftl (d 4%nat) 7) (Z.shiftl (d 5%nat) 2)) (Z.shiftr (d 6%nat) 3));
      byteOf (Z.lor (Z.shiftl (d 6%nat) 5) (d 7%nat)) ].

Definition CorruptInputError (n : Z) : string :=
  "illegal base32 data at input byte " +:+ fmt_d n.

(** The outer loop [for len(src) > 0 && !end].  Every full group takes eight
    bytes off the input, so a fuel above its length is never used up. *)
Fixpoint decodeLoop (fuel : nat) (olen : Z) (src : list Z) : result (list Z) :=
  match fuel with
  | O => Ok []
  | S fuel' =>
      match src with
      | [] => Ok []
      | _ :: _ =>
          match readQuantum olen 8 [] src with
          | QErr n => Err (CorruptInputError n)
          | QEnd dbuf => Ok (packQuantum dbuf)
          | QFull dbuf rest =>
              match decodeLoop fuel' olen rest with
              | Ok out => Ok (packQuantum dbuf ++ out)
              | Err e => Err e
              end
          end
      end
  end.

Definition base32_DecodeString (s : string) : result (list Z) :=
  let buf := stripNewlines (bytes_of_string s) in
  decodeLoop (S (length buf)) (lenZ buf) buf.

(** ** Packages crypto/sha1 and crypto/hmac

    SHA-1 as in FIPS 180 on 32-bit words, and HMAC as in RFC 2104 with the
    64-byte block of SHA-1. *)
Definition w32 (x : Z) : Z := x mod 2 ^ 32.

Definition rotl32 (n x : Z) : Z :=
  w32 (Z.lor (Z.shiftl x n) (Z.shiftr x (32 - n))).

Definition not32 (x : Z) : Z := Z.lxor x (2 ^ 32 - 1).

(** Big-endian bytes of a word of [n] bytes. *)
Fixpoint beBytes (n : nat) (x : Z) : list Z :=
  match n with
  | O => []
  | S n' => (Z.shiftr x (8 * Z.of_nat n')) mod 256 :: beBytes n' x
  end.

Definition beWord (bs : list Z) : Z :=
  fold_left (fun acc b => acc * 256 + b) bs 0.

Definition sha1_pad (msg : list Z) : list Z :=
  let len := lenZ msg in
  msg ++ [128] ++ repeat 0 (Z.to_nat ((55 - len) mod 64)) ++ beBytes 8 (8 * len).

Fixpoint chunks (fuel n : nat) (l : list Z) : list (list Z) :=
  match fuel with
  | O => []
  | S fuel' =>
      match l with
      | [] => []
      | _ :: _ => firstn n l :: chunks fuel' n (skipn n l)
      end
  end.

(** The message schedule; [w] holds the words so far, newest first. *)
Fixpoint sha1_schedule (n : nat) (w : list Z) : list Z :=
  match n with
  | O => rev w
  | S n' =>
      let x := rotl32 1 (Z.lxor (Z.lxor (nth 2 w 0) (nth 7 w 0))
                               (Z.lxor (nth 13 w 0) (nth 15 w 0))) in
      sha1_schedule n' (x :: w)
  end.

Definition sha1_f (t : Z) (b c d : Z) : Z :=
  if t <? 20 then Z.lor (Z.land b c) (Z.land (not32 b) d)
  else if t <? 40 then Z.lxor (Z.lxor b c) d
  else if t <? 60 then Z.lor (Z.lor (Z.land b c) (Z.land b d)) (Z.land c d)
  else Z.lxor (Z.lxor b c) d.

Definition sha1_k (t : Z) : Z :=
  if t <? 20 then 1518500249
  else if t <? 40 then 1859775393
  else if t <? 60 then 2400959708
  else 3395469782.

Record sha1_state : Type := mkSha1 { hA : Z; hB : Z; hC : Z; hD : Z; hE : Z }.

Fixpoint sha1_rounds (t : Z) (ws : list Z) (s : sha1_state) : sha1_state :=
  match ws with
  | [] => s
  | w :: ws' =>
      let temp := w32 (rotl32 5 (hA s) + sha1_f t (hB s) (hC s) (hD s)
                       + hE s + sha1_k t + w) in
      sha1_rounds (t + 1) ws'
        (mkSha1 temp (hA s) (rotl32 30 (hB s)) (hC s) (hD s))
  end.

Definition sha1_block (s : sha1_state) (block : list Z) : sha1_state :=
  let w16 := map beWord (chunks 16 4 block) in
  let ws := sha1_schedule 64 (rev w16) in
  let r := sha1_rounds 0 ws s in
  mkSha1 (w32 (hA s + hA r)) (w32 (hB s + hB r)) (w32 (hC s + hC r))
         (w32 (hD s + hD r)) (w32 (hE s + hE r)).

Definition sha1_init : sha1_state :=
  mkSha1 1732584193 4023233417 2562383102 271733878 3285377520.

Definition sha1 (msg : list Z) : list Z :=
  let padded := sha1_pad msg in
  let s := fold_left sha1_block (chunks (length padded) 64 padded) sha1_init in
  beBytes 4 (hA s) ++ beBytes 4 (hB s) ++ beBytes 4 (hC s)
    ++ beBytes 4 (hD s) ++ beBytes 4 (hE s).

Definition hmac_sha1 (key msg : list Z) : list Z :=
  let key := if 64 <? lenZ key then sha1 key else key in
  let key := key ++ repeat 0 (64 - length key)%nat in
  let ipad := map (fun b => Z.lxor b 54) key in
  let opad := map (fun b => Z.lxor b 92) key in
  sha1 (opad ++ sha1 (ipad ++ msg)).

(** ** Package github.com/pquerna/otp (v1.4.0)

    [hotp.GenerateCodeCustom] with six digits and SHA-1: the secret is
    trimmed, padded with [=] to a multiple of eight bytes, upper-cased and
    base32-decoded; the counter is written as eight big-endian bytes and
    authenticated with HMAC-SHA-1; the dynamic truncation of RFC 4226 takes
    31 bits of the sum, and the code is their value modulo [10^6] printed
    with [%06d]. *)
Definition ErrValidateSecretInvalidBase32 : string :=
  "Decoding of secret as base32 failed.".

Definition hotp_truncate (sum : list Z) : Z :=
  let at_ i := nth (Z.to_nat i) sum 0 in
  let offset := Z.land (at_ (lenZ sum - 1)) 15 in
  Z.lor (Z.lor (Z.lor (Z.shiftl (Z.land (at_ offset) 127) 24)
                      (Z.shiftl (Z.land (at_ (offset + 1)) 255) 16))
               (Z.shiftl (Z.land (at_ (offset + 2)) 255) 8))
        (Z.land (at_ (offset + 3)) 255).

Definition hotp_padSecret (secret : string) : string :=
  let n := (String.length secret mod 8)%nat in
  match n with
  | O => secret
  | _ => secret +:+ strings_Repeat "=" (8 - n)
  end.

Definition hotp_GenerateCodeCustom (secret : string) (counter : Z) : result string :=
  let secret := strings_TrimSpace secret in
  let secret := hotp_padSecret secret in
  let secret := strings_ToUpper secret in
  match base32_DecodeString secret with
  | Err _ => Err ErrValidateSecretInvalidBase32
  | Ok secretBytes =>
      let buf := beBytes 8 counter in
      let sum := hmac_sha1 secretBytes buf in
      let value := hotp_truncate sum in
      let mod_ := value mod 10 ^ 6 in
      Ok (fmt_0d 6 mod_)
  end.

(** The time step of [totp.GenerateCodeCustom] with the period of 30 seconds
    that [totp.GenerateCode] fixes:
    [uint64(math.Floor(float64(t.Unix()) / float64(30)))].  For every
    instant within 2^53 seconds of the epoch the conversion to float64 is
    exact and the floor of the rounded quotient is the integer quotient; the
    conversion to uint64 is written as a wrap-around. *)
Definition totp_counter (t : Time) : Z := (Time_Unix t / 30) mod 2 ^ 64.

Definition totp_GenerateCode (secret : string) (t : Time) : result string :=
  hotp_GenerateCodeCustom secret (totp_counter t).

(** ** Package unicode/utf8 *)

Definition isCont (b : Z) : bool := (128 <=? b) && (b <=? 191).

(** The shapes of well-formed encodings (no overlong forms, no surrogates,
    nothing above U+10FFFF), as in the library's table of first bytes and
    accepted ranges of the second byte. *)
Definition utf8_is2 (b0 b1 : Z) : bool :=
  (194 <=? b0) && (b0 <=? 223) && isCont b1.

Definition utf8_is3 (b0 b1 b2 : Z) : bool :=
  (224 <=? b0) && (b0 <=? 239)
  && ((if b0 =? 224 then 160 else 128) <=? b1)
  && (b1 <=? (if b0 =? 237 then 159 else 191))
  && isCont b2.

Definition utf8_is4 (b0 b1 b2 b3 : Z) : bool :=
  (240 <=? b0) && (b0 <=? 244)
  && ((if b0 =? 240 then 144 else 128) <=? b1)
  && (b1 <=? (if b0 =? 244 then 143 else 191))
  && isCont b2 && isCont b3.

(** The encoding of U+FFFD, which stands for a byte that starts no
    well-formed encoding ([utf8.RuneError]). *)
Definition runeErrorBytes : list Z := [239; 191; 189].

(** [utf8.ValidString]. *)
Fixpoint utf8_Valid (s : list Z) : bool :=
  match s with
  | [] => true
  | b0 :: r0 =>
      if b0 <? 128 then utf8_Valid r0
      else match r0 with
           | [] => false
           | b1 :: r1 =>
               if utf8_is2 b0 b1 then utf8_Valid r1
               else match r1 with
                    | [] => false
                    | b2 :: r2 =>
                        if utf8_is3 b0 b1 b2 then utf8_Valid r2
                        else match r2 with
                             | [] => false
                             | b3 :: r3 =>
                                 if utf8_is4 b0 b1 b2 b3 then utf8_Valid r3 else false
                             end
                    end
           end
  end.

(** The string with every byte that starts no well-formed encoding replaced
    by U+FFFD: what a reader that coerces to valid UTF-8 keeps of it. *)
Fixpoint utf8_coerce (s : list Z) : list Z :=
  match s with
  | [] => []
  | b0 :: r0 =>
      if b0 <? 128 then b0 :: utf8_coerce r0
      else match r0 with
           | [] => runeErrorBytes
           | b1 :: r1 =>
               if utf8_is2 b0 b1 then b0 :: b1 :: utf8_coerce r1
               else match r1 with
                    | [] => runeErrorBytes ++ utf8_coerce r0
                    | b2 :: r2 =>
                        if utf8_is3 b0 b1 b2 then b0 :: b1 :: b2 :: utf8_coerce r2
                        else match r2 with
                             | [] => runeErrorBytes ++ utf8_coerce r0
                             | b3 :: r3 =>
                                 if utf8_is4 b0 b1 b2 b3
                                 then b0 :: b1 :: b2 :: b3 :: utf8_coerce r3
                                 else runeErrorBytes ++ utf8_coerce r0
                             end
                    end
           end
  end.

(** [utf8.EncodeRune] for a code point that is no surrogate. *)
Definition utf8_EncodeRune (c : Z) : list Z :=
  if c <? 128 then [c]
  else if c <? 2048 then [Z.lor 192 (Z.shiftr c 6); Z.lor 128 (Z.land c 63)]
  else if c <? 65536 then
    [Z.lor 224 (Z.shiftr c 12); Z.lor 128 (Z.land (Z.shiftr c 6) 63);
     Z.lor 128 (Z.land c 63)]
  else
    [Z.lor 240 (Z.shiftr c 18); Z.lor 128 (Z.land (Z.shiftr c 12) 63);
     Z.lor 128 (Z.land (Z.shiftr c 6) 63); Z.lor 128 (Z.land c 63)].

(** ** Package encoding/json

    The encoder writes a Go string as a JSON string coerced to valid UTF-8:
    [dq], the backslash and the control characters are escaped, and so are
    [<], [>], [&], U+2028 and U+2029; a byte that starts no well-formed
    encoding is written as the escape of U+FFFD. *)
Definition dq : Z := 34.

Definition backslash : Z := 92.

Definition hexDigit (d : Z) : Z := if d <? 10 then 48 + d else 87 + d.

Definition htmlSafe (b : Z) : bool :=
  (32 <=? b) && negb ((b =? 34) || (b =? 38) || (b =? 60) || (b =? 62) || (b =? 92)).

Definition escapeASCII (b : Z) : list Z :=
  if htmlSafe b then [b]
  else if (b =? 92) || (b =? 34) then [backslash; b]
  else if b =? 8 then [backslash; 98]
  else if b =? 12 then [backslash; 102]
  else if b =? 10 then [backslash; 110]
  else if b =? 13 then [backslash; 114]
  else if b =? 9 then [backslash; 116]
  else [backslash; 117; 48; 48; hexDigit (Z.shiftr b 4); hexDigit (Z.land b 15)].

(** The escape of U+FFFD, and of U+2028 and U+2029 by their last digit. *)
Definition escapeFFFD : list Z := [backslash; 117; 102; 102; 102; 100].

Definition escape202 (d : Z) : list Z := [backslash; 117; 50; 48; 50; hexDigit d].

Definition isLineSep (b0 b1 b2 : Z) : bool :=
  (b0 =? 226) && (b1 =? 128) && ((b2 =? 168) || (b2 =? 169)).

Fixpoint encodeStringBody (s : list Z) : list Z :=
  match s with
  | [] => []
  | b0 :: r0 =>
      if b0 <? 128 then escapeASCII b0 ++ encodeStringBody r0
      else match r0 with
           | [] => escapeFFFD
           | b1 :: r1 =>
               if utf8_is2 b0 b1 then b0 :: b1 :: encodeStringBody r1
               else match r1 with
                    | [] => escapeFFFD ++ encodeStringBody r0
                    | b2 :: r2 =>
                        if utf8_is3 b0 b1 b2 then
                          (if isLineSep b0 b1 b2 then escape202 (Z.land b2 15)
                           else [b0; b1; b2]) ++ encodeStringBody r2
                        else match r2 with
                             | [] => escapeFFFD ++ encodeStringBody r0
                             | b3 :: r3 =>
                                 if utf8_is4 b0 b1 b2 b3
                                 then b0 :: b1 :: b2 :: b3 :: encodeStringBody r3
                                 else escapeFFFD ++ encodeStringBody r0
                             end
                    end
           end
  end.

Definition encodeString (s : string) : list Z :=
  dq :: encodeStringBody (bytes_of_string s) ++ [dq].

(** The record of a provider (main.go, lines 22-26). *)
Record Provider : Type := mkProvider {
  Name : string;
  Secret : string
}.

Definition lit (s : string) : list Z := bytes_of_string s.

Definition nlb : list Z := [10].

(** One element of the array as [json.MarshalIndent(v, "", "  ")] lays it
    out: the members in the order of the fields, one per line, four spaces
    deep, a space after the colon. *)
Definition encodeProvider (p : Provider) : list Z :=
  lit "{" ++ nlb
  ++ lit "    " ++ encodeString "Name" ++ lit ": " ++ encodeString (Name p) ++ lit "," ++ nlb
  ++ lit "    " ++ encodeString "Secret" ++ lit ": " ++ encodeString (Secret p) ++ nlb
  ++ lit "  }".

Fixpoint encodeElems (ps : list Provider) : list Z :=
  match ps with
  | [] => []
  | [p] => lit "  " ++ encodeProvider p ++ nlb
  | p :: ps' => lit "  " ++ encodeProvider p ++ lit "," ++ nlb ++ encodeElems ps'
  end.

(** [json.MarshalIndent(providers, "", "  ")] for a slice that is not nil.
    It cannot fail on this type.  (A nil slice is written [null], which
    [json_Unmarshal] reads back as the empty list.) *)
Definition json_MarshalIndent (ps : list Provider) : string :=
  string_of_bytes
    match ps with
    | [] => lit "[]"
    | _ :: _ => lit "[" ++ nlb ++ encodeElems ps ++ lit "]"
    end.

(** *** Reading JSON *)

Inductive json : Type :=
| JNull
| JBool (b : bool)
| JNumber
| JString (s : list Z)
| JArray (l : list json)
| JObject (m : list (list Z * json)).

Definition isWS (c : Z) : bool := (c =? 32) || (c =? 9) || (c =? 13) || (c =? 10).

Fixpoint skipWS (s : list Z) : list Z :=
  match s with
  | c :: r => if isWS c then skipWS r else s
  | [] => []
  end.

Definition hexVal (c : Z) : option Z :=
  if (48 <=? c) && (c <=? 57) then Some (c - 48)
  else if (97 <=? c) && (c <=? 102) then Some (c - 87)
  else if (65 <=? c) && (c <=? 70) then Some (c - 55)
  else None.

Definition getu4 (h1 h2 h3 h4 : Z) : option Z :=
  match hexVal h1, hexVal h2, hexVal h3, hexVal h4 with
  | Some a, Some b, Some c, Some d => Some (((a * 16 + b) * 16 + c) * 16 + d)
  | _, _, _, _ => None
  end.

Definition isSurrogate (r : Z) : bool := (55296 <=? r) && (r <? 57344).

(** [utf16.DecodeRune]: the code point of a surrogate pair, if it is one. *)
Definition utf16_DecodeRune (r1 r2 : Z) : option Z :=
  if (55296 <=? r1) && (r1 <? 56320) && (56320 <=? r2) && (r2 <? 57344)
  then Some (Z.lor (Z.shiftl (r1 - 55296) 10) (r2 - 56320) + 65536)
  else None.

Definition consBytes (bs : list Z) (r : option (list Z * list Z)) : option (list Z * list Z) :=
  match r with
  | Some (t, rest) => Some (bs ++ t, rest)
  | None => None
  end.

(** A string literal from behind its opening quote: the unquoted bytes and
    the input behind the closing quote.  An unescaped control character, an
    unknown escape and a missing closing quote are syntax errors; bytes that
    are not valid UTF-8 are coerced to U+FFFD. *)
Fixpoint readString (s : list Z) : option (list Z * list Z) :=
  match s with
  | [] => None
  | c :: r0 =>
      if c =? dq then Some ([], r0)
      else if c <? 32 then None
      else if c =? backslash then
        match r0 with
        | [] => None
        | e :: r1 =>
            if (e =? 34) || (e =? 92) || (e =? 47) then consBytes [e] (readString r1)
            else if e =? 98 then consBytes [8] (readString r1)
            else if e =? 102 then consBytes [12] (readString r1)
            else if e =? 110 then consBytes [10] (readString r1)
            else if e =? 114 then consBytes [13] (readString r1)
            else if e =? 116 then consBytes [9] (readString r1)
            else if e =? 117 then
              match r1 with
              | h1 :: h2 :: h3 :: h4 :: r5 =>
                  match getu4 h1 h2 h3 h4 with
                  | None => None
                  | Some rr =>
                      if isSurrogate rr then
                        match r5 with
                        | c1 :: c2 :: g1 :: g2 :: g3 :: g4 :: r11 =>
                            match
                              (if (c1 =? backslash) && (c2 =? 117)
                               then match getu4 g1 g2 g3 g4 with
                                    | Some rr1 => utf16_DecodeRune rr rr1
                                    | None => None
                                    end
                               else None)
                            with
                            | Some dec => consBytes (utf8_EncodeRune dec) (readString r11)
                            | None => consBytes runeErrorBytes (readString r5)
                            end
                        | _ => consBytes runeErrorBytes (readString r5)
                        end
                      else consBytes (utf8_EncodeRune rr) (readString r5)
                  end
              | _ => None
              end
            else None
        end
      else if c <? 128 then consBytes [c] (readString r0)
      else match r0 with
           | [] => consBytes runeErrorBytes (readString r0)
           | b1 :: r1 =>
               if utf8_is2 c b1 then consBytes [c; b1] (readString r1)
               else match r1 with
                    | [] => consBytes runeErrorBytes (readString r0)
                    | b2 :: r2 =>
                        if utf8_is3 c b1 b2 then consBytes [c; b1; b2] (readString r2)
                        else match r2 with
                             | [] => consBytes runeErrorBytes (readString r0)
                             | b3 :: r3 =>
                                 if utf8_is4 c b1 b2 b3
                                 then consBytes [c; b1; b2; b3] (readString r3)
                                 else consBytes runeErrorBytes (readString r0)
                             end
                    end
           end
  end.

Fixpoint skipDigits (s : list Z) : list Z :=
  match s with
  | c :: r => if (48 <=? c) && (c <=? 57) then skipDigits r else s
  | [] => []
  end.

Definition isDigit (c : Z) : bool := (48 <=? c) && (c <=? 57).

Definition readDigits1 (s : list Z) : option (list Z) :=
  match s with
  | c :: r => if isDigit c then Some (skipDigits r) else None
  | [] => None
  end.

(** A number: an optional minus sign; a zero, or a digit from 1 to 9 and
    further digits; an optional fraction, a point and digits; an optional
    exponent, [e] or [E], an optional sign and digits.  Only the input
    behind the number is kept. *)
Definition readNumber (s : list Z) : option (list Z) :=
  let s1 := match s with c :: r => if c =? 45 then r else s | [] => s end in
  let int_ := match s1 with
              | c :: r => if c =? 48 then Some r
                          else if isDigit c then Some (skipDigits r) else None
              | [] => None
              end in
  match int_ with
  | None => None
  | Some s2 =>
      let frac := match s2 with
                  | c :: r => if c =? 46 then readDigits1 r else Some s2
                  | [] => Some s2
                  end in
      match frac with
      | None => None
      | Some s3 =>
          match s3 with
          | c :: r =>
              if (c =? 101) || (c =? 69) then
                match r with
                | sg :: r' => if (sg =? 43) || (sg =? 45) then readDigits1 r' else readDigits1 r
                | [] => None
                end
              else Some s3
          | [] => Some s3
          end
      end
  end.

Fixpoint stripPrefix (p s : list Z) : option (list Z) :=
  match p, s with
  | [], _ => Some s
  | a :: p', b :: s' => if a =? b then stripPrefix p' s' else None
  | _ :: _, [] => None
  end.

(** A value at the head of [s] (no white space before it), and the input
    behind it.  [fuel] bounds the depth of the calls. *)
Fixpoint parseValue (fuel : nat) (s : list Z) : option (json * list Z) :=
  match fuel with
  | O => None
  | S f =>
      match s with
      | [] => None
      | c :: r =>
          if c =? dq then
            match readString r with
            | Some (t, rest) => Some (JString t, rest)
            | None => None
            end
          else if c =? 91 then
            match skipWS r with
            | [] => None
            | c' :: r' =>
                if c' =? 93 then Some (JArray [], r')
                else match parseElems f (c' :: r') with
                     | Some (vs, rest) => Some (JArray vs, rest)
                     | None => None
                     end
            end
          else if c =? 123 then
            match skipWS r with
            | [] => None
            | c' :: r' =>
                if c' =? 125 then Some (JObject [], r')
                else match parseMembers f (c' :: r') with
                     | Some (ms, rest) => Some (JObject ms, rest)
                     | None => None
                     end
            end
          else if c =? 116 then
            match stripPrefix (lit "true") s with
            | Some rest => Some (JBool true, rest) | None => None end
          else if c =? 102 then
            match stripPrefix (lit "false") s with
            | Some rest => Some (JBool false, rest) | None => None end
          else if c =? 110 then
            match stripPrefix (lit "null") s with
            | Some rest => Some (JNull, rest) | None => None end
          else match readNumber s with
               | Some rest => Some (JNumber, rest)
               | None => None
               end
      end
  end
with parseElems (fuel : nat) (s : list Z) : option (list json * list Z) :=
  match fuel with
  | O => None
  | S f =>
      match parseValue f s with
      | None => None
      | Some (v, rest) =>
          match skipWS rest with
          | [] => None
          | c :: r =>
              if c =? 44 then
                match parseElems f (skipWS r) with
                | Some (vs, rest') => Some (v :: vs, rest')
                | None => None
                end
              else if c =? 93 then Some ([v], r)
              else None
          end
      end
  end
with parseMembers (fuel : nat) (s : list Z) : option (list (list Z * json) * list Z) :=
  match fuel with
  | O => None
  | S f =>
      match s with
      | [] => None
      | q :: r =>
          if q =? dq then
            match readString r with
            | None => None
            | Some (key, rest) =>
                match skipWS rest with
                | [] => None
                | c :: r1 =>
                    if c =? 58 then
                      match parseValue f (skipWS r1) with
                      | None => None
                      | Some (v, rest2) =>
                          match skipWS rest2 with
                          | [] => None
                          | c2 :: r2 =>
                              if c2 =? 44 then
                                match parseMembers f (skipWS r2) with
                                | Some (ms, rest') => Some ((key, v) :: ms, rest')
                                | None => None
                                end
                              else if c2 =? 125 then Some ([(key, v)], r2)
                              else None
                          end
                      end
                    else None
                end
            end
          else None
      end
  end.

(** The whole document: one value between white space. *)
Definition parseDocument (data : list Z) : option json :=
  match parseValue (S (S (2 * length data))) (skipWS data) with
  | Some (v, rest) => match skipWS rest with [] => Some v | _ :: _ => None end
  | None => None
  end.

(** A key names a field when it equals the field's name up to the case of
    its (ASCII) letters. *)
Definition keyIs (field : string) (key : list Z) : bool :=
  bool_decide (map lowerByte key = map lowerByte (bytes_of_string field)).

Definition typeError (what : string) : string :=
  "json: cannot unmarshal " +:+ what +:+ " into Go value".

Definition jsonKind (v : json) : string :=
  match v with
  | JNull => "null" | JBool _ => "bool" | JNumber => "number"
  | JString _ => "string" | JArray _ => "array" | JObject _ => "object"
  end.

(** One member stored into a [Provider]: a string goes to the field its key
    names, [null] leaves the field as it is, a key that names no field is
    skipped, any other value for a field is a type error. *)
Definition setField (p : Provider) (key : list Z) (v : json) : result Provider :=
  if keyIs "Name" key then
    match v with
    | JString s => Ok (mkProvider (string_of_bytes s) (Secret p))
    | JNull => Ok p
    | _ => Err (typeError (jsonKind v))
    end
  else if keyIs "Secret" key then
    match v with
    | JString s => Ok (mkProvider (Name p) (string_of_bytes s))
    | JNull => Ok p
    | _ => Err (typeError (jsonKind v))
    end
  else Ok p.

Fixpoint setFields (p : Provider) (ms : list (list Z * json)) : result Provider :=
  match ms with
  | [] => Ok p
  | (k, v) :: ms' =>
      match setField p k v with
      | Ok p' => setFields p' ms'
      | Err e => Err e
      end
  end.

Definition decodeProvider (v : json) : result Provider :=
  match v with
  | JObject ms => setFields (mkProvider "" "") ms
  | JNull => Ok (mkProvider "" "")
  | _ => Err (typeError (jsonKind v))
  end.

Fixpoint decodeElems (vs : list json) : result (list Provider) :=
  match vs with
  | [] => Ok []
  | v :: vs' =>
      match decodeProvider v with
      | Err e => Err e
      | Ok p => match decodeElems vs' with
                | Ok ps => Ok (p :: ps)
                | Err e => Err e
                end
      end
  end.

(** [json.Unmarshal(data, &providers)] for [providers] of type [[]Provider]:
    a document that is no JSON text is a syntax error; [null] leaves the
    slice empty; an array gives one provider per element; anything else is a
    type error.  The texts of the library's errors are abbreviated. *)
Definition json_Unmarshal (data : string) : result (list Provider) :=
  match parseDocument (bytes_of_string data) with
  | None => Err "invalid JSON input"
  | Some JNull => Ok []
  | Some (JArray vs) => decodeElems vs
  | Some v => Err (typeError (jsonKind v))
  end.

(** ** Package os: files

    The file system is a finite map from paths to nodes.  Paths are taken as
    they are written (no normalisation), and the directories above a path
    are not modelled. *)
Inductive Node : Type :=
| NFile (data : string)
| NDir.

Abbreviation FS := (gmap string Node).

(** [os.MkdirAll]: nothing to do for a directory, an error for a file. *)
Definition os_MkdirAll (fs : FS) (dir : string) : result FS :=
  match fs !! dir with
  | Some NDir => Ok fs
  | Some (NFile _) => Err ("mkdir " +:+ dir +:+ ": not a directory")
  | None => Ok (<[dir := NDir]> fs)
  end.

(** [os.WriteFile]: the file is created or truncated and written. *)
Definition os_WriteFile (fs : FS) (name data : string) : result FS :=
  match fs !! name with
  | Some NDir => Err ("open " +:+ name +:+ ": is a directory")
  | _ => Ok (<[name := NFile data]> fs)
  end.

(** [os.ReadFile]. *)
Definition os_ReadFile (fs : FS) (name : string) : result string :=
  match fs !! name with
  | Some (NFile data) => Ok data
  | Some NDir => Err ("read " +:+ name +:+ ": is a directory")
  | None => Err ("open " +:+ name +:+ ": no such file or directory")
  end.

(** [_, err := os.Stat(name); os.IsNotExist(err)]. *)
Definition os_NotExist (fs : FS) (name : string) : bool :=
  match fs !! name with
  | None => true
  | Some _ => false
  end.

(** [filepath.Ext]: the suffix that begins at the last dot of the last
    element of the path, empty if there is none. *)
Fixpoint extRev (r acc : list Z) : list Z :=
  match r with
  | [] => []
  | c :: r' =>
      if c =? 47 then []
      else if c =? 46 then c :: acc
      else extRev r' (c :: acc)
  end.

Definition filepath_Ext (path : string) : string :=
  string_of_bytes (extRev (rev (bytes_of_string path)) []).

(** * main.go *)

Definition nl : string := String (ascii_of_nat 10) EmptyString.

(** Line 19. *)
Definition ProvidersFilePath : string := "providers.json".

(** Lines 29-36. *)
Definition generateTOTP (secret : string) (now : Time) : result string :=
  match totp_GenerateCode secret now with
  | Err err => Err err
  | Ok code => Ok code
  end.

Section SecretFile.

(** [strings.ToLower], with the case tables of Unicode behind it. *)
Variable strings_ToLower : string -> string.

(** Lines 40-68.  The file is read before its extension is looked at. *)
Definition readSecretFromFile (fs : FS) (filePath : string) : result string :=
  let ext := strings_ToLower (filepath_Ext filePath) in
  match os_ReadFile fs filePath with
  | Err err => Err ("failed to read file: " +:+ err)
  | Ok data =>
      if String.eqb ext ".txt" || String.eqb ext ".key" then
        let secret := strings_TrimSpace data in
        match base32_DecodeString secret with
        | Err err => Err ("invalid base32 string in file: " +:+ err)
        | Ok _ => Ok secret
        end
      else Err "QR code parsing is not supported in this version"
  end.

End SecretFile.

Section Persistence.

(** [filepath.Dir] cleans the path it returns; it is taken as given. *)
Variable filepath_Dir : string -> string.

(** Lines 71-90.  The result is the file system after the call and the
    error, [None] for [nil]. *)
Definition saveProviders (providers : list Provider) (filePath : string) (fs : FS)
  : FS * option string :=
  let dir := filepath_Dir filePath in
  match os_MkdirAll fs dir with
  | Err err => (fs, Some ("failed to create directory: " +:+ err))
  | Ok fs1 =>
      let data := json_MarshalIndent providers in
      match os_WriteFile fs1 filePath data with
      | Err err => (fs1, Some ("failed to write file: " +:+ err))
      | Ok fs2 => (fs2, None)
      end
  end.

(** Lines 93-113. *)
Definition loadProviders (filePath : string) (fs : FS) : result (list Provider) :=
  if os_NotExist fs filePath then Ok []
  else
    match os_ReadFile fs filePath with
    | Err err => Err ("failed to read file: " +:+ err)
    | Ok data =>
        match json_Unmarshal data with
        | Err err => Err ("failed to unmarshal providers: " +:+ err)
        | Ok providers => Ok providers
        end
    end.

(** ** The session: the variables that the closures of [main] share

    [attempts] and [saves] are ghost fields.  [attempts] lists the calls of
    [generateTOTP] made so far, newest first, each with the index it was
    made for and whether it gave a code; [saves] counts the calls of
    [saveProviders]. *)
Record Session : Type := mkSession {
  providers : list Provider;
  selectedProviderIndex : Z;
  currentOTP : string;
  currentProvider : string;
  otpView : string;
  providerList : list string;
  formName : string;
  formSecret : string;
  disk : FS;
  attempts : list (Z * bool);
  saves : nat
}.

Definition setView (text : string) (st : Session) : Session :=
  mkSession (providers st) (selectedProviderIndex st) (currentOTP st) (currentProvider st)
            text (providerList st) (formName st) (formSecret st) (disk st) (attempts st) (saves st).

Definition setCurrent (otp provider : string) (st : Session) : Session :=
  mkSession (providers st) (selectedProviderIndex st) otp provider
            (otpView st) (providerList st) (formName st) (formSecret st) (disk st) (attempts st) (saves st).

Definition setSelected (index : Z) (st : Session) : Session :=
  mkSession (providers st) index (currentOTP st) (currentProvider st)
            (otpView st) (providerList st) (formName st) (formSecret st) (disk st) (attempts st) (saves st).

Definition setForm (name secret : string) (st : Session) : Session :=
  mkSession (providers st) (selectedProviderIndex st) (currentOTP st) (currentProvider st)
            (otpView st) (providerList st) name secret (disk st) (attempts st) (saves st).

(** The file system after a call of [saveProviders]. *)
Definition setSaved (fs : FS) (st : Session) : Session :=
  mkSession (providers st) (selectedProviderIndex st) (currentOTP st) (currentProvider st)
            (otpView st) (providerList st) (formName st) (formSecret st) fs (attempts st)
            (S (saves st)).

Definition appendProvider (p : Provider) (st : Session) : Session :=
  mkSession (providers st ++ [p]) (selectedProviderIndex st) (currentOTP st) (currentProvider st)
            (otpView st) (providerList st ++ [Name p]) (formName st) (formSecret st)
            (disk st) (attempts st) (saves st).

Definition logAttempt (index : Z) (ok : bool) (st : Session) : Session :=
  mkSession (providers st) (selectedProviderIndex st) (currentOTP st) (currentProvider st)
            (otpView st) (providerList st) (formName st) (formSecret st) (disk st)
            ((index, ok) :: attempts st) (saves st).

(** What an operation of the session ends in: a new state, or a run-time
    panic that nothing recovers. *)
Inductive outcome : Type :=
| Done (st : Session)
| Panic (msg : string).

(** [s[i]] on a slice: out of range is a panic. *)
Definition sliceIndex {A} (l : list A) (i : Z) : option A :=
  if (i <? 0) || (lenZ l <=? i) then None else l !! Z.to_nat i.

(** Lines 134-140. *)
Definition welcomeText : string :=
  "[yellow]Welcome to OTP Auth![white]" +:+ nl +:+ nl +:+
  "[red]No providers available[white]" +:+ nl +:+ nl +:+
  "[green]To get started:[white]" +:+ nl +:+
  "1. Enter a provider name in the form on the left" +:+ nl +:+
  "2. Enter a secret or load one from a file" +:+ nl +:+
  "3. Click 'Add Provider' to create your first provider" +:+ nl +:+ nl +:+
  "Your providers will be saved automatically and loaded when you restart the app.".

(** Lines 163-169. *)
Definition noSelectionText : string :=
  "[yellow]Welcome to OTP Auth![white]" +:+ nl +:+ nl +:+
  "[red]No providers available or no provider selected[white]" +:+ nl +:+ nl +:+
  "[green]To get started:[white]" +:+ nl +:+
  "1. Enter a provider name in the form on the left" +:+ nl +:+
  "2. Enter a secret or load one from a file" +:+ nl +:+
  "3. Click 'Add Provider' to create your first provider" +:+ nl +:+ nl +:+
  "Your providers will be saved automatically and loaded when you restart the app.".

(** Line 153. *)
Definition remainingSeconds (now : Time) : Z := 30 - Time_Second now mod 30.

(** Line 157. *)
Definition countdownText (provider otp : string) (remaining : Z) : string :=
  "[green]Provider: [yellow]" +:+ escapeBrackets provider +:+ "[white]" +:+ nl +:+
  "[green]Your OTP: [yellow]" +:+ escapeBrackets otp +:+ "[white]" +:+ nl +:+ nl +:+
  "Valid for [red]" +:+ fmt_d remaining +:+ "[white] seconds".

(** Lines 147-158. *)
Definition updateCountdown (now : Time) (st : Session) : Session :=
  if String.eqb (currentOTP st) "" || String.eqb (currentProvider st) "" then st
  else setView (countdownText (currentProvider st) (currentOTP st) (remainingSeconds now)) st.

Definition errorText (msg : string) : string :=
  "[red]Error: " +:+ escapeBrackets msg +:+ "[white]".

(** Lines 161-195.  [tGen] is the clock as [generateTOTP] reads it, [tShow]
    the clock as [updateCountdown] reads it after that. *)
Definition generateAndDisplayOTP (tGen tShow : Time) (st : Session) : outcome :=
  if (lenZ (providers st) =? 0) || (selectedProviderIndex st =? -1) then
    Done (setCurrent "" "" (setView noSelectionText st))
  else
    match sliceIndex (providers st) (selectedProviderIndex st) with
    | None => Panic "runtime error: index out of range"
    | Some provider =>
        match generateTOTP (Secret provider) tGen with
        | Err err =>
            Done (setCurrent "" ""
                    (setView (errorText err)
                       (logAttempt (selectedProviderIndex st) false st)))
        | Ok otp =>
            Done (updateCountdown tShow
                    (setCurrent otp (Name provider)
                       (logAttempt (selectedProviderIndex st) true st)))
        end
    end.

(** Lines 201-204: the callback of the list of providers. *)
Definition selectProvider (index : Z) (tGen tShow : Time) (st : Session) : outcome :=
  generateAndDisplayOTP tGen tShow (setSelected index st).

Definition savedText (providerName : string) : string :=
  "[green]Success![white]" +:+ nl +:+ nl +:+
  "Added new provider: [yellow]" +:+ escapeBrackets providerName +:+ "[white]" +:+ nl +:+ nl +:+
  "Your provider has been saved to [blue]" +:+ escapeBrackets ProvidersFilePath
    +:+ "[white]" +:+ nl +:+
  "It will be automatically loaded when you restart the app.".

(** Lines 266-327: the button "Add Provider".  The name and the secret are
    the texts of the form's first two fields. *)
Definition addProvider (tGen tShow : Time) (st : Session) : outcome :=
  let providerName := formName st in
  if String.eqb providerName "" then
    Done (setView "[red]Error: Provider name cannot be empty[white]" st)
  else
    let secret := formSecret st in
    if String.eqb secret "" then
      Done (setView "[red]Error: Secret cannot be empty[white]" st)
    else
      match base32_DecodeString secret with
      | Err _ => Done (setView "[red]Error: Secret must be a valid base32 string[white]" st)
      | Ok _ =>
          let newProvider := mkProvider providerName secret in
          let st1 := appendProvider newProvider st in
          match saveProviders (providers st1) ProvidersFilePath (disk st1) with
          | (fs, Some err) =>
              Done (setView ("[red]Error saving providers: " +:+ escapeBrackets err +:+ "[white]")
                      (setSaved fs st1))
          | (fs, None) =>
              let st2 := setSelected (lenZ (providers st1) - 1) (setSaved fs st1) in
              let st3 := setForm "" "" st2 in
              let st4 := setCurrent "" "" st3 in
              let st5 := setView (savedText providerName) st4 in
              generateAndDisplayOTP tGen tShow st5
          end
      end.

(** The user fills in the form and presses the button. *)
Definition addProviderRequest (name secret : string) (tGen tShow : Time) (st : Session)
  : outcome :=
  addProvider tGen tShow (setForm name secret st).

(** Lines 364-378: what the 15-second ticker queues. *)
Definition coarseTick (tGen tShow : Time) (st : Session) : outcome :=
  if (0 <? lenZ (providers st)) && (0 <=? selectedProviderIndex st) then
    generateAndDisplayOTP tGen tShow st
  else Done st.

(** Lines 381-393: what the one-second ticker queues. *)
Definition fineTick (now : Time) (st : Session) : Session :=
  updateCountdown now st.

(** Lines 115-144 and 207-209: the state [main] starts from. *)
Definition initialSession (fs : FS) : Session :=
  let providers :=
    match loadProviders ProvidersFilePath fs with
    | Ok ps => ps
    | Err _ => []
    end in
  mkSession providers (-1) "" "" welcomeText (map Name providers) "" "" fs [] 0.

(** ** Runs of the session *)

(** What the event loop runs: the callbacks of the widgets and what the two
    tickers queue, each with the readings of the clock it makes. *)
Inductive event : Type :=
| EvSelect (index : Z) (tGen tShow : Time)
| EvCoarseTick (tGen tShow : Time)
| EvFineTick (now : Time)
| EvAddProvider (name secret : string) (tGen tShow : Time).

(** The list widget reports the index of one of its items. *)
Definition enabled (e : event) (st : Session) : Prop :=
  match e with
  | EvSelect index _ _ => 0 <= index < lenZ (providerList st)
  | _ => True
  end.

Definition step (e : event) (st : Session) : outcome :=
  match e with
  | EvSelect index tGen tShow => selectProvider index tGen tShow st
  | EvCoarseTick tGen tShow => coarseTick tGen tShow st
  | EvFineTick now => Done (fineTick now st)
  | EvAddProvider name secret tGen tShow =>
      addProviderRequest name secret tGen tShow st
  end.

(** The states of a run that starts on the file system [fs0]. *)
Inductive reachable (fs0 : FS) : Session -> Prop :=
| reach_init : reachable fs0 (initialSession fs0)
| reach_step (st st' : Session) (e : event) :
    reachable fs0 st -> enabled e st -> step e st = Done st' -> reachable fs0 st'.

End Persistence.

(** ** The button "Read Secret from File" *)

Section Buttons.

Variable strings_ToLower : string -> string.

(** Lines 243-265: the button "Read Secret from File".  [filePath] is the
    text of the form's third field. *)
Definition readSecretButton (filePath : string) (st : Session) : Session :=
  if String.eqb filePath "" then
    setView "[red]Error: File path cannot be empty[white]" st
  else
    match readSecretFromFile strings_ToLower (disk st) filePath with
    | Err err => setView (errorText err) st
    | Ok secret =>
        setView ("[green]Secret read successfully from file: [yellow]"
                 +:+ escapeBrackets filePath +:+ "[white]")
          (setForm (formName st) secret st)
    end.

End Buttons.

(** * filepicker.go *)

(** [sort.Slice(x, less)]: the slice is sorted by the insertion sort that
    the library runs on short slices, [for i { for j := i; j > 0 &&
    less(j, j-1); j-- { swap(j, j-1) } }].  The sorted prefix is kept with
    its last element first.  On a slice of more than twelve elements the
    library runs a pattern-defeating quicksort instead, which may leave
    elements that compare equal in another order; the properties below use
    of the result only that it is a permutation of the slice in which no
    element is less than one before it. *)
Fixpoint insertBack {A} (less : A -> A -> bool) (x : A) (prefix : list A) : list A :=
  match prefix with
  | [] => [x]
  | y :: r => if less x y then y :: insertBack less x r else x :: prefix
  end.

Definition sort_Slice {A} (less : A -> A -> bool) (l : list A) : list A :=
  rev (fold_left (fun prefix x => insertBack less x prefix) l []).

(** [a] may stand before [b]: [b] is not less than [a]. *)
Definition notAfter {A} (less : A -> A -> bool) (a b : A) : Prop := less b a = false.

Module FilePicker.

(** Lines 16-21. *)
Record FileInfo : Type := mkFileInfo {
  Name : string;
  Path : string;
  IsDir : bool;
  IsParent : bool
}.

(** What [ioutil.ReadDir] tells of an entry: [Name()] and [IsDir()]. *)
Record DirEntry : Type := mkDirEntry {
  entryName : string;
  entryIsDir : bool
}.

Section Listing.

(** The process and its file system, as the function sees them. *)
Variable os_Getwd : result string.

Variable filepath_Abs : string -> result string.

Variable filepath_Dir : string -> string.

Variable filepath_Join : string -> string -> string.

Variable ioutil_ReadDir : string -> result (list DirEntry).

Variable strings_ToLower : string -> string.

(** Lines 72-88: the order the result is sorted by. *)
Definition less (a b : FileInfo) : bool :=
  if IsParent a then true
  else if IsParent b then false
  else if negb (Bool.eqb (IsDir a) (IsDir b)) then IsDir a
  else String.ltb (strings_ToLower (Name a)) (strings_ToLower (Name b)).

Definition hidden (name : string) : bool := strings_HasPrefix name ".".

(** Lines 57-69: the loop over the entries. *)
Fixpoint appendEntries (absPath : string) (files : list DirEntry) (result : list FileInfo)
  : list FileInfo :=
  match files with
  | [] => result
  | file :: files' =>
      if hidden (entryName file) then appendEntries absPath files' result
      else
        let fileInfo :=
          mkFileInfo (entryName file) (filepath_Join absPath (entryName file))
                     (entryIsDir file) false in
        appendEntries absPath files' (result ++ [fileInfo])
  end.

Definition parentEntry (absPath : string) : FileInfo :=
  mkFileInfo ".." (filepath_Dir absPath) true true.

(** Lines 24-91. *)
Definition listDirectory (dirPath : string) : result (list FileInfo) :=
  match (if String.eqb dirPath "" then
           match os_Getwd with
           | Err err => Err ("failed to get current directory: " +:+ err)
           | Ok wd => Ok wd
           end
         else Ok dirPath) with
  | Err e => Err e
  | Ok dirPath =>
      match filepath_Abs dirPath with
      | Err err => Err ("failed to get absolute path: " +:+ err)
      | Ok absPath =>
          match ioutil_ReadDir absPath with
          | Err err => Err ("failed to read directory: " +:+ err)
          | Ok files =>
              let result := [parentEntry absPath] in
              let result := appendEntries absPath files result in
              Ok (sort_Slice less result)
          end
      end
  end.

(** ** The picker (lines 94-219)

    Of the widgets, the model keeps what the closures read and write: the
    items of the list, the current path, and the title and the text of the
    modal.  The list is a [tview.List]: [AddItem] appends an item, [Clear]
    removes all of them, and [GetItemText] returns the texts of the item at
    an index and panics when there is none. *)

(** The icons of the items: U+1F4C1 (file folder) and U+1F4C4 (page facing
    up), in UTF-8. *)
Definition folderIcon : string := string_of_bytes [240; 159; 147; 129].

Definition pageIcon : string := string_of_bytes [240; 159; 147; 132].

Record Item : Type := mkItem {
  mainText : string;
  secondaryText : string;
  shortcut : Z
}.

Record Picker : Type := mkPicker {
  fileList : list Item;
  currentPath : string;
  modalTitle : string;
  modalText : string
}.

(** Lines 156-163. *)
Definition itemPrefix (file : FileInfo) : string :=
  if IsParent file then folderIcon +:+ " "
  else if IsDir file then folderIcon +:+ " "
  else pageIcon +:+ " ".

(** Lines 154-167: the loop that adds an item for each entry, the [i]-th
    with the shortcut [rune('a'+i%26)]. *)
Fixpoint addItems (i : Z) (files : list FileInfo) (items : list Item) : list Item :=
  match files with
  | [] => items
  | file :: files' =>
      addItems (i + 1) files'
        (items ++ [mkItem (itemPrefix file +:+ Name file) (Path file) (97 + i mod 26)])
  end.

(** Lines 135-171: [updateFileList].  The list is cleared before the
    directory is read. *)
Definition updateFileList (dirPath : string) (p : Picker) : Picker :=
  match listDirectory dirPath with
  | Err err => mkPicker [] (currentPath p) (modalTitle p) ("Error: " +:+ err)
  | Ok files =>
      mkPicker (addItems 0 files []) dirPath
               (" File Picker - " +:+ dirPath +:+ " ") (modalText p)
  end.

(** What handling a selection ends in: the picker lists a directory, the
    path of a file goes to the caller and the picker closes, or there is no
    item at the index. *)
Inductive selection : Type :=
| Listed (p : Picker)
| Picked (path : string)
| NoSuchItem.

(** Lines 118-133: [handleSelection]. *)
Definition handleSelection (index : Z) (p : Picker) : selection :=
  match sliceIndex (fileList p) index with
  | None => NoSuchItem
  | Some item =>
      let path := secondaryText item in
      let isDir := strings_HasPrefix (mainText item) folderIcon in
      if isDir then Listed (updateFileList path p) else Picked path
  end.

(** Lines 94-219: the picker as [ShowFilePicker] opens it. *)
Definition ShowFilePicker (currentPath : string) : Picker :=
  updateFileList currentPath (mkPicker [] currentPath " File Picker " "Select a file").

(** ** The vocabulary of the listing *)

(** The order among the entries of the directory: directories first, then
    by the lower-cased name. *)
Definition lessEntry (a b : FileInfo) : bool :=
  if negb (Bool.eqb (IsDir a) (IsDir b)) then IsDir a
  else String.ltb (strings_ToLower (Name a)) (strings_ToLower (Name b)).

(** Alphabetical without regard to case: by the lower-cased names as byte
    strings. *)
Definition byName (a b : FileInfo) : Prop :=
  String.leb (strings_ToLower (Name a)) (strings_ToLower (Name b)) = true.

Definition notParent (a : FileInfo) : Prop := IsParent a = false.

(** The entries that the loop appends: one for each entry of the directory
    whose name does not begin with a dot, in the order of the directory. *)
Definition visibleEntries (absPath : string) (files : list DirEntry)
  : list FileInfo :=
  map (fun file =>
         mkFileInfo (entryName file)
           (filepath_Join absPath (entryName file))
           (entryIsDir file) false)
      (List.filter (fun file => negb (hidden (entryName file))) files).

(** The directory that is listed: the given one, or the working directory
    for the empty path, made absolute. *)
Definition resolves (dirPath absPath : string) : Prop :=
  exists dir,
    (if String.eqb dirPath "" then os_Getwd else Ok dirPath) = Ok dir
    /\ filepath_Abs dir = Ok absPath.

End Listing.

End FilePicker.

(** * The vocabulary of the properties *)

Definition validationErrors : list string :=
  [ "[red]Error: Provider name cannot be empty[white]";
    "[red]Error: Secret cannot be empty[white]";
    "[red]Error: Secret must be a valid base32 string[white]" ].

Definition isDigitChar (a : ascii) : bool := (48 <=? byteZ a) && (byteZ a <=? 57).

(** A code of six decimal digits. *)
Definition isSixDigits (code : string) : bool :=
  Nat.eqb (String.length code) 6 && forallb isDigitChar (list_ascii_of_string code).

(** Two instants of one 30-second window that is aligned to the epoch. *)
Definition sameWindow (t1 t2 : Time) : Prop :=
  exists k : Z,
    30 * k <= Time_Unix t1 < 30 * k + 30 /\ 30 * k <= Time_Unix t2 < 30 * k + 30.

(** *** Secrets in the canonical form of RFC 4648

    The symbols come in groups of eight; the last group may hold 2, 4, 5 or
    7 symbols and is then filled up with padding. *)
Definition inAlphabet (c : Z) : bool :=
  (65 <=? c) && (c <=? 90) || (50 <=? c) && (c <=? 55).

Definition isPad (c : Z) : bool := c =? padChar.

Definition paddedGroup (c0 c1 c2 c3 c4 c5 c6 c7 : Z) : bool :=
  inAlphabet c0 && inAlphabet c1
  && (forallb isPad [c2; c3; c4; c5; c6; c7]
      || inAlphabet c2 && inAlphabet c3
         && (forallb isPad [c4; c5; c6; c7]
             || inAlphabet c4
                && (forallb isPad [c5; c6; c7]
                    || inAlphabet c5 && inAlphabet c6 && isPad c7))).

Fixpoint wellFormedBase32 (s : list Z) : bool :=
  match s with
  | [] => true
  | c0 :: c1 :: c2 :: c3 :: c4 :: c5 :: c6 :: c7 :: rest =>
      if forallb inAlphabet [c0; c1; c2; c3; c4; c5; c6; c7]
      then wellFormedBase32 rest
      else match rest with
           | [] => paddedGroup c0 c1 c2 c3 c4 c5 c6 c7
           | _ :: _ => false
           end
  | _ => false
  end.

(** A valid secret: not empty, and base32 in canonical form. *)
Definition validSecret (s : string) : bool :=
  negb (String.eqb s "") && wellFormedBase32 (bytes_of_string s).

Definition isBase32Byte (c : Z) : bool := inAlphabet c || isPad c.

(** Strings that consist of white space. *)
Inductive SpaceSeq : list Z -> Prop :=
| SpaceSeq_nil : SpaceSeq []
| SpaceSeq_1 b0 r : space1 b0 = true -> SpaceSeq r -> SpaceSeq (b0 :: r)
| SpaceSeq_2 b0 b1 r : space2 b0 b1 = true -> SpaceSeq r -> SpaceSeq (b0 :: b1 :: r)
| SpaceSeq_3 b0 b1 b2 r : space3 b0 b1 b2 = true -> SpaceSeq r -> SpaceSeq (b0 :: b1 :: b2 :: r).

Definition present (s : string) : Prop := s <> "".

Definition validIndex (st : Session) : Prop :=
  0 <= selectedProviderIndex st < lenZ (providers st).

(** The newest call of generateTOTP was made for the selected provider and
    gave a code. *)
Definition lastAttemptOk (st : Session) : Prop :=
  match attempts st with
  | (index, ok) :: _ => index = selectedProviderIndex st /\ ok = true
  | [] => False
  end.

Definition invariant (st : Session) : Prop :=
  (present (currentOTP st) <-> present (currentProvider st))
  /\ (present (currentOTP st) <-> validIndex st /\ lastAttemptOk st).

Definition namesOk (ps : list Provider) : Prop :=
  Forall (fun p => Name p <> "") ps.

(** The invariant together with what its preservation rests on: the index is
    -1 or in range, no provider has an empty name, and the list widget has
    one item per provider. *)
Definition good (st : Session) : Prop :=
  invariant st
  /\ (selectedProviderIndex st = -1 \/ validIndex st)
  /\ namesOk (providers st)
  /\ length (providerList st) = length (providers st).

Definition isByte (b : Z) : bool := (0 <=? b) && (b <? 256).

(** A string as it comes back: coerced to valid UTF-8. *)
Definition coerceString (s : string) : string :=
  string_of_bytes (utf8_coerce (bytes_of_string s)).

Definition coerceProvider (p : Provider) : Provider :=
  mkProvider (coerceString (Name p)) (coerceString (Secret p)).

(** The value that the text of a provider stands for. *)
Definition jsonOf (p : Provider) : json :=
  JObject [ (lit "Name", JString (utf8_coerce (bytes_of_string (Name p))));
            (lit "Secret", JString (utf8_coerce (bytes_of_string (Secret p)))) ].

(** The bytes of the document that MarshalIndent writes. *)
Definition documentOf (ps : list Provider) : list Z :=
  match ps with
  | [] => lit "[]"
  | _ :: _ => lit "[" ++ nlb ++ encodeElems ps ++ lit "]"
  end.

Definition validUTF8 (s : string) : bool := utf8_Valid (bytes_of_string s).

(** ** The vocabulary of the further properties *)

(** The selection is none or one of the providers, and the list widget
    shows the names of the providers, in their order. *)
Definition wellFormed (st : Session) : Prop :=
  (selectedProviderIndex st = -1 \/ validIndex st)
  /\ providerList st = map Name (providers st).

(** The instant [d] seconds after [t], read in the same zone. *)
Definition later (t : Time) (d : Z) : Time := mkTime (unixSec t + d) (zoneOffset t).

(** What an operation leaves alone when it only generates and displays. *)
Definition sameData (st st' : Session) : Prop :=
  providers st' = providers st
  /\ providerList st' = providerList st
  /\ selectedProviderIndex st' = selectedProviderIndex st
  /\ formName st' = formName st
  /\ formSecret st' = formSecret st
  /\ disk st' = disk st
  /\ saves st' = saves st.

(** Printable ASCII other than the blank. *)
Definition isGraphic (b : Z) : bool := (33 <=? b) && (b <=? 126).

(** Bytes that are valid UTF-8. *)
Definition validText (s : list Z) : bool := forallb isByte s && utf8_Valid s.

(** Every string of a JSON value is valid UTF-8. *)
Fixpoint jsonValid (v : json) : bool :=
  match v with
  | JString s => validText s
  | JArray l => forallb jsonValid l
  | JObject m => forallb (fun kv => jsonValid (snd kv)) m
  | _ => true
  end.

(** [p] holds of the [n] integers from [z] on. *)
Fixpoint allFrom (n : nat) (z : Z) (p : Z -> bool) : bool :=
  match n with
  | O => true
  | S n' => p z && allFrom n' (z + 1) p
  end.

Definition providerValid (p : Provider) : bool :=
  validUTF8 (Name p) && validUTF8 (Secret p).

(** The code that is held was generated, at some instant, for the secret of
    the selected provider, whose name is held with it. *)
Definition codeOfSelection (st : Session) : Prop :=
  currentOTP st = ""
  \/ exists (p : Provider) (t : Time),
       sliceIndex (providers st) (selectedProviderIndex st) = Some p
       /\ currentProvider st = Name p
       /\ generateTOTP (Secret p) t = Ok (currentOTP st).

(** ** Inputs of the examples *)

(** A session with one provider, as it is after the list was loaded. *)
Definition oneProvider : Session :=
  mkSession [mkProvider "work" "JBSWY3DPEHPK3PXP"] (-1) "" "" welcomeText
            ["work"] "" "" ∅ [] 0.

(** A key file with the secret between two spaces in front and a line feed
    and a no-break space behind. *)
Definition keyFileContent : string :=
  string_of_bytes ([32; 32] ++ bytes_of_string "JBSWY3DPEHPK3PXP" ++ [10; 194; 160]).

(** A providers.json whose one entry has an empty name. *)
Definition unnamedProviderFile : FS :=
  {[ ProvidersFilePath := NFile (json_MarshalIndent [mkProvider "" "JBSWY3DPEHPK3PXP"]) ]}.

(** A directory with a hidden entry, two directories and two files. *)
Definition exampleDir : list FilePicker.DirEntry :=
  [ FilePicker.mkDirEntry "b.txt" false; FilePicker.mkDirEntry ".git" true;
    FilePicker.mkDirEntry "Zeta" true; FilePicker.mkDirEntry "alpha" true;
    FilePicker.mkDirEntry "A.key" false ].

Definition exampleListing : result (list FilePicker.FileInfo) :=
  FilePicker.listDirectory (Ok "/home/otp") (fun p => Ok p) (fun _ => "/home")
    (fun d n => d +:+ "/" +:+ n) (fun _ => Ok exampleDir) asciiToLower "".

(** The list of the specification's scenario with a second entry whose name
    is not ASCII ("Bank" followed by U+00E9 and U+1F600). *)
Definition twoProviders : list Provider :=
  [ mkProvider "work" "JBSWY3DPEHPK3PXP";
    mkProvider (string_of_bytes [66; 97; 110; 107; 195; 169; 240; 159; 152; 128])
      "GEZDGNBVGY3TQOJQ" ].

(** A provider whose secret has a line feed inside, as the form accepts it. *)
Definition brokenProvider : Session :=
  mkSession [mkProvider "mail" ("MF" +:+ nl +:+ "RGG===")] (-1) "" "" welcomeText
            ["mail"] "" "" ∅ [] 0.

(** A directory where providers.json should be. *)
Definition blockedDisk : FS := {[ ProvidersFilePath := NDir ]}.

(** A providers.json that holds no JSON text. *)
Definition damagedDisk : FS := {[ ProvidersFilePath := NFile "providers: work" ]}.

(** The file that the scenario of the specification leaves. *)
Definition savedDisk : FS :=
  {[ ProvidersFilePath := NFile (json_MarshalIndent [mkProvider "work" "JBSWY3DPEHPK3PXP"]) ]}.

(** A file of white space only. *)
Definition blankFileContent : string := string_of_bytes [32; 9; 13; 10; 226; 128; 131].

(** The session of one provider with a name typed into the form and the key
    file of the examples on the disk. *)
Definition formFilled : Session :=
  mkSession [mkProvider "work" "JBSWY3DPEHPK3PXP"] (-1) "" "" welcomeText
            ["work"] "mail" "" (<["keys/work.KEY" := NFile keyFileContent]> ∅) [] 0.

(** * Properties *)

(** ** Strings and their bytes *)

Lemma byteZ_range a : 0 <= byteZ a < 256.
Proof.
  unfold byteZ. pose proof (N_ascii_bounded a) as H. lia.
Qed.

Lemma asciiZ_byteZ a : asciiZ (byteZ a) = a.
Proof.
  unfold asciiZ, byteZ. rewrite N2Z.id. apply ascii_N_embedding.
Qed.

Lemma byteZ_asciiZ z : 0 <= z < 256 -> byteZ (asciiZ z) = z.
Proof.
  intros Hz. unfold asciiZ, byteZ.
  rewrite N_ascii_embedding by lia. lia.
Qed.

Lemma string_of_bytes_of_string s : string_of_bytes (bytes_of_string s) = s.
Proof.
  unfold string_of_bytes, bytes_of_string.
  rewrite map_map.
  rewrite (map_ext _ (fun a => a)) by apply asciiZ_byteZ.
  rewrite map_id. apply string_of_list_ascii_of_string.
Qed.

Lemma bytes_of_string_of_bytes l :
  Forall (fun z => 0 <= z < 256) l -> bytes_of_string (string_of_bytes l) = l.
Proof.
  intros Hl. unfold string_of_bytes, bytes_of_string.
  rewrite list_ascii_of_string_of_list_ascii, map_map.
  induction Hl as [|z l Hz _ IH]; simpl; [reflexivity|].
  rewrite byteZ_asciiZ by exact Hz. now rewrite IH.
Qed.

Lemma bytes_of_string_range s : Forall (fun z => 0 <= z < 256) (bytes_of_string s).
Proof.
  unfold bytes_of_string. apply Forall_map, Forall_forall.
  intros a _. apply byteZ_range.
Qed.

Lemma bytes_of_string_app s1 s2 :
  bytes_of_string (s1 +:+ s2) = bytes_of_string s1 ++ bytes_of_string s2.
Proof.
  unfold bytes_of_string. induction s1 as [|a s1 IH]; simpl; [reflexivity|].
  now rewrite IH.
Qed.

Lemma string_of_bytes_app l1 l2 :
  string_of_bytes (l1 ++ l2) = string_of_bytes l1 +:+ string_of_bytes l2.
Proof.
  unfold string_of_bytes. induction l1 as [|a l1 IH]; simpl; [reflexivity|].
  now rewrite IH.
Qed.

Lemma bytes_of_string_inj s1 s2 : bytes_of_string s1 = bytes_of_string s2 -> s1 = s2.
Proof.
  intros H. rewrite <- (string_of_bytes_of_string s1), H.
  apply string_of_bytes_of_string.
Qed.

Lemma bytes_of_string_length s : length (bytes_of_string s) = String.length s.
Proof.
  unfold bytes_of_string. rewrite length_map.
  induction s; simpl; congruence.
Qed.

(** ** The library models on published values *)

(** FIPS 180: the digest of the three bytes of the text abc. *)
Example sha1_abc :
  sha1 (lit "abc")
  = [169; 153; 62; 54; 71; 6; 129; 106; 186; 62; 37; 113; 120; 80; 194; 108;
     156; 208; 216; 157].
Proof. vm_compute. reflexivity. Qed.

(** RFC 2202, test case 2 of HMAC-SHA-1. *)
Example hmac_sha1_rfc2202 :
  hmac_sha1 (lit "Jefe") (lit "what do ya want for nothing?")
  = [239; 252; 223; 106; 229; 235; 47; 162; 210; 116; 22; 213; 241; 132; 223;
     156; 37; 154; 124; 121].
Proof. vm_compute. reflexivity. Qed.

(** RFC 4648, section 10. *)
Example base32_rfc4648 :
  map base32_DecodeString ["MY======"; "MZXQ===="; "MZXW6==="; "MZXW6YQ="; "MZXW6YTB"]
  = map (fun s => Ok (lit s)) ["f"; "fo"; "foo"; "foob"; "fooba"].
Proof. vm_compute. reflexivity. Qed.

(** Inputs the decoder refuses, with the offset it reports. *)
Example base32_corrupt :
  map base32_DecodeString
      ["!!!!"; "x==="; "AA=A===="; "AAA=AAAA"; "MMMMMMMMM"; "MMMMMM"; "A="; "AA=";
       "AAAA=="; "A======="; "AAA====="; "AAAAAA=="; "not-base32!"]
  = map (fun n => Err (CorruptInputError n)) [0; 0; 2; 3; 8; 0; 1; 3; 6; 1; 3; 6; 0].
Proof. vm_compute. reflexivity. Qed.

(** RFC 4226, appendix D: the first codes of the secret 12345678901234567890. *)
Example hotp_rfc4226 :
  map (hotp_GenerateCodeCustom "GEZDGNBVGY3TQOJQGEZDGNBVGY3TQOJQ") [0; 1; 2; 3]
  = map Ok ["755224"; "287082"; "359152"; "969429"].
Proof. vm_compute. reflexivity. Qed.

(** RFC 6238, appendix B: the last six digits of the codes for SHA-1. *)
Example totp_rfc6238 :
  map (fun unix => totp_GenerateCode "GEZDGNBVGY3TQOJQGEZDGNBVGY3TQOJQ" (mkTime unix 0))
      [59; 1111111109; 1111111111; 1234567890; 2000000000; 20000000000]
  = map Ok ["287082"; "081804"; "050471"; "005924"; "279037"; "353130"].
Proof. vm_compute. reflexivity. Qed.

(** The layout of the file: two spaces per level, a space behind the colon,
    the characters of HTML escaped. *)
Example json_MarshalIndent_layout :
  json_MarshalIndent [mkProvider "a<b" "MY======"]
  = "[" +:+ nl +:+ "  {" +:+ nl
    +:+ "    " +:+ string_of_bytes [34] +:+ "Name" +:+ string_of_bytes [34] +:+ ": "
    +:+ string_of_bytes [34] +:+ "a\u003cb" +:+ string_of_bytes [34] +:+ "," +:+ nl
    +:+ "    " +:+ string_of_bytes [34] +:+ "Secret" +:+ string_of_bytes [34] +:+ ": "
    +:+ string_of_bytes [34] +:+ "MY======" +:+ string_of_bytes [34] +:+ nl
    +:+ "  }" +:+ nl +:+ "]".
Proof. vm_compute. reflexivity. Qed.

(** The decoder drops line feeds wherever they stand, the generator pads
    before it decodes: a secret with a line feed inside passes the check of
    the form and of the secret file, and no code can be generated for it. *)
Example secret_with_line_feed :
  base32_DecodeString ("MF" +:+ nl +:+ "RGG===") = Ok (lit "abc")
  /\ generateTOTP ("MF" +:+ nl +:+ "RGG===") (mkTime 0 0)
     = Err ErrValidateSecretInvalidBase32.
Proof. split; vm_compute; reflexivity. Qed.

(** ** The countdown (main.go, line 153) *)

Lemma remainingSeconds_range (t : Time) : 1 <= remainingSeconds t <= 30.
Proof.
  unfold remainingSeconds.
  pose proof (Z.mod_pos_bound (Time_Second t) 30 ltac:(lia)). lia.
Qed.

Lemma remainingSeconds_full (t : Time) :
  remainingSeconds t = 30 <-> Time_Second t mod 30 = 0.
Proof. unfold remainingSeconds. lia. Qed.

(** The second of the minute and the seconds since the epoch agree modulo
    30 when the zone is a whole number of half minutes away from UTC. *)
Lemma Time_Second_mod_30 (t : Time) :
  zoneOffset t mod 30 = 0 -> Time_Second t mod 30 = Time_Unix t mod 30.
Proof.
  unfold Time_Second, Time_Unix. intros Hz.
  Z.to_euclidean_division_equations. lia.
Qed.

(** Where the countdown and the epoch agree: for an instant read in a zone
    whose offset from UTC is a multiple of 30 seconds, the remaining
    seconds, 30 - second-of-minute mod 30, equal 30 - (epochSeconds mod 30),
    and are 30 exactly when epochSeconds mod 30 = 0. *)
Theorem remainingSeconds_epoch (t : Time) :
  zoneOffset t mod 30 = 0 ->
  remainingSeconds t = 30 - Time_Unix t mod 30
  /\ 1 <= remainingSeconds t <= 30
  /\ (remainingSeconds t = 30 <-> Time_Unix t mod 30 = 0).
Proof.
  intros Hz. pose proof (Time_Second_mod_30 t Hz) as Heq.
  split; [unfold remainingSeconds; lia|].
  split; [apply remainingSeconds_range|].
  rewrite remainingSeconds_full, Heq. reflexivity.
Qed.

(** At 12:00:17 UTC on a clock that shows UTC+1 the countdown and the epoch
    agree. *)
Lemma remainingSeconds_epoch_witness :
  zoneOffset (mkTime 43217 3600) mod 30 = 0
  /\ remainingSeconds (mkTime 43217 3600) = 13
  /\ 30 - Time_Unix (mkTime 43217 3600) mod 30 = 13.
Proof.
  split; [reflexivity|].
  destruct (remainingSeconds_epoch (mkTime 43217 3600) eq_refl) as [H _].
  split; [rewrite H|]; reflexivity.
Defined.


(** ** Selecting a provider (main.go, lines 161-195 and 201-204) *)

Lemma sliceIndex_Some {A} (l : list A) (i : Z) :
  0 <= i < lenZ l -> exists x, sliceIndex l i = Some x /\ l !! Z.to_nat i = Some x.
Proof.
  intros Hi. unfold sliceIndex, lenZ in *.
  destruct (l !! Z.to_nat i) as [x|] eqn:Hl.
  - exists x. split; [|reflexivity].
    replace (i <? 0) with false by lia.
    replace (Z.of_nat (length l) <=? i) with false by lia. reflexivity.
  - apply lookup_ge_None in Hl. lia.
Qed.

Lemma sliceIndex_None {A} (l : list A) (i : Z) :
  i < 0 \/ lenZ l <= i -> sliceIndex l i = None.
Proof.
  intros Hi. unfold sliceIndex.
  destruct (i <? 0) eqn:H0; [reflexivity|].
  destruct (lenZ l <=? i) eqn:H1; [reflexivity|]. lia.
Qed.

(** An index other than -1 that is out of range for a list that is not
    empty reaches the slice access, which panics. *)
Lemma generateAndDisplayOTP_out_of_range (tGen tShow : Time) (st : Session) :
  providers st <> [] ->
  selectedProviderIndex st <> -1 ->
  selectedProviderIndex st < 0 \/ lenZ (providers st) <= selectedProviderIndex st ->
  generateAndDisplayOTP tGen tShow st = Panic "runtime error: index out of range".
Proof.
  intros Hne Hsel Hout. unfold generateAndDisplayOTP.
  assert (lenZ (providers st) <> 0) as Hlen.
  { unfold lenZ. destruct (providers st); [congruence|simpl; lia]. }
  replace (lenZ (providers st) =? 0) with false by lia.
  replace (selectedProviderIndex st =? -1) with false by lia.
  simpl. now rewrite sliceIndex_None.
Qed.

(** C1, amended: for every provider list and every selection index, when the
    list is empty or the index is -1 (the value that stands for no
    selection), selecting clears currentOTP and currentProvider, shows the
    no-selection text, and ends without a panic. *)
Theorem select_no_selection (st : Session) (index : Z) (tGen tShow : Time) :
  providers st = [] \/ index = -1 ->
  exists st',
    selectProvider index tGen tShow st = Done st'
    /\ currentOTP st' = "" /\ currentProvider st' = ""
    /\ otpView st' = noSelectionText.
Proof.
  intros Hsel. unfold selectProvider, generateAndDisplayOTP.
  assert ((lenZ (providers (setSelected index st)) =? 0)
          || (selectedProviderIndex (setSelected index st) =? -1) = true) as ->.
  { simpl. destruct Hsel as [-> | ->]; [reflexivity|]. apply orb_true_r. }
  eexists. split; [reflexivity|]. simpl. auto.
Qed.

Lemma select_no_selection_witness :
  exists st',
    selectProvider (-1) (mkTime 0 0) (mkTime 0 0) oneProvider = Done st'
    /\ currentOTP st' = "" /\ currentProvider st' = ""
    /\ otpView st' = noSelectionText.
Proof.
  apply (select_no_selection oneProvider (-1)). right. reflexivity.
Defined.

(** C1 as stated fails: index 1 is out of range for a list of one provider,
    and selecting it panics. *)
Lemma select_out_of_range_counterexample :
  lenZ (providers oneProvider) = 1
  /\ selectProvider 1 (mkTime 0 0) (mkTime 0 0) oneProvider
     = Panic "runtime error: index out of range".
Proof. split; reflexivity. Qed.

(** ** The one-second tick (main.go, lines 147-158 and 381-393) *)

Lemma updateCountdown_frame (now : Time) (st : Session) :
  currentOTP (updateCountdown now st) = currentOTP st
  /\ currentProvider (updateCountdown now st) = currentProvider st
  /\ attempts (updateCountdown now st) = attempts st
  /\ providers (updateCountdown now st) = providers st
  /\ providerList (updateCountdown now st) = providerList st
  /\ selectedProviderIndex (updateCountdown now st) = selectedProviderIndex st
  /\ disk (updateCountdown now st) = disk st
  /\ saves (updateCountdown now st) = saves st.
Proof.
  unfold updateCountdown.
  destruct (String.eqb (currentOTP st) "" || String.eqb (currentProvider st) "");
    simpl; repeat split.
Qed.

(** C7: the fine tick leaves currentOTP and currentProvider as they are and
    makes no call of generateTOTP (nor any other change to the session); it
    only writes the countdown text, with the remaining seconds computed
    anew, and only when a code is held. *)
Theorem fineTick_frame (now : Time) (st : Session) :
  currentOTP (fineTick now st) = currentOTP st
  /\ currentProvider (fineTick now st) = currentProvider st
  /\ attempts (fineTick now st) = attempts st
  /\ providers (fineTick now st) = providers st
  /\ selectedProviderIndex (fineTick now st) = selectedProviderIndex st
  /\ disk (fineTick now st) = disk st
  /\ saves (fineTick now st) = saves st
  /\ otpView (fineTick now st)
     = if String.eqb (currentOTP st) "" || String.eqb (currentProvider st) ""
       then otpView st
       else countdownText (currentProvider st) (currentOTP st) (remainingSeconds now).
Proof.
  unfold fineTick.
  destruct (updateCountdown_frame now st) as (H1 & H2 & H3 & H4 & _ & H5 & H6 & H7).
  repeat (split; [assumption|]).
  unfold updateCountdown.
  now destruct (String.eqb (currentOTP st) "" || String.eqb (currentProvider st) "").
Qed.

(** ** Adding a provider: validation (main.go, lines 266-286) *)

(** What the three checks of the handler refuse: a request whose name is
    empty, whose secret is empty, or whose secret the base32 decoder
    refuses, ends with a validation error on the display and nothing else
    changed: the list of providers is as it was, saveProviders was not
    called and the file system is untouched. *)
Theorem addProvider_rejects_invalid
  (filepath_Dir : string -> string) (name secret : string)
  (tGen tShow : Time) (st : Session) :
  name = "" \/ secret = "" \/ is_ok (base32_DecodeString secret) = false ->
  exists st',
    addProviderRequest filepath_Dir name secret tGen tShow st = Done st'
    /\ In (otpView st') validationErrors
    /\ providers st' = providers st
    /\ providerList st' = providerList st
    /\ disk st' = disk st
    /\ saves st' = saves st
    /\ selectedProviderIndex st' = selectedProviderIndex st
    /\ currentOTP st' = currentOTP st
    /\ currentProvider st' = currentProvider st
    /\ attempts st' = attempts st.
Proof.
  intros Hbad. unfold addProviderRequest, addProvider, validationErrors.
  cbn [formName formSecret setForm].
  destruct (String.eqb_spec name "") as [Hn|Hn].
  { eexists. split; [reflexivity|]. simpl. tauto. }
  destruct (String.eqb_spec secret "") as [Hs|Hs].
  { eexists. split; [reflexivity|]. simpl. tauto. }
  destruct (base32_DecodeString secret) as [bs|err] eqn:Hdec.
  { exfalso. destruct Hbad as [H|[H|H]]; [congruence|congruence|discriminate]. }
  eexists. split; [reflexivity|]. simpl. tauto.
Qed.

(** The request of the specification's scenario: the secret "not-base32!" is
    refused, and the session that was started on an empty directory still
    has no provider and no file. *)
Lemma addProvider_rejects_invalid_witness :
  is_ok (base32_DecodeString "not-base32!") = false
  /\ exists st',
       addProviderRequest (fun _ => ".") "work" "not-base32!"
         (mkTime 0 0) (mkTime 0 0) (initialSession ∅) = Done st'
       /\ otpView st' = "[red]Error: Secret must be a valid base32 string[white]"
       /\ providers st' = []
       /\ disk st' = ∅.
Proof.
  split; [reflexivity|].
  destruct (addProvider_rejects_invalid (fun _ => ".") "work" "not-base32!"
              (mkTime 0 0) (mkTime 0 0) (initialSession ∅))
    as (st' & Hrun & _ & Hp & _ & Hd & _).
  { right. right. reflexivity. }
  exists st'. split; [exact Hrun|].
  split; [|split; [exact Hp | exact Hd]].
  vm_compute in Hrun. injection Hrun as <-. reflexivity.
Defined.

(** C5: the handler takes for valid what base32.StdEncoding.DecodeString
    accepts, and the decoder reads no further than the first padded group:
    the secret AA======XX is no valid base32 string, yet the request is not
    rejected.  The provider is appended, saveProviders is called and
    providers.json is written; the generation for the new provider then
    fails with the library's error that the secret is no base32. *)
Theorem addProvider_accepts_malformed_secret :
  validSecret "AA======XX" = false
  /\ is_ok (base32_DecodeString "AA======XX") = true
  /\ exists st',
       addProviderRequest (fun _ => ".") "work" "AA======XX" (mkTime 0 0) (mkTime 0 0)
         (initialSession ∅) = Done st'
       /\ providers st' = [mkProvider "work" "AA======XX"]
       /\ providerList st' = ["work"]
       /\ saves st' = 1%nat
       /\ disk st' !! ProvidersFilePath
          = Some (NFile (json_MarshalIndent [mkProvider "work" "AA======XX"]))
       /\ selectedProviderIndex st' = 0
       /\ currentOTP st' = ""
       /\ otpView st' = errorText ErrValidateSecretInvalidBase32.
Proof.
  split; [reflexivity|]. split; [reflexivity|].
  eexists. split; [vm_compute; reflexivity|].
  repeat split; vm_compute; reflexivity.
Qed.

(** ** Code generation (main.go, lines 29-36) *)

Lemma digitChar_isDigit (d : Z) : 0 <= d < 10 -> isDigitChar (digitChar d) = true.
Proof.
  intros Hd. unfold isDigitChar, digitChar.
  rewrite byteZ_asciiZ by lia. lia.
Qed.

Lemma decimalAux_digits (fuel : nat) : forall (n : Z) (acc : list ascii),
  forallb isDigitChar acc = true ->
  forallb isDigitChar (decimalAux fuel n acc) = true.
Proof.
  induction fuel as [|fuel IH]; intros n acc Hacc; simpl; [exact Hacc|].
  assert (forallb isDigitChar (digitChar (n mod 10) :: acc) = true) as Hacc'.
  { simpl. rewrite Hacc, digitChar_isDigit; [reflexivity|].
    apply Z.mod_pos_bound. lia. }
  destruct (n <? 10); [exact Hacc'|]. apply IH. exact Hacc'.
Qed.

Lemma decimalAux_length (fuel : nat) : forall (k : nat) (n : Z) (acc : list ascii),
  (1 <= k)%nat -> 0 <= n < 10 ^ Z.of_nat k ->
  (length (decimalAux fuel n acc) <= k + length acc)%nat.
Proof.
  induction fuel as [|fuel IH]; intros k n acc Hk Hn; simpl; [lia|].
  destruct (n <? 10) eqn:Hlt; [simpl; lia|].
  destruct k as [|[|k]]; [lia| |].
  - change (10 ^ Z.of_nat 1) with 10 in Hn. lia.
  - specialize (IH (S k) (n / 10) (digitChar (n mod 10) :: acc)).
    simpl length in IH.
    assert (0 <= n / 10 < 10 ^ Z.of_nat (S k)) as Hq.
    { split; [apply Z.div_pos; lia|].
      apply Z.div_lt_upper_bound; [lia|].
      replace (Z.of_nat (S (S k))) with (Z.succ (Z.of_nat (S k))) in Hn by lia.
      rewrite Z.pow_succ_r in Hn by lia. lia. }
    specialize (IH ltac:(lia) Hq). lia.
Qed.

Lemma length_string_of_list_ascii (l : list ascii) :
  String.length (string_of_list_ascii l) = length l.
Proof. induction l; simpl; congruence. Qed.

Lemma fmt_0d_six (n : Z) : 0 <= n < 10 ^ 6 -> isSixDigits (fmt_0d 6 n) = true.
Proof.
  intros Hn. unfold isSixDigits, fmt_0d.
  rewrite length_string_of_list_ascii, list_ascii_of_string_of_list_ascii.
  pose proof (decimalAux_length (S (Z.to_nat (Z.log2 n))) 6 n [] ltac:(lia) Hn) as Hlen.
  fold (decimalDigits n) in Hlen. simpl length in Hlen.
  apply andb_true_intro. split.
  - apply Nat.eqb_eq. rewrite length_app, repeat_length. lia.
  - rewrite forallb_app. apply andb_true_intro. split.
    + apply forallb_forall. intros a Ha. apply repeat_spec in Ha. now subst a.
    + apply decimalAux_digits. reflexivity.
Qed.

(** The sum the code is cut from has the 20 bytes of SHA-1, so the four
    bytes at an offset of at most 15 are there. *)
Lemma sha1_length (msg : list Z) : length (sha1 msg) = 20%nat.
Proof. reflexivity. Qed.

Lemma hmac_sha1_length (key msg : list Z) : length (hmac_sha1 key msg) = 20%nat.
Proof. unfold hmac_sha1. apply sha1_length. Qed.

Lemma hotp_truncate_offset (sum : list Z) :
  0 <= Z.land (nth (Z.to_nat (lenZ sum - 1)) sum 0) 15 <= 15.
Proof.
  set (x := nth _ sum 0).
  split; [apply Z.land_nonneg; lia|].
  destruct (Z.eq_dec (Z.land x 15) 0) as [->|Hne]; [lia|].
  assert (0 <= Z.land x 15) as Hge by (apply Z.land_nonneg; lia).
  assert (Z.land x 15 < 2 ^ 4); [|lia].
  apply Z.log2_lt_cancel. rewrite Z.log2_pow2 by lia.
  pose proof (Z.log2_land x 15) as Hl.
  destruct (Z_lt_le_dec x 0) as [Hneg|Hpos].
  - assert (Z.land x 15 = Z.land (x mod 16) 15) as ->.
    { change 15 with (Z.ones 4). rewrite !Z.land_ones by lia.
      change (2 ^ 4) with 16. now rewrite Z.mod_mod. }
    pose proof (Z.mod_pos_bound x 16 ltac:(lia)).
    pose proof (Z.log2_land (x mod 16) 15 ltac:(lia) ltac:(lia)) as Hl'.
    change (Z.log2 15) with 3 in Hl'. lia.
  - specialize (Hl Hpos ltac:(lia)). change (Z.log2 15) with 3 in Hl. lia.
Qed.

(** The truncated value is not negative, so Go's [%] and [mod] agree on it. *)
Lemma hotp_truncate_nonneg (sum : list Z) : 0 <= hotp_truncate sum.
Proof.
  unfold hotp_truncate.
  repeat (apply Z.lor_nonneg; split);
    try apply Z.shiftl_nonneg; apply Z.land_nonneg; right; lia.
Qed.

(** A code that is returned has six decimal digits. *)
Lemma hotp_six_digits (secret : string) (counter : Z) (code : string) :
  hotp_GenerateCodeCustom secret counter = Ok code -> isSixDigits code = true.
Proof.
  unfold hotp_GenerateCodeCustom.
  destruct (base32_DecodeString _) as [bs|e]; [|discriminate].
  intros [= <-]. apply fmt_0d_six.
  apply Z.mod_pos_bound. lia.
Qed.

Lemma generateTOTP_eq (secret : string) (now : Time) :
  generateTOTP secret now = totp_GenerateCode secret now.
Proof. unfold generateTOTP. now destruct (totp_GenerateCode secret now). Qed.

Lemma generateTOTP_six_digits (secret : string) (now : Time) (code : string) :
  generateTOTP secret now = Ok code -> isSixDigits code = true.
Proof. rewrite generateTOTP_eq. apply hotp_six_digits. Qed.

Lemma isSixDigits_nonempty (code : string) : isSixDigits code = true -> code <> "".
Proof. intros H ->. discriminate. Qed.

Lemma sameWindow_counter (t1 t2 : Time) :
  sameWindow t1 t2 -> totp_counter t1 = totp_counter t2.
Proof.
  intros (k & H1 & H2). unfold totp_counter.
  replace (Time_Unix t1 / 30) with k by (apply Z.div_unique with (Time_Unix t1 - 30 * k); lia).
  replace (Time_Unix t2 / 30) with k by (apply Z.div_unique with (Time_Unix t2 - 30 * k); lia).
  reflexivity.
Qed.

(** Whatever the secret, the outcome of the generation is the same at two
    instants of one window. *)
Lemma generateTOTP_sameWindow (secret : string) (t1 t2 : Time) :
  sameWindow t1 t2 -> generateTOTP secret t1 = generateTOTP secret t2.
Proof.
  intros Hw. rewrite !generateTOTP_eq. unfold totp_GenerateCode.
  now rewrite (sameWindow_counter t1 t2 Hw).
Qed.

Lemma readQuantum_symbol (olen : Z) (k : nat) (dbuf : list Z) (c : Z) (src : list Z) :
  inAlphabet c = true ->
  readQuantum olen (S k) dbuf (c :: src)
  = readQuantum olen k (dbuf ++ [base32_decodeMap c]) src.
Proof.
  intros Hc. unfold inAlphabet in Hc. simpl.
  assert ((c =? padChar) = false) as -> by (unfold padChar; lia).
  simpl.
  assert ((base32_decodeMap c =? 255) = false) as ->; [|reflexivity].
  unfold base32_decodeMap.
  destruct ((65 <=? c) && (c <=? 90)) eqn:H1; [lia|].
  destruct ((50 <=? c) && (c <=? 55)) eqn:H2; [lia|].
  simpl in Hc. discriminate.
Qed.

Lemma readQuantum_full olen c0 c1 c2 c3 c4 c5 c6 c7 rest :
  forallb inAlphabet [c0; c1; c2; c3; c4; c5; c6; c7] = true ->
  readQuantum olen 8 [] (c0 :: c1 :: c2 :: c3 :: c4 :: c5 :: c6 :: c7 :: rest)
  = QFull (map base32_decodeMap [c0; c1; c2; c3; c4; c5; c6; c7]) rest.
Proof.
  intros H. simpl in H.
  repeat (apply andb_prop in H; destruct H as [? H]).
  rewrite !readQuantum_symbol by assumption. reflexivity.
Qed.

Lemma readQuantum_padded olen c0 c1 c2 c3 c4 c5 c6 c7 :
  paddedGroup c0 c1 c2 c3 c4 c5 c6 c7 = true ->
  exists dbuf, readQuantum olen 8 [] [c0; c1; c2; c3; c4; c5; c6; c7] = QEnd dbuf.
Proof.
  unfold paddedGroup, isPad. intros H.
  repeat match goal with
         | H : _ && _ = true |- _ => apply andb_prop in H; destruct H
         | H : _ || _ = true |- _ => apply orb_prop in H; destruct H
         | H : forallb _ _ = true |- _ => simpl in H
         | H : (?c =? padChar) = true |- _ => apply Z.eqb_eq in H; subst c
         end;
  rewrite ?readQuantum_symbol by assumption; eexists; reflexivity.
Qed.

Lemma wellFormedBase32_cases (s : list Z) :
  wellFormedBase32 s = true ->
  s = []
  \/ exists c0 c1 c2 c3 c4 c5 c6 c7 rest,
       s = c0 :: c1 :: c2 :: c3 :: c4 :: c5 :: c6 :: c7 :: rest
       /\ (forallb inAlphabet [c0; c1; c2; c3; c4; c5; c6; c7] = true
           /\ wellFormedBase32 rest = true
           \/ rest = [] /\ paddedGroup c0 c1 c2 c3 c4 c5 c6 c7 = true).
Proof.
  intros H.
  destruct s as [|c0 [|c1 [|c2 [|c3 [|c4 [|c5 [|c6 [|c7 rest]]]]]]]];
    try discriminate; [left; reflexivity|].
  right. exists c0, c1, c2, c3, c4, c5, c6, c7, rest. split; [reflexivity|].
  cbn [wellFormedBase32] in H.
  destruct (forallb inAlphabet [c0; c1; c2; c3; c4; c5; c6; c7]).
  - left. auto.
  - right. destruct rest; [auto|discriminate].
Qed.

(** Induction over the groups of a well-formed string. *)
Lemma wellFormedBase32_ind (P : list Z -> Prop) :
  P [] ->
  (forall c0 c1 c2 c3 c4 c5 c6 c7 rest,
     forallb inAlphabet [c0; c1; c2; c3; c4; c5; c6; c7] = true ->
     wellFormedBase32 rest = true -> P rest ->
     P (c0 :: c1 :: c2 :: c3 :: c4 :: c5 :: c6 :: c7 :: rest)) ->
  (forall c0 c1 c2 c3 c4 c5 c6 c7,
     paddedGroup c0 c1 c2 c3 c4 c5 c6 c7 = true ->
     P [c0; c1; c2; c3; c4; c5; c6; c7]) ->
  forall s, wellFormedBase32 s = true -> P s.
Proof.
  intros Hnil Hfull Hpad s.
  remember (length s) as n eqn:Hn. revert s Hn.
  induction n as [n IH] using lt_wf_ind. intros s Hn Hwf.
  destruct (wellFormedBase32_cases s Hwf)
    as [->|(c0 & c1 & c2 & c3 & c4 & c5 & c6 & c7 & rest & -> & Hc)]; [exact Hnil|].
  destruct Hc as [[Hal Hrest]|[-> Hp]].
  - apply Hfull; [exact Hal|exact Hrest|].
    apply (IH (length rest)); [subst n; simpl; lia|reflexivity|exact Hrest].
  - now apply Hpad.
Qed.

Lemma paddedGroup_bytes c0 c1 c2 c3 c4 c5 c6 c7 :
  paddedGroup c0 c1 c2 c3 c4 c5 c6 c7 = true ->
  forallb isBase32Byte [c0; c1; c2; c3; c4; c5; c6; c7] = true.
Proof.
  unfold paddedGroup, isBase32Byte. simpl.
  destruct (inAlphabet c0), (inAlphabet c1), (inAlphabet c2), (inAlphabet c3),
    (inAlphabet c4), (inAlphabet c5), (inAlphabet c6), (inAlphabet c7),
    (isPad c2), (isPad c3), (isPad c4), (isPad c5), (isPad c6), (isPad c7);
    simpl; intros H; try discriminate H; reflexivity.
Qed.

Lemma wellFormedBase32_bytes (s : list Z) :
  wellFormedBase32 s = true -> forallb isBase32Byte s = true.
Proof.
  revert s. apply wellFormedBase32_ind.
  - reflexivity.
  - intros c0 c1 c2 c3 c4 c5 c6 c7 rest H _ IH.
    change (forallb isBase32Byte ([c0; c1; c2; c3; c4; c5; c6; c7] ++ rest) = true).
    rewrite forallb_app, IH, andb_true_r.
    revert H. unfold isBase32Byte. simpl.
    destruct (inAlphabet c0), (inAlphabet c1), (inAlphabet c2), (inAlphabet c3),
      (inAlphabet c4), (inAlphabet c5), (inAlphabet c6), (inAlphabet c7);
      simpl; intros H; try discriminate H; reflexivity.
  - intros. now apply paddedGroup_bytes.
Qed.

Lemma wellFormedBase32_length (s : list Z) :
  wellFormedBase32 s = true -> (length s mod 8 = 0)%nat.
Proof.
  revert s. apply wellFormedBase32_ind; [reflexivity| |reflexivity].
  intros c0 c1 c2 c3 c4 c5 c6 c7 rest _ _ IH.
  change (length (c0 :: c1 :: c2 :: c3 :: c4 :: c5 :: c6 :: c7 :: rest))
    with (8 + length rest)%nat.
  rewrite <- Nat.Div0.add_mod_idemp_r, IH. reflexivity.
Qed.

Lemma decodeLoop_wellFormed (olen : Z) (s : list Z) :
  wellFormedBase32 s = true ->
  forall fuel, (length s < fuel)%nat -> exists out, decodeLoop fuel olen s = Ok out.
Proof.
  revert s. apply (wellFormedBase32_ind (fun s =>
    forall fuel, (length s < fuel)%nat -> exists out, decodeLoop fuel olen s = Ok out)).
  - intros fuel _. exists []. destruct fuel; reflexivity.
  - intros c0 c1 c2 c3 c4 c5 c6 c7 rest H _ IH fuel Hfuel.
    destruct fuel as [|fuel]; [simpl in Hfuel; lia|].
    cbn [decodeLoop]. rewrite readQuantum_full by assumption.
    destruct (IH fuel) as [out Hout]; [simpl in Hfuel; lia|].
    rewrite Hout. eexists. reflexivity.
  - intros c0 c1 c2 c3 c4 c5 c6 c7 H fuel Hfuel.
    destruct fuel as [|fuel]; [simpl in Hfuel; lia|].
    cbn [decodeLoop].
    destruct (readQuantum_padded olen _ _ _ _ _ _ _ _ H) as [dbuf ->].
    eexists. reflexivity.
Qed.

(** *** Trimming white space

    The facts hold for the trimming from the left and, on the reversed
    bytes, from the right. *)
Section TrimFuncFacts.

Variable p1 : Z -> bool.

Variable p2 : Z -> Z -> bool.

Variable p3 : Z -> Z -> Z -> bool.

Lemma trimRunes_unfold (s : list Z) :
  trimRunes p1 p2 p3 s = s /\ startsWithRune p1 p2 p3 s = false
  \/ startsWithRune p1 p2 p3 s = true
     /\ exists p r, s = p ++ r /\ p <> [] /\ trimRunes p1 p2 p3 s = trimRunes p1 p2 p3 r.
Proof.
  destruct s as [|b0 r0]; [left; split; reflexivity|].
  cbn [trimRunes startsWithRune].
  destruct (p1 b0) eqn:H1.
  { right. split; [reflexivity|]. exists [b0], r0. repeat split. discriminate. }
  destruct r0 as [|b1 r1]; [left; split; reflexivity|].
  destruct (p2 b0 b1) eqn:H2.
  { right. split; [reflexivity|]. exists [b0; b1], r1. repeat split. discriminate. }
  destruct r1 as [|b2 r2]; [left; split; reflexivity|].
  destruct (p3 b0 b1 b2) eqn:H3.
  { right. split; [reflexivity|]. exists [b0; b1; b2], r2. repeat split. discriminate. }
  left. split; reflexivity.
Qed.

(** What is left does not begin with a rune to trim, and is a suffix. *)
Lemma trimRunes_spec (s : list Z) :
  startsWithRune p1 p2 p3 (trimRunes p1 p2 p3 s) = false
  /\ exists p, s = p ++ trimRunes p1 p2 p3 s.
Proof.
  remember (length s) as n eqn:Hn. revert s Hn.
  induction n as [n IH] using lt_wf_ind. intros s Hn.
  destruct (trimRunes_unfold s) as [[Heq Hst]|[_ (p & r & -> & Hp & Heq)]].
  - rewrite Heq. split; [exact Hst|]. exists []. reflexivity.
  - rewrite Heq.
    destruct (IH (length r)) with (s := r) as [Hst [q Hq]]; [|reflexivity|].
    { subst n. rewrite length_app. destruct p; [congruence|simpl; lia]. }
    split; [exact Hst|]. exists (p ++ q). rewrite <- app_assoc. congruence.
Qed.

Lemma trimRunes_fixed (s : list Z) :
  startsWithRune p1 p2 p3 s = false -> trimRunes p1 p2 p3 s = s.
Proof.
  intros H. destruct (trimRunes_unfold s) as [[Heq _]|[Hst _]]; congruence.
Qed.

(** A string begins with a rune to trim as soon as one of its prefixes does. *)
Lemma startsWithRune_prefix (p r : list Z) :
  startsWithRune p1 p2 p3 p = true -> startsWithRune p1 p2 p3 (p ++ r) = true.
Proof.
  destruct p as [|b0 [|b1 [|b2 p]]]; cbn [startsWithRune app]; try discriminate.
  - rewrite !orb_false_r. intros ->. reflexivity.
  - rewrite !orb_false_r. intros H. apply orb_prop in H. destruct H as [->| ->].
    + reflexivity.
    + now rewrite orb_true_r.
  - auto.
Qed.

End TrimFuncFacts.

Lemma rev_trimRightSpace (s : list Z) :
  rev (trimRightSpace s) = trimLeftSpaceRev (rev s).
Proof. unfold trimRightSpace. apply rev_involutive. Qed.

(** What [strings.TrimSpace] returns has no white space at either end. *)
Lemma trimSpace_no_space (s : list Z) :
  let t := trimRightSpace (trimLeftSpace s) in
  leadingSpace t = false /\ trailingSpace t = false.
Proof.
  cbn zeta. split.
  - destruct (trimRunes_spec space1 space2 space3 s) as [Hst _].
    fold (trimLeftSpace s) in Hst. fold leadingSpace in Hst.
    set (x := trimLeftSpace s) in *.
    destruct (trimRunes_spec space1 (fun b0 b1 => space2 b1 b0)
                (fun b0 b1 b2 => space3 b2 b1 b0) (rev x)) as [_ [q Hq]].
    fold (trimLeftSpaceRev (rev x)) in Hq.
    apply (f_equal (@rev Z)) in Hq. rewrite rev_involutive, rev_app_distr in Hq.
    fold (trimRightSpace x) in Hq.
    destruct (leadingSpace (trimRightSpace x)) eqn:Hl; [|reflexivity].
    apply (startsWithRune_prefix _ _ _ _ (rev q)) in Hl.
    rewrite <- Hq in Hl. unfold leadingSpace in Hst. congruence.
  - unfold trailingSpace. rewrite rev_trimRightSpace.
    apply trimRunes_spec.
Qed.

Lemma space2_not_space1 b0 b1 : space2 b0 b1 = true -> space1 b0 = false.
Proof. unfold space1, space2. lia. Qed.

Lemma space3_not_space12 b0 b1 b2 :
  space3 b0 b1 b2 = true -> space1 b0 = false /\ space2 b0 b1 = false.
Proof. unfold space1, space2, space3. lia. Qed.

Lemma space2_not_space1_rev b0 b1 : space2 b0 b1 = true -> space1 b1 = false.
Proof. unfold space1, space2. lia. Qed.

Lemma space3_not_space12_rev b0 b1 b2 :
  space3 b0 b1 b2 = true -> space1 b2 = false /\ space2 b1 b2 = false.
Proof. unfold space1, space2, space3. lia. Qed.

Lemma trimLeftSpace_SpaceSeq (ws s : list Z) :
  SpaceSeq ws -> trimLeftSpace (ws ++ s) = trimLeftSpace s.
Proof.
  unfold trimLeftSpace.
  induction 1 as [|b0 r H1 _ IH|b0 b1 r H2 _ IH|b0 b1 b2 r H3 _ IH];
    cbn [app trimRunes]; [reflexivity| | |].
  - now rewrite H1.
  - now rewrite (space2_not_space1 b0 b1 H2), H2.
  - destruct (space3_not_space12 b0 b1 b2 H3) as [-> ->]. now rewrite H3.
Qed.

Lemma trimLeftSpaceRev_SpaceSeq (ws : list Z) :
  SpaceSeq ws -> forall s, trimLeftSpaceRev (rev ws ++ s) = trimLeftSpaceRev s.
Proof.
  unfold trimLeftSpaceRev.
  induction 1 as [|b0 r H1 _ IH|b0 b1 r H2 _ IH|b0 b1 b2 r H3 _ IH]; intros s;
    cbn [rev]; rewrite <- ?app_assoc; [reflexivity| | |]; rewrite IH;
    cbn [app trimRunes].
  - now rewrite H1.
  - now rewrite (space2_not_space1_rev b0 b1 H2), H2.
  - destruct (space3_not_space12_rev b0 b1 b2 H3) as [-> ->]. now rewrite H3.
Qed.

(** Trimming takes the white space around a string off when the string
    itself has none at its ends. *)
Lemma trimSpace_surrounded (ws1 s ws2 : list Z) :
  SpaceSeq ws1 -> SpaceSeq ws2 ->
  leadingSpace (s ++ ws2) = false -> trailingSpace s = false ->
  trimRightSpace (trimLeftSpace (ws1 ++ s ++ ws2)) = s.
Proof.
  intros H1 H2 Hl Ht.
  rewrite trimLeftSpace_SpaceSeq by exact H1.
  unfold trimLeftSpace. rewrite trimRunes_fixed by exact Hl.
  unfold trimRightSpace. rewrite rev_app_distr.
  rewrite trimLeftSpaceRev_SpaceSeq by exact H2.
  unfold trimLeftSpaceRev. rewrite trimRunes_fixed by exact Ht.
  apply rev_involutive.
Qed.

Lemma isBase32Byte_range (c : Z) :
  isBase32Byte c = true -> 65 <= c <= 90 \/ 50 <= c <= 55 \/ c = 61.
Proof. unfold isBase32Byte, inAlphabet, isPad, padChar. lia. Qed.

Lemma leadingSpace_base32 (b : Z) (r : list Z) :
  isBase32Byte b = true -> leadingSpace (b :: r) = false.
Proof.
  intros Hb. apply isBase32Byte_range in Hb.
  unfold leadingSpace. cbn [startsWithRune].
  assert (space1 b = false) as -> by (unfold space1; lia).
  destruct r as [|b1 r]; [reflexivity|].
  assert (space2 b b1 = false) as -> by (unfold space2; lia).
  destruct r as [|b2 r]; [reflexivity|].
  unfold space3. lia.
Qed.

Lemma leadingSpaceRev_base32 (b : Z) (r : list Z) :
  isBase32Byte b = true -> leadingSpaceRev (b :: r) = false.
Proof.
  intros Hb. apply isBase32Byte_range in Hb.
  unfold leadingSpaceRev. cbn [startsWithRune].
  assert (space1 b = false) as -> by (unfold space1; lia).
  destruct r as [|b1 r]; [reflexivity|].
  assert (space2 b1 b = false) as -> by (unfold space2; lia).
  destruct r as [|b2 r]; [reflexivity|].
  unfold space3. lia.
Qed.

Lemma base32_trailingSpace (s : list Z) :
  forallb isBase32Byte s = true -> trailingSpace s = false.
Proof.
  intros Hs. unfold trailingSpace.
  destruct (rev s) as [|b r] eqn:Hr; [reflexivity|].
  apply leadingSpaceRev_base32.
  rewrite forallb_forall in Hs. apply Hs.
  apply in_rev. rewrite Hr. now left.
Qed.

Lemma base32_leadingSpace (s ws : list Z) :
  forallb isBase32Byte s = true -> s <> [] -> leadingSpace (s ++ ws) = false.
Proof.
  intros Hs Hne. destruct s as [|b r]; [congruence|].
  simpl in Hs. apply andb_prop in Hs. now apply leadingSpace_base32.
Qed.

Lemma base32_upper (s : list Z) :
  forallb isBase32Byte s = true -> map upperByte s = s.
Proof.
  induction s as [|b s IH]; [reflexivity|]. simpl. intros H.
  apply andb_prop in H. destruct H as [Hb Hs].
  rewrite IH by exact Hs. f_equal.
  apply isBase32Byte_range in Hb. unfold upperByte.
  destruct ((97 <=? b) && (b <=? 122)) eqn:E; [lia|reflexivity].
Qed.

Lemma base32_stripNewlines (s : list Z) :
  forallb isBase32Byte s = true -> stripNewlines s = s.
Proof.
  unfold stripNewlines.
  induction s as [|b s IH]; [reflexivity|]. simpl. intros H.
  apply andb_prop in H. destruct H as [Hb Hs].
  apply isBase32Byte_range in Hb.
  assert (negb ((b =? 13) || (b =? 10)) = true) as Hk by lia.
  rewrite filter_cons. destruct (decide _) as [_|Hn].
  - f_equal. now apply IH.
  - exfalso. apply Hn. now rewrite Hk.
Qed.

Lemma trimSpace_base32 (s : string) :
  forallb isBase32Byte (bytes_of_string s) = true -> strings_TrimSpace s = s.
Proof.
  intros Hs. unfold strings_TrimSpace.
  destruct (bytes_of_string s) as [|b r] eqn:Hb.
  - apply bytes_of_string_inj. rewrite Hb. reflexivity.
  - rewrite <- Hb in *.
    pose proof (trimSpace_surrounded [] (bytes_of_string s) []
                  SpaceSeq_nil SpaceSeq_nil) as H.
    rewrite app_nil_r in H. cbn [app] in H.
    rewrite H; [apply string_of_bytes_of_string| |].
    + rewrite <- (app_nil_r (bytes_of_string s)).
      apply base32_leadingSpace; [exact Hs|]. rewrite Hb. discriminate.
    + now apply base32_trailingSpace.
Qed.

Lemma hotp_padSecret_whole (s : string) :
  (String.length s mod 8 = 0)%nat -> hotp_padSecret s = s.
Proof. intros H. unfold hotp_padSecret. now rewrite H. Qed.

(** A secret in the canonical form of RFC 4648 is decoded, and the
    generation gives a code. *)
Lemma base32_DecodeString_wellFormed (s : string) :
  wellFormedBase32 (bytes_of_string s) = true ->
  exists bs, base32_DecodeString s = Ok bs.
Proof.
  intros Hwf. unfold base32_DecodeString.
  rewrite base32_stripNewlines by now apply wellFormedBase32_bytes.
  apply decodeLoop_wellFormed; [exact Hwf|lia].
Qed.

Lemma hotp_wellFormed (s : string) (counter : Z) :
  wellFormedBase32 (bytes_of_string s) = true ->
  exists code, hotp_GenerateCodeCustom s counter = Ok code.
Proof.
  intros Hwf. pose proof (wellFormedBase32_bytes _ Hwf) as Hb.
  unfold hotp_GenerateCodeCustom.
  rewrite trimSpace_base32 by exact Hb.
  rewrite hotp_padSecret_whole
    by (rewrite <- bytes_of_string_length; now apply wellFormedBase32_length).
  unfold strings_ToUpper. rewrite base32_upper by exact Hb.
  rewrite string_of_bytes_of_string.
  destruct (base32_DecodeString_wellFormed s Hwf) as [bs ->].
  eexists. reflexivity.
Qed.

(** What a selection leaves in the session, case by case. *)
Lemma selectProvider_cases (index : Z) (tGen tShow : Time) (st st1 : Session) :
  selectProvider index tGen tShow st = Done st1 ->
  providers st1 = providers st
  /\ selectedProviderIndex st1 = index
  /\ ((providers st = [] \/ index = -1) /\ currentOTP st1 = ""
      \/ exists provider,
           sliceIndex (providers st) index = Some provider
           /\ (providers st <> [] /\ index <> -1)
           /\ match generateTOTP (Secret provider) tGen with
              | Ok otp => currentOTP st1 = otp
              | Err _ => currentOTP st1 = ""
              end).
Proof.
  unfold selectProvider, generateAndDisplayOTP.
  cbn [providers selectedProviderIndex setSelected].
  destruct ((lenZ (providers st) =? 0) || (index =? -1)) eqn:Hc.
  - intros [= <-]. cbn. repeat split. left. split; [|reflexivity].
    apply orb_prop in Hc. destruct Hc as [Hc|Hc]; [left|right; lia].
    unfold lenZ in Hc. destruct (providers st); [reflexivity|simpl in Hc; lia].
  - apply orb_false_elim in Hc. destruct Hc as [Hlen Hidx].
    destruct (sliceIndex (providers st) index) as [provider|] eqn:Hp; [|discriminate].
    assert (providers st <> [] /\ index <> -1) as Hne.
    { split; [|lia]. intros E. rewrite E in Hlen. discriminate. }
    destruct (generateTOTP (Secret provider) tGen) as [otp|err] eqn:Hg.
    + intros [= <-].
      destruct (updateCountdown_frame tShow
                  (setCurrent otp (Name provider) (logAttempt index true (setSelected index st))))
        as (-> & _ & _ & -> & _ & -> & _).
      cbn. repeat split. right. exists provider. rewrite Hg. auto.
    + intros [= <-]. cbn. repeat split. right. exists provider. rewrite Hg. auto.
Qed.

Lemma selectProvider_runs (index : Z) (tGen tShow : Time) (st : Session) :
  (providers st = [] \/ index = -1) \/ 0 <= index < lenZ (providers st) ->
  exists st1, selectProvider index tGen tShow st = Done st1.
Proof.
  intros H. unfold selectProvider, generateAndDisplayOTP.
  cbn [providers selectedProviderIndex setSelected].
  destruct ((lenZ (providers st) =? 0) || (index =? -1)) eqn:Hc; [eexists; reflexivity|].
  apply orb_false_elim in Hc. destruct Hc as [Hlen Hidx].
  destruct H as [[H|H]|H]; [rewrite H in Hlen; discriminate|lia|].
  destruct (sliceIndex_Some _ _ H) as (provider & -> & _).
  destruct (generateTOTP (Secret provider) tGen); eexists; reflexivity.
Qed.

Lemma sliceIndex_range {A} (l : list A) (i : Z) (x : A) :
  sliceIndex l i = Some x -> 0 <= i < lenZ l.
Proof.
  unfold sliceIndex.
  destruct (i <? 0) eqn:H0; [discriminate|].
  destruct (lenZ l <=? i) eqn:H1; [discriminate|]. lia.
Qed.

(** Selecting the same index again within the window gives the same code. *)
Lemma selectProvider_twice (index : Z) (t1 t2 tShow1 tShow2 : Time) (st st1 : Session) :
  sameWindow t1 t2 ->
  selectProvider index t1 tShow1 st = Done st1 ->
  exists st2,
    selectProvider index t2 tShow2 st1 = Done st2 /\ currentOTP st2 = currentOTP st1.
Proof.
  intros Hw H1.
  destruct (selectProvider_cases _ _ _ _ _ H1) as (Hp & _ & Hc).
  assert (exists st2, selectProvider index t2 tShow2 st1 = Done st2) as [st2 H2].
  { apply selectProvider_runs. rewrite Hp.
    destruct Hc as [[Hc _]|(provider & Hs & _)]; [left; exact Hc|right].
    now apply sliceIndex_range in Hs. }
  exists st2. split; [exact H2|].
  destruct (selectProvider_cases _ _ _ _ _ H2) as (_ & _ & Hc2).
  rewrite Hp in Hc2.
  destruct Hc as [[Hc E1]|(provider & Hs & Hne & Hg)];
    destruct Hc2 as [[Hc2 E2]|(provider2 & Hs2 & Hne2 & Hg2)].
  - congruence.
  - destruct Hne2 as [Ha Hb]. destruct Hc; contradiction.
  - destruct Hne as [Ha Hb]. destruct Hc2; contradiction.
  - rewrite Hs in Hs2. injection Hs2 as <-.
    rewrite <- (generateTOTP_sameWindow _ t1 t2 Hw) in Hg2.
    destruct (generateTOTP (Secret provider) t1); congruence.
Qed.

(** C3: for every valid base32 secret and any two instants of one 30-second
    window aligned to the epoch, generateTOTP returns the same code of six
    digits at both; and selecting an index twice in a row within one window
    leaves the same currentOTP both times. *)
Theorem generateTOTP_window (t1 t2 : Time) :
  sameWindow t1 t2 ->
  (forall s : string,
      validSecret s = true ->
      exists code,
        generateTOTP s t1 = Ok code /\ generateTOTP s t2 = Ok code
        /\ isSixDigits code = true)
  /\ (forall (index : Z) (tShow1 tShow2 : Time) (st st1 : Session),
         selectProvider index t1 tShow1 st = Done st1 ->
         exists st2,
           selectProvider index t2 tShow2 st1 = Done st2
           /\ currentOTP st2 = currentOTP st1).
Proof.
  intros Hw. split.
  - intros s Hs. unfold validSecret in Hs. apply andb_prop in Hs.
    destruct Hs as [_ Hwf].
    destruct (hotp_wellFormed s (totp_counter t1) Hwf) as [code Hc].
    exists code.
    assert (generateTOTP s t1 = Ok code) as H1.
    { rewrite generateTOTP_eq. exact Hc. }
    split; [exact H1|]. split.
    + rewrite <- (generateTOTP_sameWindow s t1 t2 Hw). exact H1.
    + apply (generateTOTP_six_digits s t1). exact H1.
  - intros index tShow1 tShow2 st st1. now apply selectProvider_twice.
Qed.

Lemma sameWindow_example : sameWindow (mkTime 1111111111 0) (mkTime 1111111139 3600).
Proof. exists 37037037. cbn. lia. Qed.

(** The secret of the specification's scenario at two instants of the window
    that begins at 1111111110. *)
Lemma generateTOTP_window_witness :
  sameWindow (mkTime 1111111111 0) (mkTime 1111111139 3600)
  /\ validSecret "JBSWY3DPEHPK3PXP" = true
  /\ exists code,
       generateTOTP "JBSWY3DPEHPK3PXP" (mkTime 1111111111 0) = Ok code
       /\ generateTOTP "JBSWY3DPEHPK3PXP" (mkTime 1111111139 3600) = Ok code
       /\ isSixDigits code = true.
Proof.
  split; [exact sameWindow_example|]. split; [reflexivity|].
  apply (generateTOTP_window _ _ sameWindow_example). reflexivity.
Defined.

(** ** Reading a secret from a file (main.go, lines 40-68) *)

Lemma trimRunes_Forall (P : Z -> Prop) p1 p2 p3 (s : list Z) :
  Forall P s -> Forall P (trimRunes p1 p2 p3 s).
Proof.
  intros H. destruct (trimRunes_spec p1 p2 p3 s) as [_ [p Hp]].
  rewrite Hp in H. now apply Forall_app in H.
Qed.

Lemma bytes_of_TrimSpace (s : string) :
  bytes_of_string (strings_TrimSpace s)
  = trimRightSpace (trimLeftSpace (bytes_of_string s)).
Proof.
  unfold strings_TrimSpace. apply bytes_of_string_of_bytes.
  unfold trimRightSpace, trimLeftSpaceRev, trimLeftSpace.
  apply Forall_rev, trimRunes_Forall, Forall_rev, trimRunes_Forall,
    bytes_of_string_range.
Qed.

Lemma TrimSpace_no_space (s : string) :
  leadingSpace (bytes_of_string (strings_TrimSpace s)) = false
  /\ trailingSpace (bytes_of_string (strings_TrimSpace s)) = false.
Proof. rewrite bytes_of_TrimSpace. apply trimSpace_no_space. Qed.

Lemma TrimSpace_surrounded (data secret : string) (ws1 ws2 : list Z) :
  SpaceSeq ws1 -> SpaceSeq ws2 -> validSecret secret = true ->
  bytes_of_string data = ws1 ++ bytes_of_string secret ++ ws2 ->
  strings_TrimSpace data = secret.
Proof.
  intros H1 H2 Hv Hd. unfold validSecret in Hv.
  apply andb_prop in Hv. destruct Hv as [Hne Hwf].
  pose proof (wellFormedBase32_bytes _ Hwf) as Hb.
  unfold strings_TrimSpace. rewrite Hd.
  rewrite trimSpace_surrounded; [apply string_of_bytes_of_string|assumption..| |].
  - apply base32_leadingSpace; [exact Hb|].
    intros E. destruct secret; [discriminate Hne|discriminate E].
  - now apply base32_trailingSpace.
Qed.

Section SecretFileFacts.

Variable strings_ToLower : string -> string.

Lemma readSecretFromFile_text (fs : FS) (filePath data : string) :
  strings_ToLower (filepath_Ext filePath) = ".txt"
  \/ strings_ToLower (filepath_Ext filePath) = ".key" ->
  fs !! filePath = Some (NFile data) ->
  readSecretFromFile strings_ToLower fs filePath
  = match base32_DecodeString (strings_TrimSpace data) with
    | Err err => Err ("invalid base32 string in file: " +:+ err)
    | Ok _ => Ok (strings_TrimSpace data)
    end.
Proof.
  intros Hext Hfs. unfold readSecretFromFile, os_ReadFile. rewrite Hfs.
  destruct Hext as [-> | ->]; reflexivity.
Qed.

(** C10: for a file with extension .txt or .key (in any case of the
    letters), readSecretFromFile validates the content with the white space
    around it stripped: when the content is a valid base32 secret between
    white space, the secret is returned without it; and whatever secret is
    returned is the trimmed content and has no white space at either end. *)
Theorem readSecretFromFile_trims (fs : FS) (filePath data : string) :
  strings_ToLower (filepath_Ext filePath) = ".txt"
  \/ strings_ToLower (filepath_Ext filePath) = ".key" ->
  fs !! filePath = Some (NFile data) ->
  (forall (ws1 ws2 : list Z) (secret : string),
      SpaceSeq ws1 -> SpaceSeq ws2 -> validSecret secret = true ->
      bytes_of_string data = ws1 ++ bytes_of_string secret ++ ws2 ->
      readSecretFromFile strings_ToLower fs filePath = Ok secret)
  /\ (forall secret : string,
         readSecretFromFile strings_ToLower fs filePath = Ok secret ->
         secret = strings_TrimSpace data
         /\ is_ok (base32_DecodeString secret) = true
         /\ leadingSpace (bytes_of_string secret) = false
         /\ trailingSpace (bytes_of_string secret) = false).
Proof.
  intros Hext Hfs. rewrite (readSecretFromFile_text fs filePath data Hext Hfs).
  split.
  - intros ws1 ws2 secret H1 H2 Hv Hd.
    rewrite (TrimSpace_surrounded data secret ws1 ws2 H1 H2 Hv Hd).
    unfold validSecret in Hv. apply andb_prop in Hv. destruct Hv as [_ Hwf].
    now destruct (base32_DecodeString_wellFormed secret Hwf) as [bs ->].
  - intros secret.
    destruct (base32_DecodeString (strings_TrimSpace data)) as [bs|err] eqn:Hdec;
      [|discriminate].
    intros [= <-]. split; [reflexivity|]. rewrite Hdec.
    split; [reflexivity|]. apply TrimSpace_no_space.
Qed.

End SecretFileFacts.

Lemma readSecretFromFile_trims_witness :
  readSecretFromFile asciiToLower (<["keys/work.KEY" := NFile keyFileContent]> ∅)
    "keys/work.KEY" = Ok "JBSWY3DPEHPK3PXP".
Proof.
  refine (proj1 (readSecretFromFile_trims asciiToLower
                   (<["keys/work.KEY" := NFile keyFileContent]> ∅)
                   "keys/work.KEY" keyFileContent _ _) [32; 32] [10; 194; 160]
                "JBSWY3DPEHPK3PXP" _ _ _ _).
  - right. reflexivity.
  - reflexivity.
  - repeat (apply SpaceSeq_1; [reflexivity|]). apply SpaceSeq_nil.
  - apply SpaceSeq_1; [reflexivity|]. apply SpaceSeq_2; [reflexivity|]. apply SpaceSeq_nil.
  - reflexivity.
  - reflexivity.
Defined.

(** ** The session invariant (main.go, lines 161-195, 266-327 and 364-393) *)

Section SessionFacts.

Variable filepath_Dir : string -> string.

Lemma generateAndDisplayOTP_good (tGen tShow : Time) (st st' : Session) :
  selectedProviderIndex st = -1 \/ validIndex st ->
  namesOk (providers st) ->
  length (providerList st) = length (providers st) ->
  generateAndDisplayOTP tGen tShow st = Done st' -> good st'.
Proof.
  intros Hwf Hnames Hlen. unfold generateAndDisplayOTP.
  destruct ((lenZ (providers st) =? 0) || (selectedProviderIndex st =? -1)) eqn:Hc.
  - intros [= <-]. unfold good, invariant, validIndex, present. cbn.
    assert (selectedProviderIndex st = -1) as Hsel.
    { destruct Hwf as [H|H]; [exact H|]. unfold validIndex in H. lia. }
    repeat split; try tauto; try lia; now left.
  - apply orb_false_elim in Hc. destruct Hc as [Hl Hi].
    destruct Hwf as [Hwf|Hwf]; [lia|].
    destruct (sliceIndex_Some _ _ Hwf) as (provider & -> & Hlk).
    assert (Name provider <> "") as Hname.
    { unfold namesOk in Hnames. rewrite Forall_forall in Hnames.
      apply Hnames. eapply list_elem_of_lookup_2. exact Hlk. }
    destruct (generateTOTP (Secret provider) tGen) as [otp|err] eqn:Hg.
    + intros [= <-].
      pose proof (isSixDigits_nonempty _ (generateTOTP_six_digits _ _ _ Hg)) as Hotp.
      set (st1 := setCurrent otp (Name provider)
                    (logAttempt (selectedProviderIndex st) true st)).
      destruct (updateCountdown_frame tShow st1) as (E1 & E2 & E3 & E4 & E5 & E6 & _).
      unfold good, invariant, validIndex, lastAttemptOk, present.
      rewrite E1, E2, E3, E4, E5, E6. subst st1. cbn.
      repeat split; auto; try tauto; try apply Hwf; try (right; exact Hwf).
    + intros [= <-]. unfold good, invariant, validIndex, lastAttemptOk, present. cbn.
      repeat split; auto; try tauto; try congruence.
      intros (_ & _ & H). discriminate.
Qed.

Lemma generateAndDisplayOTP_runs (tGen tShow : Time) (st : Session) :
  selectedProviderIndex st = -1 \/ validIndex st ->
  exists st', generateAndDisplayOTP tGen tShow st = Done st'.
Proof.
  intros Hwf. unfold generateAndDisplayOTP.
  destruct ((lenZ (providers st) =? 0) || (selectedProviderIndex st =? -1)) eqn:Hc;
    [eexists; reflexivity|].
  apply orb_false_elim in Hc. destruct Hc as [Hl Hi].
  destruct Hwf as [Hwf|Hwf]; [lia|].
  destruct (sliceIndex_Some _ _ Hwf) as (provider & -> & _).
  destruct (generateTOTP (Secret provider) tGen); eexists; reflexivity.
Qed.

Lemma good_frame (st st' : Session) :
  good st ->
  currentOTP st' = currentOTP st ->
  currentProvider st' = currentProvider st ->
  attempts st' = attempts st ->
  selectedProviderIndex st' = selectedProviderIndex st ->
  providers st' = providers st ->
  providerList st' = providerList st ->
  good st'.
Proof.
  unfold good, invariant, validIndex, lastAttemptOk.
  intros H -> -> -> -> -> ->. exact H.
Qed.

Lemma good_grow (st st' : Session) (p : Provider) (item : string) :
  good st ->
  currentOTP st' = currentOTP st ->
  currentProvider st' = currentProvider st ->
  attempts st' = attempts st ->
  selectedProviderIndex st' = selectedProviderIndex st ->
  providers st' = providers st ++ [p] ->
  providerList st' = providerList st ++ [item] ->
  Name p <> "" ->
  good st'.
Proof.
  unfold good, invariant, validIndex, lastAttemptOk, namesOk, lenZ.
  intros ((Ha & Hb) & Hwf & Hnames & Hlen) -> -> -> -> -> -> Hp.
  rewrite !length_app. cbn [length].
  split; [split; [exact Ha|]|split; [|split]].
  - rewrite Hb. destruct Hwf as [Hwf|Hwf];
      (split; intros [H1 H2]; (split; [|exact H2]); lia).
  - destruct Hwf as [Hwf|Hwf]; [now left|right; lia].
  - apply Forall_app. split; [exact Hnames|]. constructor; [exact Hp|constructor].
  - lia.
Qed.

Lemma step_good (e : event) (st st' : Session) :
  good st -> enabled e st -> step filepath_Dir e st = Done st' -> good st'.
Proof.
  intros Hgood Hen.
  pose proof Hgood as (Hinv & Hwf & Hnames & Hlen).
  destruct e as [index tGen tShow|tGen tShow|now|name secret tGen tShow];
    cbn [step enabled] in *.
  - unfold selectProvider. apply generateAndDisplayOTP_good; cbn.
    + right. unfold validIndex. cbn. unfold lenZ in *. lia.
    + exact Hnames.
    + exact Hlen.
  - unfold coarseTick.
    destruct ((0 <? lenZ (providers st)) && (0 <=? selectedProviderIndex st)).
    + now apply generateAndDisplayOTP_good.
    + now intros [= <-].
  - intros [= <-]. unfold fineTick.
    destruct (updateCountdown_frame now st) as (E1 & E2 & E3 & E4 & E5 & E6 & _).
    now apply (good_frame st).
  - unfold addProviderRequest, addProvider. cbn [formName formSecret setForm].
    destruct (String.eqb_spec name "") as [Hn|Hn].
    { intros [= <-]. now apply (good_frame st). }
    destruct (String.eqb_spec secret "") as [Hs|Hs].
    { intros [= <-]. now apply (good_frame st). }
    destruct (base32_DecodeString secret) as [bs|err].
    2:{ intros [= <-]. now apply (good_frame st). }
    set (st1 := appendProvider (mkProvider name secret) (setForm name secret st)).
    assert (namesOk (providers st1)) as Hnames1.
    { subst st1. cbn. apply Forall_app. split; [exact Hnames|].
      constructor; [exact Hn|constructor]. }
    assert (length (providerList st1) = length (providers st1)) as Hlen1.
    { subst st1. cbn. rewrite !length_app. cbn. lia. }
    assert (lenZ (providers st1) = lenZ (providers st) + 1) as Hgrow.
    { subst st1. cbn. unfold lenZ. rewrite length_app. cbn. lia. }
    destruct (saveProviders filepath_Dir (providers st1) ProvidersFilePath (disk st1))
      as [fs [err|]].
    + intros [= <-].
      apply (good_grow st _ (mkProvider name secret) name Hgood); try reflexivity.
      exact Hn.
    + apply generateAndDisplayOTP_good;
        cbn [selectedProviderIndex providers providerList
             setSelected setSaved setForm setCurrent setView].
      * right. unfold validIndex.
        cbn [selectedProviderIndex providers setSelected setSaved setForm setCurrent setView].
        unfold lenZ in *. lia.
      * exact Hnames1.
      * exact Hlen1.
Qed.

Lemma initialSession_good (fs0 : FS) :
  namesOk (providers (initialSession fs0)) -> good (initialSession fs0).
Proof.
  intros Hnames. unfold good, invariant, validIndex, lastAttemptOk, present.
  split; [|split; [now left|split; [exact Hnames|]]].
  - cbn. split; [tauto|]. split; [tauto|]. intros [H _]. lia.
  - cbn. apply length_map.
Qed.

Lemma reachable_good (fs0 : FS) (st : Session) :
  namesOk (providers (initialSession fs0)) -> reachable filepath_Dir fs0 st -> good st.
Proof.
  intros Hnames Hr. induction Hr as [|st st' e _ IH Hen Hstep].
  - now apply initialSession_good.
  - now apply (step_good e st).
Qed.

(** No enabled event panics in a state of a run. *)
Lemma step_runs (e : event) (st : Session) :
  good st -> enabled e st -> exists st', step filepath_Dir e st = Done st'.
Proof.
  intros (Hinv & Hwf & Hnames & Hlen) Hen.
  destruct e as [index tGen tShow|tGen tShow|now|name secret tGen tShow];
    cbn [step enabled] in *.
  - apply generateAndDisplayOTP_runs. right. unfold validIndex. cbn.
    unfold lenZ in *. lia.
  - unfold coarseTick.
    destruct ((0 <? lenZ (providers st)) && (0 <=? selectedProviderIndex st));
      [now apply generateAndDisplayOTP_runs|eexists; reflexivity].
  - eexists; reflexivity.
  - unfold addProviderRequest, addProvider. cbn [formName formSecret setForm].
    destruct (String.eqb name ""); [eexists; reflexivity|].
    destruct (String.eqb secret ""); [eexists; reflexivity|].
    destruct (base32_DecodeString secret); [|eexists; reflexivity].
    destruct (saveProviders _ _ _ _) as [fs [err|]]; [eexists; reflexivity|].
    apply generateAndDisplayOTP_runs. right. unfold validIndex. cbn.
    unfold lenZ. rewrite length_app. cbn. lia.
Qed.

(** The invariant of the session when every provider has a name: provided
    no provider of the loaded list has an empty name, after every operation
    on the session (select, coarse refresh, fine tick, add provider)
    currentOTP and currentProvider are both present or both absent, and they
    are present exactly when the selected index refers to a provider of the
    list and the last generation attempt was made for it and succeeded. *)
Theorem session_invariant (fs0 : FS) (st : Session) :
  namesOk (providers (initialSession fs0)) ->
  reachable filepath_Dir fs0 st ->
  invariant st.
Proof. intros Hnames Hr. now apply (reachable_good fs0 st Hnames Hr). Qed.

End SessionFacts.

(** A run that starts in an empty directory and adds the provider of the
    specification's scenario. *)
Lemma session_invariant_witness :
  exists st,
    step (fun _ => ".") (EvAddProvider "work" "JBSWY3DPEHPK3PXP" (mkTime 0 0) (mkTime 1 0))
      (initialSession ∅) = Done st
    /\ currentOTP st = "282760" /\ currentProvider st = "work"
    /\ invariant st.
Proof.
  eexists. split; [vm_compute; reflexivity|].
  split; [reflexivity|]. split; [reflexivity|].
  apply (session_invariant (fun _ => ".") ∅).
  - constructor.
  - apply (reach_step (fun _ => ".") ∅ (initialSession ∅) _
             (EvAddProvider "work" "JBSWY3DPEHPK3PXP" (mkTime 0 0) (mkTime 1 0))
             (reach_init _ _) I).
    vm_compute. reflexivity.
Defined.

(** C4: loadProviders does not check what it reads, although the button
    "Add Provider" refuses an empty name.  On a providers.json whose one
    entry has an empty name, selecting the entry generates a code:
    currentOTP is present while currentProvider is absent, and since
    updateCountdown returns at once when either is empty, the display keeps
    the welcome text and the code is never shown. *)
Theorem unnamed_provider_code_without_name :
  providers (initialSession unnamedProviderFile) = [mkProvider "" "JBSWY3DPEHPK3PXP"]
  /\ exists st,
       step (fun _ => ".") (EvSelect 0 (mkTime 0 0) (mkTime 0 0))
         (initialSession unnamedProviderFile) = Done st
       /\ selectedProviderIndex st = 0
       /\ attempts st = [(0, true)]
       /\ currentOTP st = "282760"
       /\ currentProvider st = ""
       /\ otpView st = welcomeText.
Proof.
  split; [vm_compute; reflexivity|].
  eexists. split; [vm_compute; reflexivity|]. repeat split.
Qed.

(** ** The display across the end of a window (main.go, lines 147-158 and
    364-393)

    The events of a run are taken one at a time and in the order they are
    given, each a callback of the event loop or a function queued with
    QueueUpdateDraw that runs as a whole. *)


(** ** The file picker's listing (filepicker.go, lines 24-91) *)

(** *** The order of strings *)

Lemma ascii_compare_cases (x y : ascii) :
  match Ascii.compare x y with
  | Eq => N_of_ascii x = N_of_ascii y
  | Lt => (N_of_ascii x < N_of_ascii y)%N
  | Gt => (N_of_ascii y < N_of_ascii x)%N
  end.
Proof.
  unfold Ascii.compare.
  destruct (N.compare_spec (N_of_ascii x) (N_of_ascii y)); assumption.
Qed.

Lemma string_leb_trans (a b c : string) :
  String.leb a b = true -> String.leb b c = true -> String.leb a c = true.
Proof.
  revert b c. induction a as [|x xs IH]; intros [|y ys] [|z zs];
    unfold String.leb; cbn [String.compare]; try (intros; reflexivity || discriminate).
  specialize (IH ys zs). unfold String.leb in IH.
  pose proof (ascii_compare_cases x y) as Hxy.
  pose proof (ascii_compare_cases y z) as Hyz.
  pose proof (ascii_compare_cases x z) as Hxz.
  destruct (Ascii.compare x y), (Ascii.compare y z), (Ascii.compare x z);
    try (intros; reflexivity || discriminate); try (exfalso; lia); try exact IH.
Qed.

Lemma string_ltb_leb (a b : string) : String.ltb a b = negb (String.leb b a).
Proof.
  unfold String.ltb, String.leb. rewrite (String.compare_antisym b a).
  now destruct (String.compare a b).
Qed.

(** *** The insertion sort *)

Section InsertionSort.

Context {A : Type}.

Variable less : A -> A -> bool.

Hypothesis less_asym : forall a b, less a b = true -> less b a = false.

Hypothesis notAfter_trans : forall a b c, notAfter less a b -> notAfter less b c -> notAfter less a c.

Lemma insertBack_perm (x : A) (prefix : list A) :
  Permutation (insertBack less x prefix) (x :: prefix).
Proof.
  induction prefix as [|y r IH]; cbn [insertBack]; [reflexivity|].
  destruct (less x y); [|reflexivity].
  rewrite IH. apply perm_swap.
Qed.

Lemma insertBack_sorted (x : A) (prefix : list A) :
  StronglySorted (fun hi lo => notAfter less lo hi) prefix ->
  StronglySorted (fun hi lo => notAfter less lo hi) (insertBack less x prefix).
Proof.
  induction 1 as [|y r Hr IH Hy]; cbn [insertBack].
  - constructor; constructor.
  - destruct (less x y) eqn:Hxy.
    + constructor; [exact IH|].
      rewrite Forall_forall in *. intros z Hz.
      apply list_elem_of_In in Hz.
      apply (Permutation_in _ (insertBack_perm x r)) in Hz.
      destruct Hz as [<-|Hz]; [now apply less_asym|].
      apply Hy. now apply list_elem_of_In.
    + constructor; [now constructor|].
      constructor; [exact Hxy|].
      rewrite Forall_forall in *. intros z Hz.
      apply (notAfter_trans z y x); [now apply Hy|exact Hxy].
Qed.

Lemma insertAll_perm (l prefix : list A) :
  Permutation (fold_left (fun p x => insertBack less x p) l prefix) (l ++ prefix).
Proof.
  revert prefix. induction l as [|x l IH]; intros prefix; cbn [fold_left app];
    [reflexivity|].
  rewrite IH, insertBack_perm. symmetry. apply Permutation_middle.
Qed.

Lemma insertAll_sorted (l prefix : list A) :
  StronglySorted (fun hi lo => notAfter less lo hi) prefix ->
  StronglySorted (fun hi lo => notAfter less lo hi)
    (fold_left (fun p x => insertBack less x p) l prefix).
Proof.
  revert prefix. induction l as [|x l IH]; intros prefix Hp; cbn [fold_left];
    [exact Hp|].
  apply IH. now apply insertBack_sorted.
Qed.

Lemma StronglySorted_rev (R : A -> A -> Prop) (l : list A) :
  StronglySorted (fun a b => R b a) l -> StronglySorted R (rev l).
Proof.
  induction 1 as [|x l Hl IH Hx]; cbn [rev]; [constructor|].
  apply StronglySorted_app_2; [|exact IH|constructor; constructor].
  intros a b Ha Hb. apply list_elem_of_singleton in Hb. subst b.
  rewrite Forall_forall in Hx. apply Hx.
  apply list_elem_of_In. apply in_rev. now apply list_elem_of_In.
Qed.

Lemma sort_Slice_perm (l : list A) : Permutation (sort_Slice less l) l.
Proof.
  unfold sort_Slice. rewrite <- Permutation_rev, insertAll_perm.
  now rewrite app_nil_r.
Qed.

Lemma sort_Slice_sorted (l : list A) : StronglySorted (notAfter less) (sort_Slice less l).
Proof.
  unfold sort_Slice. apply StronglySorted_rev, insertAll_sorted. constructor.
Qed.

End InsertionSort.

Lemma insertBack_app_last {A} (less : A -> A -> bool) (x p : A) (prefix : list A) :
  less x p = false ->
  insertBack less x (prefix ++ [p]) = insertBack less x prefix ++ [p].
Proof.
  intros Hx. induction prefix as [|y r IH]; cbn [insertBack app].
  - now rewrite Hx.
  - destruct (less x y); [now rewrite IH|reflexivity].
Qed.

(** An element that nothing is less than, and that stands first, stays
    first. *)
Lemma sort_Slice_first {A} (less : A -> A -> bool) (p : A) (l : list A) :
  Forall (fun x => less x p = false) l ->
  sort_Slice less (p :: l) = p :: sort_Slice less l.
Proof.
  intros Hl. unfold sort_Slice. cbn [fold_left insertBack].
  assert (forall prefix,
             fold_left (fun q x => insertBack less x q) l (prefix ++ [p])
             = fold_left (fun q x => insertBack less x q) l prefix ++ [p]) as H.
  { induction Hl as [|x l Hx _ IH]; intros prefix; cbn [fold_left]; [reflexivity|].
    rewrite insertBack_app_last by exact Hx. apply IH. }
  change [p] with ([] ++ [p]). rewrite (H []). now rewrite rev_app_distr.
Qed.

Lemma insertBack_ext {A} (P : A -> Prop) (less less' : A -> A -> bool) (x : A) (prefix : list A) :
  (forall a b, P a -> P b -> less a b = less' a b) ->
  P x -> Forall P prefix ->
  insertBack less x prefix = insertBack less' x prefix
  /\ Forall P (insertBack less x prefix).
Proof.
  intros Hext Hx. induction 1 as [|y r Hy Hr [IH1 IH2]]; cbn [insertBack].
  - split; [reflexivity|]. constructor; [exact Hx|constructor].
  - rewrite <- (Hext x y Hx Hy). destruct (less x y).
    + rewrite IH1. split; [reflexivity|]. constructor; [exact Hy|]. now rewrite <- IH1.
    + split; [reflexivity|]. constructor; [exact Hx|]. now constructor.
Qed.

Lemma sort_Slice_ext {A} (P : A -> Prop) (less less' : A -> A -> bool) (l : list A) :
  (forall a b, P a -> P b -> less a b = less' a b) ->
  Forall P l -> sort_Slice less l = sort_Slice less' l.
Proof.
  intros Hext Hl. unfold sort_Slice. f_equal.
  assert (forall prefix, Forall P prefix ->
             fold_left (fun q x => insertBack less x q) l prefix
             = fold_left (fun q x => insertBack less' x q) l prefix) as H.
  { induction Hl as [|x l Hx _ IH]; intros prefix Hp; cbn [fold_left]; [reflexivity|].
    destruct (insertBack_ext P less less' x prefix Hext Hx Hp) as [E HP].
    rewrite <- E. now apply IH. }
  apply H. constructor.
Qed.

Lemma StronglySorted_filter {A} (R : A -> A -> Prop) (f : A -> bool) (l : list A) :
  StronglySorted R l -> StronglySorted R (List.filter f l).
Proof.
  induction 1 as [|x l Hl IH Hx]; cbn [List.filter]; [constructor|].
  destruct (f x); [|exact IH].
  constructor; [exact IH|].
  rewrite Forall_forall in *. intros y Hy. apply Hx.
  apply list_elem_of_In in Hy. apply filter_In in Hy. apply list_elem_of_In. tauto.
Qed.

Lemma StronglySorted_weaken {A} (P : A -> Prop) (R R' : A -> A -> Prop) (l : list A) :
  (forall a b, P a -> P b -> R a b -> R' a b) ->
  Forall P l -> StronglySorted R l -> StronglySorted R' l.
Proof.
  intros Himp HP. induction 1 as [|x l Hl IH Hx]; [constructor|].
  apply Forall_cons in HP. destruct HP as [Px Pl].
  constructor; [now apply IH|].
  rewrite Forall_forall in *. intros y Hy. apply Himp; auto.
Qed.

(** A list sorted so that no entry of the second kind stands before one of
    the first kind is the entries of the first kind followed by the
    others. *)
Lemma StronglySorted_two_groups {A} (R : A -> A -> Prop) (f : A -> bool) (l : list A) :
  (forall a b, R a b -> f b = true -> f a = true) ->
  StronglySorted R l ->
  l = List.filter f l ++ List.filter (fun x => negb (f x)) l.
Proof.
  intros Hf. induction 1 as [|x l Hl IH Hx]; [reflexivity|].
  cbn [List.filter]. destruct (f x) eqn:Hfx; cbn [negb app].
  - now rewrite <- IH.
  - assert (Forall (fun y => f y = false) l) as Hall.
    { rewrite Forall_forall in *. intros y Hy.
      destruct (f y) eqn:Hfy; [|reflexivity].
      rewrite (Hf x y (Hx y Hy) Hfy) in Hfx. discriminate. }
    assert (List.filter f l = [] /\ List.filter (fun y => negb (f y)) l = l) as [-> ->].
    { clear -Hall. induction Hall as [|y l Hy _ [IH1 IH2]]; [split; reflexivity|].
      cbn [List.filter]. rewrite Hy. cbn [negb]. now rewrite IH1, IH2. }
    reflexivity.
Qed.

Section ListingFacts.

Variable os_Getwd : result string.

Variable filepath_Abs : string -> result string.

Variable filepath_Dir : string -> string.

Variable filepath_Join : string -> string -> string.

Variable ioutil_ReadDir : string -> result (list FilePicker.DirEntry).

Variable strings_ToLower : string -> string.

Local Abbreviation FileInfo := FilePicker.FileInfo.

Local Abbreviation less := (FilePicker.less strings_ToLower).
Local Abbreviation lessEntry := (FilePicker.lessEntry strings_ToLower).
Local Abbreviation byName := (FilePicker.byName strings_ToLower).
Local Abbreviation notParent := FilePicker.notParent.
Local Abbreviation visibleEntries := (FilePicker.visibleEntries filepath_Join).
Local Abbreviation resolves := (FilePicker.resolves os_Getwd filepath_Abs).

Lemma less_lessEntry (a b : FileInfo) :
  notParent a -> notParent b -> less a b = lessEntry a b.
Proof. unfold notParent, FilePicker.less, lessEntry. now intros -> ->. Qed.

Lemma lessEntry_asym (a b : FileInfo) : lessEntry a b = true -> lessEntry b a = false.
Proof.
  unfold FilePicker.lessEntry. rewrite !string_ltb_leb.
  destruct (FilePicker.IsDir a), (FilePicker.IsDir b); cbn; try congruence.
  all: destruct (String.leb_total (strings_ToLower (FilePicker.Name a))
                   (strings_ToLower (FilePicker.Name b))) as [H|H];
    rewrite H; cbn; try congruence;
    destruct (String.leb _ _); cbn; congruence.
Qed.

Lemma lessEntry_trans (a b c : FileInfo) :
  notAfter lessEntry a b -> notAfter lessEntry b c -> notAfter lessEntry a c.
Proof.
  unfold notAfter, FilePicker.lessEntry. rewrite !string_ltb_leb.
  destruct (FilePicker.IsDir a), (FilePicker.IsDir b), (FilePicker.IsDir c);
    cbn; try congruence.
  all: rewrite !negb_false_iff; intros H1 H2; eapply string_leb_trans; eassumption.
Qed.

Lemma appendEntries_spec (absPath : string) (files : list FilePicker.DirEntry)
  (result : list FileInfo) :
  FilePicker.appendEntries filepath_Join absPath files result
  = result ++ visibleEntries absPath files.
Proof.
  unfold FilePicker.visibleEntries. revert result.
  induction files as [|file files IH]; intros result;
    cbn [FilePicker.appendEntries List.filter map]; [now rewrite app_nil_r|].
  destruct (FilePicker.hidden (FilePicker.entryName file)); cbn [negb map].
  - apply IH.
  - rewrite IH, <- app_assoc. reflexivity.
Qed.

Lemma visibleEntries_spec (absPath : string) (files : list FilePicker.DirEntry) :
  Forall (fun f => notParent f /\ FilePicker.hidden (FilePicker.Name f) = false)
    (visibleEntries absPath files).
Proof.
  unfold FilePicker.visibleEntries. apply Forall_map. apply Forall_forall.
  intros file Hf. apply list_elem_of_In, filter_In in Hf. destruct Hf as [_ Hf].
  cbn. split; [reflexivity|]. now apply negb_true_iff.
Qed.


End ListingFacts.

Example exampleListing_names :
  match exampleListing with
  | Ok l => map FilePicker.Name l
  | Err _ => []
  end = [".."; "alpha"; "Zeta"; "A.key"; "b.txt"].
Proof. reflexivity. Qed.


(** ** Saving and loading the providers (main.go, lines 71-113) *)

(** *** Strings written and read back *)

Lemma small_byte_cases (P : Z -> Prop) :
  (forall n : nat, (n < 128)%nat -> P (Z.of_nat n)) ->
  forall b, 0 <= b < 128 -> P b.
Proof.
  intros H b Hb. rewrite <- (Z2Nat.id b) by lia. apply H. lia.
Qed.

(** What the encoder writes for an ASCII byte is read back as that byte. *)
Lemma readString_escapeASCII (b : Z) (tail : list Z) :
  0 <= b < 128 ->
  readString (escapeASCII b ++ tail) = consBytes [b] (readString tail).
Proof.
  revert b. apply small_byte_cases. intros n Hn.
  do 128 (destruct n as [|n]; [reflexivity|]). lia.
Qed.

Lemma readString_nonASCII (c : Z) (r0 : list Z) :
  128 <= c ->
  readString (c :: r0)
  = match r0 with
    | [] => consBytes runeErrorBytes (readString r0)
    | b1 :: r1 =>
        if utf8_is2 c b1 then consBytes [c; b1] (readString r1)
        else match r1 with
             | [] => consBytes runeErrorBytes (readString r0)
             | b2 :: r2 =>
                 if utf8_is3 c b1 b2 then consBytes [c; b1; b2] (readString r2)
                 else match r2 with
                      | [] => consBytes runeErrorBytes (readString r0)
                      | b3 :: r3 =>
                          if utf8_is4 c b1 b2 b3
                          then consBytes [c; b1; b2; b3] (readString r3)
                          else consBytes runeErrorBytes (readString r0)
                      end
             end
    end.
Proof.
  intros Hc. cbn [readString]. unfold dq, backslash.
  replace (c =? 34) with false by lia.
  replace (c <? 32) with false by lia.
  replace (c =? 92) with false by lia.
  replace (c <? 128) with false by lia.
  reflexivity.
Qed.

Lemma readString_escapeFFFD (tail : list Z) :
  readString (escapeFFFD ++ tail) = consBytes runeErrorBytes (readString tail).
Proof. reflexivity. Qed.

Lemma readString_lineSep (b0 b1 b2 : Z) (tail : list Z) :
  isLineSep b0 b1 b2 = true ->
  readString (escape202 (Z.land b2 15) ++ tail)
  = consBytes [b0; b1; b2] (readString tail).
Proof.
  unfold isLineSep. intros H.
  apply andb_prop in H. destruct H as [H H2].
  apply andb_prop in H. destruct H as [H0 H1].
  apply Z.eqb_eq in H0, H1. subst b0 b1.
  apply orb_prop in H2. destruct H2 as [H2|H2]; apply Z.eqb_eq in H2; subst b2;
    reflexivity.
Qed.

(** The body of a string as the encoder writes it, with the closing quote
    behind it, is read back as the string coerced to valid UTF-8. *)
Lemma readString_encodeStringBody (s rest : list Z) :
  forallb isByte s = true ->
  readString (encodeStringBody s ++ dq :: rest) = Some (utf8_coerce s, rest).
Proof.
  remember (length s) as n eqn:Hn. revert s Hn.
  induction n as [n IH] using lt_wf_ind. intros s Hn Hs.
  assert (forall r : list Z, (length r < n)%nat -> forallb isByte r = true ->
            readString (encodeStringBody r ++ dq :: rest) = Some (utf8_coerce r, rest))
    as IH' by (intros r Hr; now apply (IH (length r))).
  clear IH. subst n.
  destruct s as [|b0 r0]; [reflexivity|].
  cbn [forallb] in Hs. apply andb_prop in Hs. destruct Hs as [Hb0 Hr0].
  unfold isByte in Hb0.
  cbn [encodeStringBody utf8_coerce].
  destruct (b0 <? 128) eqn:Hascii.
  { rewrite <- app_assoc, readString_escapeASCII by lia.
    rewrite IH' by (cbn; lia || assumption). reflexivity. }
  assert (128 <= b0) as Hhigh by lia.
  assert (readString (escapeFFFD ++ encodeStringBody r0 ++ dq :: rest)
          = Some (runeErrorBytes ++ utf8_coerce r0, rest)) as Hbad.
  { rewrite readString_escapeFFFD, IH' by (cbn; lia || assumption). reflexivity. }
  destruct r0 as [|b1 r1].
  { cbn [app]. rewrite (readString_escapeFFFD (dq :: rest)). reflexivity. }
  cbn [forallb] in Hr0. apply andb_prop in Hr0. destruct Hr0 as [Hb1 Hr1].
  destruct (utf8_is2 b0 b1) eqn:H2.
  { cbn [app]. rewrite readString_nonASCII by exact Hhigh. rewrite H2.
    rewrite IH' by (cbn; lia || assumption). reflexivity. }
  destruct r1 as [|b2 r2].
  { rewrite <- app_assoc. exact Hbad. }
  cbn [forallb] in Hr1. apply andb_prop in Hr1. destruct Hr1 as [Hb2 Hr2].
  destruct (utf8_is3 b0 b1 b2) eqn:H3.
  { destruct (isLineSep b0 b1 b2) eqn:Hls.
    - rewrite <- app_assoc, (readString_lineSep b0 b1 b2) by exact Hls.
      rewrite IH' by (cbn; lia || assumption). reflexivity.
    - cbn [app]. rewrite readString_nonASCII by exact Hhigh. rewrite H2, H3.
      rewrite IH' by (cbn; lia || assumption). reflexivity. }
  destruct r2 as [|b3 r3].
  { rewrite <- app_assoc. exact Hbad. }
  cbn [forallb] in Hr2. apply andb_prop in Hr2. destruct Hr2 as [Hb3 Hr3].
  destruct (utf8_is4 b0 b1 b2 b3) eqn:H4.
  { cbn [app]. rewrite readString_nonASCII by exact Hhigh. rewrite H2, H3, H4.
    rewrite IH' by (cbn; lia || assumption). reflexivity. }
  rewrite <- app_assoc. exact Hbad.
Qed.

Lemma utf8_coerce_valid (s : list Z) : utf8_Valid s = true -> utf8_coerce s = s.
Proof.
  remember (length s) as n eqn:Hn. revert s Hn.
  induction n as [n IH] using lt_wf_ind. intros s Hn.
  assert (forall r : list Z, (length r < n)%nat -> utf8_Valid r = true -> utf8_coerce r = r)
    as IH' by (intros r Hr; now apply (IH (length r))).
  clear IH. subst n.
  destruct s as [|b0 r0]; [reflexivity|].
  cbn [utf8_Valid utf8_coerce].
  destruct (b0 <? 128). { intros H. rewrite IH' by (cbn; lia || assumption). reflexivity. }
  destruct r0 as [|b1 r1]; [discriminate|].
  destruct (utf8_is2 b0 b1).
  { intros H. rewrite IH' by (cbn; lia || assumption). reflexivity. }
  destruct r1 as [|b2 r2]; [discriminate|].
  destruct (utf8_is3 b0 b1 b2).
  { intros H. rewrite IH' by (cbn; lia || assumption). reflexivity. }
  destruct r2 as [|b3 r3]; [discriminate|].
  destruct (utf8_is4 b0 b1 b2 b3); [|discriminate].
  intros H. rewrite IH' by (cbn; lia || assumption). reflexivity.
Qed.

Lemma escapeASCII_bytes (b : Z) :
  0 <= b < 128 -> forallb isByte (escapeASCII b) = true.
Proof.
  revert b. apply small_byte_cases. intros n Hn.
  do 128 (destruct n as [|n]; [reflexivity|]). lia.
Qed.

Lemma encodeStringBody_bytes (s : list Z) :
  forallb isByte s = true -> forallb isByte (encodeStringBody s) = true.
Proof.
  remember (length s) as n eqn:Hn. revert s Hn.
  induction n as [n IH] using lt_wf_ind. intros s Hn Hs.
  assert (forall r : list Z, (length r < n)%nat -> forallb isByte r = true ->
            forallb isByte (encodeStringBody r) = true)
    as IH' by (intros r Hr; now apply (IH (length r))).
  clear IH. subst n.
  destruct s as [|b0 r0]; [reflexivity|].
  cbn [forallb] in Hs. apply andb_prop in Hs. destruct Hs as [Hb0 Hr0].
  pose proof Hb0 as Hb0'. unfold isByte in Hb0'.
  cbn [encodeStringBody].
  destruct (b0 <? 128) eqn:Hascii.
  { rewrite forallb_app, escapeASCII_bytes by lia.
    now rewrite IH' by (cbn; lia || assumption). }
  assert (forallb isByte (escapeFFFD ++ encodeStringBody r0) = true) as Hbad.
  { rewrite forallb_app. now rewrite IH' by (cbn; lia || assumption). }
  destruct r0 as [|b1 r1]; [reflexivity|].
  cbn [forallb] in Hr0. apply andb_prop in Hr0. destruct Hr0 as [Hb1 Hr1].
  destruct (utf8_is2 b0 b1).
  { cbn [forallb]. rewrite Hb0, Hb1. now rewrite IH' by (cbn; lia || assumption). }
  destruct r1 as [|b2 r2]; [exact Hbad|].
  cbn [forallb] in Hr1. apply andb_prop in Hr1. destruct Hr1 as [Hb2 Hr2].
  destruct (utf8_is3 b0 b1 b2).
  { rewrite forallb_app. rewrite IH' by (cbn; lia || assumption).
    destruct (isLineSep b0 b1 b2) eqn:Hls.
    - unfold isLineSep in Hls.
      assert (b2 = 168 \/ b2 = 169) as [-> | ->] by lia; reflexivity.
    - cbn [forallb]. now rewrite Hb0, Hb1, Hb2. }
  destruct r2 as [|b3 r3]; [exact Hbad|].
  cbn [forallb] in Hr2. apply andb_prop in Hr2. destruct Hr2 as [Hb3 Hr3].
  destruct (utf8_is4 b0 b1 b2 b3); [|exact Hbad].
  cbn [forallb]. rewrite Hb0, Hb1, Hb2, Hb3. now rewrite IH' by (cbn; lia || assumption).
Qed.

(** *** Documents written and read back *)

Lemma bytes_of_string_isByte (s : string) : forallb isByte (bytes_of_string s) = true.
Proof.
  apply forallb_forall. intros b Hb.
  pose proof (bytes_of_string_range s) as H. rewrite Forall_forall in H.
  apply list_elem_of_In in Hb. specialize (H b Hb). unfold isByte. lia.
Qed.

Lemma readString_encodeString (s : string) (rest : list Z) :
  readString (encodeStringBody (bytes_of_string s) ++ [dq] ++ rest)
  = Some (utf8_coerce (bytes_of_string s), rest).
Proof. apply readString_encodeStringBody, bytes_of_string_isByte. Qed.

Lemma parseValue_string (f : nat) (s : string) (rest : list Z) :
  parseValue (S f) (encodeString s ++ rest)
  = Some (JString (utf8_coerce (bytes_of_string s)), rest).
Proof.
  unfold encodeString. cbn [app parseValue]. rewrite Z.eqb_refl.
  rewrite <- app_assoc. now rewrite readString_encodeString.
Qed.

Lemma skipWS_encodeString (s : string) (rest : list Z) :
  skipWS (encodeString s ++ rest) = encodeString s ++ rest.
Proof. reflexivity. Qed.

Lemma parseValue_object (f : nat) (r : list Z) :
  parseValue (S f) (123 :: r)
  = match skipWS r with
    | [] => None
    | c' :: r' =>
        if c' =? 125 then Some (JObject [], r')
        else match parseMembers f (c' :: r') with
             | Some (ms, rest) => Some (JObject ms, rest)
             | None => None
             end
    end.
Proof. reflexivity. Qed.

Lemma parseMembers_key (f : nat) (key : string) (r : list Z) :
  parseMembers (S f) (encodeString key ++ r)
  = match skipWS r with
    | [] => None
    | c :: r1 =>
        if c =? 58 then
          match parseValue f (skipWS r1) with
          | None => None
          | Some (v, rest2) =>
              match skipWS rest2 with
              | [] => None
              | c2 :: r2 =>
                  if c2 =? 44 then
                    match parseMembers f (skipWS r2) with
                    | Some (ms, rest') =>
                        Some ((utf8_coerce (bytes_of_string key), v) :: ms, rest')
                    | None => None
                    end
                  else if c2 =? 125
                       then Some ([(utf8_coerce (bytes_of_string key), v)], r2)
                       else None
              end
          end
        else None
    end.
Proof.
  unfold encodeString. cbn [app parseMembers]. rewrite Z.eqb_refl.
  rewrite <- app_assoc. now rewrite readString_encodeString.
Qed.

Lemma parseMembers_provider (f : nat) (p : Provider) (rest : list Z) :
  parseMembers (S (S (S f)))
    (encodeString "Name" ++ lit ": " ++ encodeString (Name p) ++ lit "," ++ nlb
     ++ lit "    " ++ encodeString "Secret" ++ lit ": " ++ encodeString (Secret p)
     ++ nlb ++ lit "  }" ++ rest)
  = Some ([ (lit "Name", JString (utf8_coerce (bytes_of_string (Name p))));
            (lit "Secret", JString (utf8_coerce (bytes_of_string (Secret p)))) ], rest).
Proof.
  rewrite parseMembers_key.
  change (skipWS (lit ": " ++ ?x)) with (58 :: 32 :: x). cbv iota. rewrite Z.eqb_refl.
  change (skipWS (32 :: ?x)) with (skipWS x).
  rewrite skipWS_encodeString, parseValue_string.
  change (skipWS (lit "," ++ nlb ++ lit "    " ++ ?x)) with (44 :: 10 :: 32 :: 32 :: 32 :: 32 :: x).
  cbv iota. rewrite Z.eqb_refl.
  change (skipWS (10 :: 32 :: 32 :: 32 :: 32 :: ?x)) with (skipWS x).
  rewrite skipWS_encodeString, parseMembers_key.
  change (skipWS (lit ": " ++ ?x)) with (58 :: 32 :: x). cbv iota. rewrite Z.eqb_refl.
  change (skipWS (32 :: ?x)) with (skipWS x).
  rewrite skipWS_encodeString, parseValue_string.
  change (skipWS (nlb ++ lit "  }" ++ ?x)) with (125 :: x).
  reflexivity.
Qed.

Lemma parseValue_provider (f : nat) (p : Provider) (rest : list Z) :
  parseValue (S (S (S (S f)))) (encodeProvider p ++ rest) = Some (jsonOf p, rest).
Proof.
  unfold encodeProvider. rewrite <- !app_assoc.
  change (lit "{" ++ nlb ++ lit "    " ++ ?x) with (123 :: 10 :: 32 :: 32 :: 32 :: 32 :: x).
  rewrite parseValue_object.
  change (skipWS (10 :: 32 :: 32 :: 32 :: 32 :: ?x)) with (skipWS x).
  rewrite skipWS_encodeString.
  change (encodeString "Name" ++ ?x) with (dq :: (encodeStringBody (lit "Name") ++ [dq]) ++ x)
    at 1.
  cbv iota.
  change (dq =? 125) with false. cbv iota.
  change (dq :: (encodeStringBody (lit "Name") ++ [dq]) ++ ?x) with (encodeString "Name" ++ x).
  now rewrite parseMembers_provider.
Qed.

Lemma parseElems_step (f : nat) (s : list Z) :
  parseElems (S f) s
  = match parseValue f s with
    | None => None
    | Some (v, rest) =>
        match skipWS rest with
        | [] => None
        | c :: r =>
            if c =? 44 then
              match parseElems f (skipWS r) with
              | Some (vs, rest') => Some (v :: vs, rest')
              | None => None
              end
            else if c =? 93 then Some ([v], r)
            else None
        end
    end.
Proof. reflexivity. Qed.

Lemma skipWS_encodeElems (p : Provider) (ps : list Provider) (rest : list Z) :
  skipWS (encodeElems (p :: ps) ++ rest)
  = encodeProvider p ++ match ps with
                        | [] => nlb ++ rest
                        | _ :: _ => lit "," ++ nlb ++ encodeElems ps ++ rest
                        end.
Proof.
  destruct ps; cbn [encodeElems]; rewrite <- !app_assoc; reflexivity.
Qed.

Lemma parseElems_encodeElems (ps : list Provider) :
  forall (p : Provider) (f : nat) (rest : list Z),
    parseElems (length ps + 5 + f) (skipWS (encodeElems (p :: ps) ++ lit "]" ++ rest))
    = Some (map jsonOf (p :: ps), rest).
Proof.
  induction ps as [|p' ps IH]; intros p f rest; rewrite skipWS_encodeElems.
  - cbn [length Nat.add]. rewrite parseElems_step, parseValue_provider.
    reflexivity.
  - cbn [length Nat.add]. rewrite parseElems_step.
    replace (length ps + 5 + f)%nat with (S (S (S (S (S (length ps + f)))))) by lia.
    rewrite parseValue_provider.
    change (skipWS (lit "," ++ nlb ++ ?x)) with (44 :: 10 :: x). cbv iota.
    rewrite Z.eqb_refl.
    change (skipWS (10 :: ?x)) with (skipWS x).
    replace (S (S (S (S (S (length ps + f)))))) with (length ps + 5 + f)%nat by lia.
    rewrite IH. reflexivity.
Qed.

Lemma encodeElems_length (ps : list Provider) : (length ps <= length (encodeElems ps))%nat.
Proof.
  induction ps as [|p ps IH]; [cbn; lia|].
  destruct ps as [|p' ps].
  - change (encodeElems [p]) with (lit "  " ++ encodeProvider p ++ nlb).
    rewrite !length_app. change (length (lit "  ")) with 2%nat. cbn [length]. lia.
  - change (encodeElems (p :: p' :: ps))
      with (lit "  " ++ encodeProvider p ++ lit "," ++ nlb ++ encodeElems (p' :: ps)).
    rewrite !length_app. change (length (lit "  ")) with 2%nat.
    cbn [length] in *. lia.
Qed.

Lemma parseDocument_documentOf (ps : list Provider) :
  parseDocument (documentOf ps) = Some (JArray (map jsonOf ps)).
Proof.
  destruct ps as [|p ps]; [reflexivity|].
  unfold parseDocument, documentOf.
  set (doc := lit "[" ++ nlb ++ encodeElems (p :: ps) ++ lit "]").
  assert (length ps + 5 <= S (2 * length doc))%nat as Hfuel.
  { subst doc. rewrite !length_app. pose proof (encodeElems_length (p :: ps)) as H.
    change (length (lit "[")) with 1%nat. change (length (lit "]")) with 1%nat.
    cbn [length] in H. lia. }
  change (skipWS doc) with (91 :: nlb ++ encodeElems (p :: ps) ++ lit "]").
  cbn [parseValue]. change (91 =? dq) with false. cbv iota. rewrite Z.eqb_refl.
  change (skipWS (nlb ++ ?x)) with (skipWS x).
  pose proof (parseElems_encodeElems ps p (S (2 * length doc) - (length ps + 5)) []) as H.
  replace (length ps + 5 + (S (2 * length doc) - (length ps + 5)))%nat
    with (S (2 * length doc)) in H by lia.
  rewrite app_nil_r in H.
  rewrite skipWS_encodeElems in *.
  change (encodeProvider p ++ ?x) with (123 :: (nlb ++ lit "    " ++ encodeString "Name"
    ++ lit ": " ++ encodeString (Name p) ++ lit "," ++ nlb ++ lit "    "
    ++ encodeString "Secret" ++ lit ": " ++ encodeString (Secret p) ++ nlb ++ lit "  }") ++ x)
    in *.
  cbv iota. change (123 =? 93) with false. cbv iota.
  rewrite H. reflexivity.
Qed.

Lemma decodeProvider_jsonOf (p : Provider) :
  decodeProvider (jsonOf p) = Ok (coerceProvider p).
Proof. reflexivity. Qed.

Lemma decodeElems_jsonOf (ps : list Provider) :
  decodeElems (map jsonOf ps) = Ok (map coerceProvider ps).
Proof.
  induction ps as [|p ps IH]; [reflexivity|].
  cbn [map decodeElems]. now rewrite decodeProvider_jsonOf, IH.
Qed.

Lemma encodeString_bytes (s : string) : forallb isByte (encodeString s) = true.
Proof.
  unfold encodeString. cbn [forallb]. rewrite forallb_app.
  now rewrite encodeStringBody_bytes by apply bytes_of_string_isByte.
Qed.

Lemma encodeProvider_bytes (p : Provider) : forallb isByte (encodeProvider p) = true.
Proof.
  unfold encodeProvider, lit, nlb.
  now rewrite !forallb_app, !encodeString_bytes, !bytes_of_string_isByte.
Qed.

Lemma encodeElems_bytes (ps : list Provider) : forallb isByte (encodeElems ps) = true.
Proof.
  induction ps as [|p ps IH]; [reflexivity|].
  destruct ps as [|p' ps].
  - change (encodeElems [p]) with (lit "  " ++ encodeProvider p ++ nlb).
    now rewrite !forallb_app, encodeProvider_bytes.
  - change (encodeElems (p :: p' :: ps))
      with (lit "  " ++ encodeProvider p ++ lit "," ++ nlb ++ encodeElems (p' :: ps)).
    now rewrite !forallb_app, encodeProvider_bytes, IH.
Qed.

Lemma documentOf_bytes (ps : list Provider) :
  Forall (fun z => 0 <= z < 256) (documentOf ps).
Proof.
  assert (forallb isByte (documentOf ps) = true) as H.
  { destruct ps as [|p ps]; [reflexivity|]. unfold documentOf.
    now rewrite !forallb_app, encodeElems_bytes. }
  rewrite forallb_forall in H. apply Forall_forall. intros z Hz.
  apply list_elem_of_In in Hz. specialize (H z Hz). unfold isByte in H. lia.
Qed.

(** The text that MarshalIndent writes is read back by Unmarshal as the
    same providers, their strings coerced to valid UTF-8. *)
Lemma json_roundtrip (ps : list Provider) :
  json_Unmarshal (json_MarshalIndent ps) = Ok (map coerceProvider ps).
Proof.
  unfold json_Unmarshal, json_MarshalIndent. fold (documentOf ps).
  rewrite bytes_of_string_of_bytes by apply documentOf_bytes.
  rewrite parseDocument_documentOf. apply decodeElems_jsonOf.
Qed.

Lemma coerceString_valid (s : string) : validUTF8 s = true -> coerceString s = s.
Proof.
  intros H. unfold coerceString. rewrite utf8_coerce_valid by exact H.
  apply string_of_bytes_of_string.
Qed.

Lemma coerceProvider_valid (ps : list Provider) :
  forallb (fun p => validUTF8 (Name p) && validUTF8 (Secret p)) ps = true ->
  map coerceProvider ps = ps.
Proof.
  induction ps as [|[n s] ps IH]; [reflexivity|]. cbn [forallb map Name Secret].
  intros H. apply andb_prop in H. destruct H as [H Hps].
  apply andb_prop in H. destruct H as [Hn Hs].
  rewrite IH by exact Hps. unfold coerceProvider. cbn [Name Secret].
  now rewrite !coerceString_valid.
Qed.

Section PersistenceFacts.

Variable filepath_Dir : string -> string.

(** What is loaded after a save that succeeded. *)
Lemma save_load (ps : list Provider) (filePath : string) (fs fs' : FS) :
  saveProviders filepath_Dir ps filePath fs = (fs', None) ->
  loadProviders filePath fs' = Ok (map coerceProvider ps).
Proof.
  unfold saveProviders, loadProviders.
  destruct (os_MkdirAll fs (filepath_Dir filePath)) as [fs1|e]; [|discriminate].
  unfold os_WriteFile.
  assert (forall data : string,
             os_NotExist (<[filePath := NFile data]> fs1) filePath = false
             /\ os_ReadFile (<[filePath := NFile data]> fs1) filePath = Ok data) as Hfs.
  { intros data. unfold os_NotExist, os_ReadFile.
    now rewrite lookup_insert_eq. }
  destruct (fs1 !! filePath) as [[data|]|]; try discriminate; intros [= <-];
    destruct (Hfs (json_MarshalIndent ps)) as [-> ->];
    now rewrite json_roundtrip.
Qed.

(** C6, amended: for every list of providers whose names and secrets are
    valid UTF-8, a load that follows a save that succeeded yields the same
    list: the same length, the same order, and in each entry the same name
    and secret. *)
Theorem save_load_roundtrip (ps : list Provider) (filePath : string) (fs fs' : FS) :
  forallb (fun p => validUTF8 (Name p) && validUTF8 (Secret p)) ps = true ->
  saveProviders filepath_Dir ps filePath fs = (fs', None) ->
  loadProviders filePath fs' = Ok ps.
Proof.
  intros Hvalid Hsave. rewrite (save_load ps filePath fs fs' Hsave).
  now rewrite coerceProvider_valid.
Qed.

End PersistenceFacts.

Lemma save_load_roundtrip_witness :
  exists fs',
    saveProviders (fun _ => ".") twoProviders ProvidersFilePath ∅ = (fs', None)
    /\ loadProviders ProvidersFilePath fs' = Ok twoProviders.
Proof.
  eexists. split; [vm_compute; reflexivity|].
  apply (save_load_roundtrip (fun _ => ".") twoProviders ProvidersFilePath ∅).
  - reflexivity.
  - vm_compute. reflexivity.
Defined.

(** C6 as stated fails on a name that is not valid UTF-8 (the single byte
    255): it is saved as the escape of U+FFFD, and loaded as the three bytes
    of that rune. *)
Lemma save_load_counterexample :
  exists fs',
    saveProviders (fun _ => ".") [mkProvider (string_of_bytes [255]) "JBSWY3DPEHPK3PXP"]
      ProvidersFilePath ∅ = (fs', None)
    /\ loadProviders ProvidersFilePath fs'
       = Ok [mkProvider (string_of_bytes [239; 191; 189]) "JBSWY3DPEHPK3PXP"]
    /\ String.eqb (string_of_bytes [255]) (string_of_bytes [239; 191; 189]) = false.
Proof.
  eexists. split; [vm_compute; reflexivity|]. split; vm_compute; reflexivity.
Qed.

(** * Further properties of the session (main.go, lines 115-393) *)

(** ** Selecting, refreshing and adding *)

Lemma generateAndDisplayOTP_sameData (tGen tShow : Time) (st st' : Session) :
  generateAndDisplayOTP tGen tShow st = Done st' -> sameData st st'.
Proof.
  unfold generateAndDisplayOTP, sameData.
  destruct ((lenZ (providers st) =? 0) || (selectedProviderIndex st =? -1)).
  { intros [= <-]. cbn. tauto. }
  destruct (sliceIndex (providers st) (selectedProviderIndex st)) as [provider|];
    [|discriminate].
  destruct (generateTOTP (Secret provider) tGen) as [otp|err].
  - intros [= <-]. unfold updateCountdown.
    destruct (String.eqb _ "" || String.eqb _ ""); cbn; tauto.
  - intros [= <-]. cbn. tauto.
Qed.

(** What generateAndDisplayOTP leaves for a provider in range. *)
Lemma generateAndDisplayOTP_selected (tGen tShow : Time) (st : Session) (p : Provider) :
  sliceIndex (providers st) (selectedProviderIndex st) = Some p ->
  exists st',
    generateAndDisplayOTP tGen tShow st = Done st'
    /\ match generateTOTP (Secret p) tGen with
       | Ok code =>
           currentOTP st' = code /\ currentProvider st' = Name p
           /\ otpView st' = (if String.eqb code "" || String.eqb (Name p) ""
                             then otpView st
                             else countdownText (Name p) code (remainingSeconds tShow))
       | Err e =>
           currentOTP st' = "" /\ currentProvider st' = ""
           /\ otpView st' = errorText e
       end.
Proof.
  intros Hp. pose proof (sliceIndex_range _ _ _ Hp) as Hr.
  unfold generateAndDisplayOTP.
  replace (lenZ (providers st) =? 0) with false by lia.
  replace (selectedProviderIndex st =? -1) with false by lia.
  cbn [orb]. rewrite Hp.
  destruct (generateTOTP (Secret p) tGen) as [code|e].
  - eexists. split; [reflexivity|]. unfold updateCountdown. cbn.
    destruct (String.eqb code "" || String.eqb (Name p) ""); cbn; auto.
  - eexists. split; [reflexivity|]. cbn. auto.
Qed.

(** X1: selecting a provider of the list whose secret is valid base32 and
    whose name is not empty generates a code of six digits for its secret
    and the current time, holds it with the provider's name, and shows both
    with the remaining seconds. *)
Theorem selectProvider_shows_code
  (index : Z) (tGen tShow : Time) (st : Session) (p : Provider) :
  sliceIndex (providers st) index = Some p ->
  validSecret (Secret p) = true ->
  Name p <> "" ->
  exists code st',
    selectProvider index tGen tShow st = Done st'
    /\ generateTOTP (Secret p) tGen = Ok code
    /\ isSixDigits code = true
    /\ selectedProviderIndex st' = index
    /\ currentOTP st' = code
    /\ currentProvider st' = Name p
    /\ otpView st' = countdownText (Name p) code (remainingSeconds tShow).
Proof.
  intros Hp Hv Hn. unfold validSecret in Hv. apply andb_prop in Hv.
  destruct Hv as [_ Hwf].
  destruct (hotp_wellFormed (Secret p) (totp_counter tGen) Hwf) as [code Hc'].
  assert (generateTOTP (Secret p) tGen = Ok code) as Hc
    by (rewrite generateTOTP_eq; exact Hc').
  pose proof (generateTOTP_six_digits _ _ _ Hc) as H6.
  exists code. unfold selectProvider.
  destruct (generateAndDisplayOTP_selected tGen tShow (setSelected index st) p Hp)
    as (st' & Hrun & Hres).
  rewrite Hc in Hres. destruct Hres as (Ho & Hpn & Hv).
  exists st'. split; [exact Hrun|]. split; [exact Hc|]. split; [exact H6|].
  destruct (generateAndDisplayOTP_sameData _ _ _ _ Hrun) as (_ & _ & Hsel & _).
  split; [exact Hsel|]. split; [exact Ho|]. split; [exact Hpn|].
  rewrite Hv.
  destruct (String.eqb_spec code "") as [E|_];
    [apply isSixDigits_nonempty in H6; contradiction|].
  destruct (String.eqb_spec (Name p) "") as [E|_]; [contradiction|]. reflexivity.
Qed.

Lemma selectProvider_shows_code_witness :
  exists code st',
    selectProvider 0 (mkTime 59 0) (mkTime 59 0) oneProvider = Done st'
    /\ generateTOTP "JBSWY3DPEHPK3PXP" (mkTime 59 0) = Ok code
    /\ isSixDigits code = true
    /\ selectedProviderIndex st' = 0
    /\ currentOTP st' = code
    /\ currentProvider st' = "work"
    /\ otpView st' = countdownText "work" code 1.
Proof.
  apply (selectProvider_shows_code 0 (mkTime 59 0) (mkTime 59 0) oneProvider
           (mkProvider "work" "JBSWY3DPEHPK3PXP")); [reflexivity|reflexivity|discriminate].
Defined.

(** A secret that the generator refuses is refused at every instant. *)
Lemma generateTOTP_error_any_time (s e : string) (t1 t2 : Time) :
  generateTOTP s t1 = Err e -> generateTOTP s t2 = Err e.
Proof.
  rewrite !generateTOTP_eq. unfold totp_GenerateCode, hotp_GenerateCodeCustom.
  destruct (base32_DecodeString _); [discriminate|]. auto.
Qed.

(** X2: when the generator refuses the secret of the selected provider, the
    selection ends with both fields cleared and the error on the display,
    and every later coarse tick ends the same way: a refused secret is
    refused at every instant. *)
Theorem refresh_repeats_error
  (index : Z) (t1 tShow1 : Time) (st : Session) (p : Provider) (e : string) :
  sliceIndex (providers st) index = Some p ->
  generateTOTP (Secret p) t1 = Err e ->
  exists st1,
    selectProvider index t1 tShow1 st = Done st1
    /\ currentOTP st1 = "" /\ currentProvider st1 = ""
    /\ otpView st1 = errorText e
    /\ forall t2 tShow2 : Time,
         exists st2,
           coarseTick t2 tShow2 st1 = Done st2
           /\ currentOTP st2 = "" /\ currentProvider st2 = ""
           /\ otpView st2 = errorText e.
Proof.
  intros Hp He. unfold selectProvider.
  destruct (generateAndDisplayOTP_selected t1 tShow1 (setSelected index st) p Hp)
    as (st1 & Hrun & Hres).
  rewrite He in Hres. destruct Hres as (Ho & Hn & Hv).
  exists st1. repeat (split; [assumption|]).
  intros t2 tShow2.
  destruct (generateAndDisplayOTP_sameData _ _ _ _ Hrun) as (Hps & _ & Hsel & _).
  cbn in Hps, Hsel.
  assert (sliceIndex (providers st1) (selectedProviderIndex st1) = Some p) as Hp1
    by (rewrite Hps, Hsel; exact Hp).
  pose proof (sliceIndex_range _ _ _ Hp1) as Hr.
  unfold coarseTick.
  replace (0 <? lenZ (providers st1)) with true by lia.
  replace (0 <=? selectedProviderIndex st1) with true by lia. cbn [andb].
  destruct (generateAndDisplayOTP_selected t2 tShow2 st1 p Hp1) as (st2 & Hrun2 & Hres2).
  rewrite (generateTOTP_error_any_time _ _ t1 t2 He) in Hres2.
  exists st2. tauto.
Qed.

Lemma refresh_repeats_error_witness :
  exists st1,
    selectProvider 0 (mkTime 0 0) (mkTime 0 0) brokenProvider = Done st1
    /\ currentOTP st1 = "" /\ currentProvider st1 = ""
    /\ otpView st1 = errorText ErrValidateSecretInvalidBase32
    /\ forall t2 tShow2 : Time,
         exists st2,
           coarseTick t2 tShow2 st1 = Done st2
           /\ currentOTP st2 = "" /\ currentProvider st2 = ""
           /\ otpView st2 = errorText ErrValidateSecretInvalidBase32.
Proof.
  apply (refresh_repeats_error 0 (mkTime 0 0) (mkTime 0 0) brokenProvider
           (mkProvider "mail" ("MF" +:+ nl +:+ "RGG==="))); [reflexivity|].
  vm_compute. reflexivity.
Defined.

Lemma coarseTick_sameData (tGen tShow : Time) (st st' : Session) :
  coarseTick tGen tShow st = Done st' -> sameData st st'.
Proof.
  unfold coarseTick.
  destruct ((0 <? lenZ (providers st)) && (0 <=? selectedProviderIndex st)).
  - apply generateAndDisplayOTP_sameData.
  - intros [= <-]. unfold sameData. tauto.
Qed.

(** X3: a coarse tick changes neither the list of providers, nor the list
    widget, the selection or the file system, and calls saveProviders never;
    with no provider or no selection it changes nothing at all. *)
Theorem coarseTick_frame (tGen tShow : Time) (st st' : Session) :
  coarseTick tGen tShow st = Done st' ->
  providers st' = providers st
  /\ providerList st' = providerList st
  /\ selectedProviderIndex st' = selectedProviderIndex st
  /\ disk st' = disk st
  /\ saves st' = saves st
  /\ (providers st = [] \/ selectedProviderIndex st < 0 -> st' = st).
Proof.
  intros Hrun.
  destruct (coarseTick_sameData _ _ _ _ Hrun) as (H1 & H2 & H3 & _ & _ & H4 & H5).
  repeat (split; [assumption|]).
  revert Hrun. unfold coarseTick.
  destruct ((0 <? lenZ (providers st)) && (0 <=? selectedProviderIndex st)) eqn:Hg.
  - intros _ [Hn|Hn]; [rewrite Hn in Hg; discriminate|lia].
  - intros [= <-]. reflexivity.
Qed.

Lemma coarseTick_frame_witness :
  exists st',
    coarseTick (mkTime 59 0) (mkTime 59 0) (setSelected 0 oneProvider) = Done st'
    /\ providers st' = providers oneProvider
    /\ selectedProviderIndex st' = 0
    /\ disk st' = ∅.
Proof.
  assert (exists st', coarseTick (mkTime 59 0) (mkTime 59 0) (setSelected 0 oneProvider)
                      = Done st') as [st' Hrun]
    by (eexists; vm_compute; reflexivity).
  exists st'. split; [exact Hrun|].
  destruct (coarseTick_frame _ _ _ _ Hrun) as (H1 & _ & H3 & H4 & _). auto.
Defined.

Section RunFacts.

Variable filepath_Dir : string -> string.

Lemma saveProviders_written (ps : list Provider) (filePath : string) (fs fs' : FS) :
  saveProviders filepath_Dir ps filePath fs = (fs', None) ->
  fs' !! filePath = Some (NFile (json_MarshalIndent ps)).
Proof.
  unfold saveProviders.
  destruct (os_MkdirAll fs (filepath_Dir filePath)) as [fs1|e]; [|discriminate].
  unfold os_WriteFile.
  destruct (fs1 !! filePath) as [[data|]|]; try discriminate; intros [= <-];
    apply lookup_insert_eq.
Qed.

(** What the button "Add Provider" does with a request that passes its
    checks, up to the call of saveProviders. *)
Lemma addProviderRequest_valid (name secret : string) (tGen tShow : Time) (st : Session) :
  name <> "" -> secret <> "" -> is_ok (base32_DecodeString secret) = true ->
  addProviderRequest filepath_Dir name secret tGen tShow st
  = let st1 := appendProvider (mkProvider name secret) (setForm name secret st) in
    match saveProviders filepath_Dir (providers st1) ProvidersFilePath (disk st1) with
    | (fs, Some err) =>
        Done (setView ("[red]Error saving providers: " +:+ escapeBrackets err +:+ "[white]")
                (setSaved fs st1))
    | (fs, None) =>
        generateAndDisplayOTP tGen tShow
          (setView (savedText name)
             (setCurrent "" ""
                (setForm "" "" (setSelected (lenZ (providers st1) - 1) (setSaved fs st1)))))
    end.
Proof.
  intros Hn Hs Hd. unfold addProviderRequest, addProvider.
  cbn [formName formSecret setForm].
  destruct (String.eqb_spec name ""); [contradiction|].
  destruct (String.eqb_spec secret ""); [contradiction|].
  destruct (base32_DecodeString secret); [reflexivity|discriminate].
Qed.

Lemma addProviderRequest_saved
  (name secret : string) (tGen tShow : Time) (st : Session) (fs' : FS) :
  name <> "" -> secret <> "" -> is_ok (base32_DecodeString secret) = true ->
  saveProviders filepath_Dir (providers st ++ [mkProvider name secret])
    ProvidersFilePath (disk st) = (fs', None) ->
  exists st',
    addProviderRequest filepath_Dir name secret tGen tShow st = Done st'
    /\ providers st' = providers st ++ [mkProvider name secret]
    /\ providerList st' = providerList st ++ [name]
    /\ selectedProviderIndex st' = lenZ (providers st)
    /\ formName st' = "" /\ formSecret st' = ""
    /\ disk st' = fs' /\ saves st' = S (saves st)
    /\ fs' !! ProvidersFilePath = Some (NFile (json_MarshalIndent (providers st')))
    /\ match generateTOTP secret tGen with
       | Ok code =>
           currentOTP st' = code /\ currentProvider st' = name
           /\ otpView st' = countdownText name code (remainingSeconds tShow)
       | Err e =>
           currentOTP st' = "" /\ currentProvider st' = "" /\ otpView st' = errorText e
       end.
Proof.
  intros Hn Hs Hd Hsave.
  rewrite (addProviderRequest_valid name secret tGen tShow st Hn Hs Hd).
  cbn zeta. cbn [providers disk appendProvider setForm]. rewrite Hsave.
  set (st1 := appendProvider (mkProvider name secret) (setForm name secret st)).
  set (st5 := setView _ _).
  assert (sliceIndex (providers st5) (selectedProviderIndex st5)
          = Some (mkProvider name secret)) as Hp.
  { subst st5 st1. cbn. unfold sliceIndex, lenZ. rewrite length_app. cbn [length].
    replace (Z.of_nat (length (providers st) + 1) - 1) with (Z.of_nat (length (providers st)))
      by lia.
    destruct (Z.ltb_spec (Z.of_nat (length (providers st))) 0); [lia|].
    destruct (Z.leb_spec (Z.of_nat (length (providers st) + 1))
                (Z.of_nat (length (providers st)))); [lia|].
    cbn [orb]. rewrite Nat2Z.id. apply list_lookup_middle. reflexivity. }
  destruct (generateAndDisplayOTP_selected tGen tShow st5 _ Hp) as (st' & Hrun & Hres).
  destruct (generateAndDisplayOTP_sameData _ _ _ _ Hrun)
    as (H1 & H2 & H3 & H4 & H5 & H6 & H7).
  exists st'. split; [exact Hrun|].
  rewrite H1, H2, H3, H4, H5, H6, H7. subst st5 st1.
  cbn [providers providerList selectedProviderIndex formName formSecret disk saves
       setView setCurrent setForm setSelected setSaved appendProvider Name].
  repeat (split; [reflexivity|]).
  split. { unfold lenZ. rewrite length_app. cbn. lia. }
  repeat (split; [reflexivity|]).
  split. { apply (saveProviders_written _ _ _ _ Hsave). }
  cbn [Secret Name] in Hres.
  destruct (generateTOTP secret tGen) as [code|e] eqn:Hg; [|exact Hres].
  destruct Hres as (Ho & Hpn & Hv). repeat (split; [assumption|]).
  rewrite Hv.
  destruct (String.eqb_spec code "") as [E|_].
  { apply generateTOTP_six_digits, isSixDigits_nonempty in Hg. contradiction. }
  destruct (String.eqb_spec name "") as [E|_]; [contradiction|]. reflexivity.
Qed.

(** X4: a request with a name, a secret that the decoder accepts and a
    save that succeeds appends the provider (whatever names the list holds
    already), adds its name to the list widget, selects it, clears the form,
    leaves the JSON text of the new list in providers.json, and generates a
    code for the new provider or shows the generator's error. *)
Theorem addProvider_appends
  (name secret : string) (tGen tShow : Time) (st : Session) (fs' : FS) :
  name <> "" -> secret <> "" -> is_ok (base32_DecodeString secret) = true ->
  saveProviders filepath_Dir (providers st ++ [mkProvider name secret])
    ProvidersFilePath (disk st) = (fs', None) ->
  exists st',
    addProviderRequest filepath_Dir name secret tGen tShow st = Done st'
    /\ providers st' = providers st ++ [mkProvider name secret]
    /\ providerList st' = providerList st ++ [name]
    /\ selectedProviderIndex st' = lenZ (providers st)
    /\ formName st' = "" /\ formSecret st' = ""
    /\ disk st' = fs' /\ saves st' = S (saves st)
    /\ fs' !! ProvidersFilePath = Some (NFile (json_MarshalIndent (providers st')))
    /\ match generateTOTP secret tGen with
       | Ok code =>
           currentOTP st' = code /\ currentProvider st' = name
           /\ otpView st' = countdownText name code (remainingSeconds tShow)
       | Err e =>
           currentOTP st' = "" /\ currentProvider st' = "" /\ otpView st' = errorText e
       end.
Proof. apply addProviderRequest_saved. Qed.

(** A request that passes the checks appends the provider, whether or not
    the save succeeds. *)
Lemma addProviderRequest_accepts
  (name secret : string) (tGen tShow : Time) (st : Session) :
  name <> "" -> secret <> "" -> is_ok (base32_DecodeString secret) = true ->
  exists st',
    addProviderRequest filepath_Dir name secret tGen tShow st = Done st'
    /\ providers st' = providers st ++ [mkProvider name secret]
    /\ providerList st' = providerList st ++ [name]
    /\ saves st' = S (saves st).
Proof.
  intros Hn Hs Hd.
  destruct (saveProviders filepath_Dir (providers st ++ [mkProvider name secret])
              ProvidersFilePath (disk st)) as [fs' [err|]] eqn:Hsave.
  - rewrite (addProviderRequest_valid name secret tGen tShow st Hn Hs Hd).
    cbn zeta. cbn [providers disk appendProvider setForm]. rewrite Hsave.
    eexists. split; [reflexivity|]. cbn. tauto.
  - destruct (addProviderRequest_saved name secret tGen tShow st fs' Hn Hs Hd Hsave)
      as (st' & Hrun & H1 & H2 & _ & _ & _ & _ & H7 & _).
    exists st'. tauto.
Qed.

(** X5: when providers.json could not be loaded at start-up, the session
    starts with no provider, and the first add that is saved replaces what
    the file held by the list of the new provider alone. *)
Theorem add_replaces_unreadable_file
  (fs fs' : FS) (e name secret : string) (tGen tShow : Time) :
  loadProviders ProvidersFilePath fs = Err e ->
  name <> "" -> secret <> "" -> is_ok (base32_DecodeString secret) = true ->
  saveProviders filepath_Dir [mkProvider name secret] ProvidersFilePath fs = (fs', None) ->
  exists st',
    addProviderRequest filepath_Dir name secret tGen tShow (initialSession fs) = Done st'
    /\ providers st' = [mkProvider name secret]
    /\ disk st' !! ProvidersFilePath
       = Some (NFile (json_MarshalIndent [mkProvider name secret])).
Proof.
  intros He Hn Hs Hd Hsave.
  assert (providers (initialSession fs) = []) as Hp
    by (unfold initialSession; now rewrite He).
  destruct (addProviderRequest_saved name secret tGen tShow (initialSession fs) fs'
              Hn Hs Hd) as (st' & Hrun & H1 & _ & _ & _ & _ & H6 & _ & H8 & _).
  { rewrite Hp. exact Hsave. }
  exists st'. split; [exact Hrun|]. rewrite Hp in H1. cbn [app] in H1.
  split; [exact H1|]. now rewrite H6, H8, H1.
Qed.

(** X6: when the save fails, the provider stays appended in memory and in
    the list widget, the error is shown, the form keeps its texts, and the
    selection and the held code are as before. *)
Theorem addProvider_save_error
  (name secret err : string) (tGen tShow : Time) (st : Session) (fs' : FS) :
  name <> "" -> secret <> "" -> is_ok (base32_DecodeString secret) = true ->
  saveProviders filepath_Dir (providers st ++ [mkProvider name secret])
    ProvidersFilePath (disk st) = (fs', Some err) ->
  exists st',
    addProviderRequest filepath_Dir name secret tGen tShow st = Done st'
    /\ otpView st' = "[red]Error saving providers: " +:+ escapeBrackets err +:+ "[white]"
    /\ providers st' = providers st ++ [mkProvider name secret]
    /\ providerList st' = providerList st ++ [name]
    /\ selectedProviderIndex st' = selectedProviderIndex st
    /\ currentOTP st' = currentOTP st /\ currentProvider st' = currentProvider st
    /\ attempts st' = attempts st
    /\ formName st' = name /\ formSecret st' = secret
    /\ disk st' = fs' /\ saves st' = S (saves st).
Proof.
  intros Hn Hs Hd Hsave.
  rewrite (addProviderRequest_valid name secret tGen tShow st Hn Hs Hd).
  cbn zeta. cbn [providers disk appendProvider setForm]. rewrite Hsave.
  eexists. split; [reflexivity|]. cbn. tauto.
Qed.

(** X7: after an add that was saved, a start on the file system it left
    loads the list of the session with its strings coerced to valid UTF-8:
    the same list when the strings are valid UTF-8. *)
Theorem addProvider_persists
  (name secret : string) (tGen tShow : Time) (st : Session) (fs' : FS) :
  name <> "" -> secret <> "" -> is_ok (base32_DecodeString secret) = true ->
  saveProviders filepath_Dir (providers st ++ [mkProvider name secret])
    ProvidersFilePath (disk st) = (fs', None) ->
  exists st',
    addProviderRequest filepath_Dir name secret tGen tShow st = Done st'
    /\ providers (initialSession (disk st')) = map coerceProvider (providers st')
    /\ providerList (initialSession (disk st')) = map Name (map coerceProvider (providers st'))
    /\ (forallb (fun p => validUTF8 (Name p) && validUTF8 (Secret p)) (providers st') = true ->
        providers (initialSession (disk st')) = providers st').
Proof.
  intros Hn Hs Hd Hsave.
  rewrite (addProviderRequest_valid name secret tGen tShow st Hn Hs Hd).
  cbn zeta. cbn [providers disk appendProvider setForm]. rewrite Hsave.
  set (st5 := setView _ _).
  destruct (generateAndDisplayOTP_runs tGen tShow st5) as [st' Hrun].
  { right. subst st5. unfold validIndex, lenZ. cbn. rewrite length_app. cbn. lia. }
  destruct (generateAndDisplayOTP_sameData _ _ _ _ Hrun) as (H1 & _ & _ & _ & _ & H6 & _).
  exists st'. split; [exact Hrun|].
  assert (providers (initialSession (disk st')) = map coerceProvider (providers st')) as Hl.
  { unfold initialSession. cbn [providers]. rewrite H1, H6. subst st5. cbn.
    now rewrite (save_load filepath_Dir _ _ _ _ Hsave). }
  split; [exact Hl|]. split.
  - rewrite <- Hl. reflexivity.
  - intros Hv. rewrite Hl. now apply coerceProvider_valid.
Qed.

(** *** Runs *)

(** What a request to add a provider ends in: it is refused and the lists
    are as they were, or the provider is appended and a save was tried. *)
Lemma addProviderRequest_cases (name secret : string) (tGen tShow : Time) (st st' : Session) :
  addProviderRequest filepath_Dir name secret tGen tShow st = Done st' ->
  (providers st' = providers st /\ providerList st' = providerList st
   /\ selectedProviderIndex st' = selectedProviderIndex st
   /\ disk st' = disk st /\ saves st' = saves st)
  \/ (name <> "" /\ secret <> "" /\ is_ok (base32_DecodeString secret) = true
      /\ providers st' = providers st ++ [mkProvider name secret]
      /\ providerList st' = providerList st ++ [name]
      /\ saves st' = S (saves st)
      /\ (selectedProviderIndex st' = selectedProviderIndex st
          \/ selectedProviderIndex st' = lenZ (providers st))).
Proof.
  destruct (String.eqb_spec name "") as [Hn|Hn].
  { unfold addProviderRequest, addProvider. cbn [formName setForm].
    subst name. cbn [String.eqb]. intros [= <-]. left. cbn. tauto. }
  destruct (String.eqb_spec secret "") as [Hs|Hs].
  { unfold addProviderRequest, addProvider. cbn [formName formSecret setForm].
    destruct (String.eqb_spec name ""); [contradiction|].
    subst secret. cbn [String.eqb]. intros [= <-]. left. cbn. tauto. }
  destruct (is_ok (base32_DecodeString secret)) eqn:Hd.
  - rewrite (addProviderRequest_valid name secret tGen tShow st Hn Hs Hd).
    cbn zeta. cbn [providers disk appendProvider setForm].
    destruct (saveProviders _ _ _ _) as [fs [err|]].
    + intros [= <-]. right. cbn. tauto.
    + intros Hrun.
      destruct (generateAndDisplayOTP_sameData _ _ _ _ Hrun) as (H1 & H2 & H3 & _ & _ & _ & H7).
      right. rewrite H1, H2, H3, H7. cbn. repeat (split; [auto|]).
      right. unfold lenZ. rewrite length_app. cbn. lia.
  - unfold addProviderRequest, addProvider. cbn [formName formSecret setForm].
    destruct (String.eqb_spec name ""); [contradiction|].
    destruct (String.eqb_spec secret ""); [contradiction|].
    destruct (base32_DecodeString secret); [discriminate|].
    intros [= <-]. left. cbn. tauto.
Qed.

(** X8: an event either leaves the list of providers, the list widget and
    the file system alone and makes no call of saveProviders, or it is an
    add that passed the checks: then one provider is appended at the end and
    saveProviders is called once.  Nothing removes or reorders providers. *)
Theorem step_appends (e : event) (st st' : Session) :
  step filepath_Dir e st = Done st' ->
  (providers st' = providers st /\ providerList st' = providerList st
   /\ disk st' = disk st /\ saves st' = saves st)
  \/ (exists name secret tGen tShow,
        e = EvAddProvider name secret tGen tShow
        /\ name <> "" /\ secret <> "" /\ is_ok (base32_DecodeString secret) = true
        /\ providers st' = providers st ++ [mkProvider name secret]
        /\ providerList st' = providerList st ++ [name]
        /\ saves st' = S (saves st)).
Proof.
  destruct e as [index tGen tShow|tGen tShow|now|name secret tGen tShow]; cbn [step].
  - unfold selectProvider. intros Hrun. left.
    apply generateAndDisplayOTP_sameData in Hrun. unfold sameData in Hrun.
    cbn in Hrun. tauto.
  - intros Hrun. left. apply coarseTick_sameData in Hrun. unfold sameData in Hrun. tauto.
  - intros [= <-]. left. unfold fineTick, updateCountdown.
    destruct (String.eqb _ "" || String.eqb _ ""); cbn; tauto.
  - intros Hrun. destruct (addProviderRequest_cases _ _ _ _ _ _ Hrun) as [H|H].
    + left. tauto.
    + right. exists name, secret, tGen, tShow. tauto.
Qed.

Lemma initialSession_wellFormed (fs0 : FS) : wellFormed (initialSession fs0).
Proof. split; [now left|reflexivity]. Qed.

Lemma wellFormed_same (st st' : Session) :
  wellFormed st ->
  providers st' = providers st -> providerList st' = providerList st ->
  selectedProviderIndex st' = selectedProviderIndex st ->
  wellFormed st'.
Proof. unfold wellFormed, validIndex. intros H -> -> ->. exact H. Qed.

Lemma wellFormed_lengths (st : Session) :
  wellFormed st -> lenZ (providerList st) = lenZ (providers st).
Proof. intros [_ Hl]. unfold lenZ. now rewrite Hl, length_map. Qed.

Lemma step_wellFormed (e : event) (st st' : Session) :
  wellFormed st -> enabled e st -> step filepath_Dir e st = Done st' -> wellFormed st'.
Proof.
  intros Hwf Hen.
  destruct e as [index tGen tShow|tGen tShow|now|name secret tGen tShow];
    cbn [step enabled] in *.
  - unfold selectProvider. intros Hrun.
    apply generateAndDisplayOTP_sameData in Hrun.
    destruct Hrun as (H1 & H2 & H3 & _). cbn in H1, H2, H3.
    rewrite (wellFormed_lengths st Hwf) in Hen. destruct Hwf as [_ Hl].
    unfold wellFormed, validIndex. rewrite H1, H2, H3. split; [right; exact Hen|exact Hl].
  - intros Hrun. apply coarseTick_sameData in Hrun. unfold sameData in Hrun.
    apply (wellFormed_same st); tauto.
  - intros [= <-]. apply (wellFormed_same st _ Hwf); unfold fineTick, updateCountdown;
      destruct (String.eqb _ "" || String.eqb _ ""); reflexivity.
  - intros Hrun. destruct (addProviderRequest_cases _ _ _ _ _ _ Hrun) as [H|H].
    + apply (wellFormed_same st); tauto.
    + destruct H as (_ & _ & _ & H1 & H2 & _ & H3). destruct Hwf as [Hs Hl].
      unfold wellFormed, validIndex, lenZ in *. rewrite H1, H2, Hl, length_app, map_app.
      cbn [length map Name]. split; [|reflexivity].
      destruct H3 as [H3|H3]; rewrite H3; [destruct Hs as [Hs|Hs]; [now left|right; lia]|].
      right. lia.
Qed.

Lemma reachable_wellFormed (fs0 : FS) (st : Session) :
  reachable filepath_Dir fs0 st -> wellFormed st.
Proof.
  induction 1 as [|st st' e _ IH Hen Hstep].
  - apply initialSession_wellFormed.
  - now apply (step_wellFormed e st).
Qed.

(** X9: in every state of a run the selection is -1 or the index of a
    provider of the list, and the list widget shows the providers' names in
    their order. *)
Theorem session_wellFormed (fs0 : FS) (st : Session) :
  reachable filepath_Dir fs0 st -> wellFormed st.
Proof. apply reachable_wellFormed. Qed.

(** X10: no event of a run panics: in every reachable state, selecting an
    item of the list widget, either tick and a request to add a provider
    end in a state. *)
Theorem session_never_panics (fs0 : FS) (st : Session) (e : event) :
  reachable filepath_Dir fs0 st -> enabled e st ->
  exists st', step filepath_Dir e st = Done st'.
Proof.
  intros Hr Hen. apply reachable_wellFormed in Hr.
  pose proof (wellFormed_lengths st Hr) as Hlen. destruct Hr as [Hs Hl].
  destruct e as [index tGen tShow|tGen tShow|now|name secret tGen tShow];
    cbn [step enabled] in *.
  - apply generateAndDisplayOTP_runs. right. unfold validIndex. cbn. lia.
  - unfold coarseTick.
    destruct ((0 <? lenZ (providers st)) && (0 <=? selectedProviderIndex st));
      [now apply generateAndDisplayOTP_runs|eexists; reflexivity].
  - eexists; reflexivity.
  - unfold addProviderRequest, addProvider. cbn [formName formSecret setForm].
    destruct (String.eqb name ""); [eexists; reflexivity|].
    destruct (String.eqb secret ""); [eexists; reflexivity|].
    destruct (base32_DecodeString secret); [|eexists; reflexivity].
    destruct (saveProviders _ _ _ _) as [fs [err|]]; [eexists; reflexivity|].
    apply generateAndDisplayOTP_runs. right. unfold validIndex. cbn.
    unfold lenZ. rewrite length_app. cbn. lia.
Qed.

End RunFacts.

Lemma saveProviders_example :
  exists fs',
    saveProviders (fun _ => ".") (providers (initialSession ∅) ++ [mkProvider "work" "JBSWY3DPEHPK3PXP"])
      ProvidersFilePath (disk (initialSession ∅)) = (fs', None).
Proof. eexists. vm_compute. reflexivity. Qed.

Lemma addProvider_appends_witness :
  exists st',
    addProviderRequest (fun _ => ".") "work" "JBSWY3DPEHPK3PXP" (mkTime 59 0) (mkTime 59 0)
      (initialSession ∅) = Done st'
    /\ providers st' = [mkProvider "work" "JBSWY3DPEHPK3PXP"]
    /\ providerList st' = ["work"]
    /\ selectedProviderIndex st' = 0
    /\ saves st' = 1%nat.
Proof.
  destruct saveProviders_example as [fs' Hsave].
  destruct (addProvider_appends (fun _ => ".") "work" "JBSWY3DPEHPK3PXP"
              (mkTime 59 0) (mkTime 59 0) (initialSession ∅) fs')
    as (st' & Hrun & H1 & H2 & H3 & _ & _ & _ & H7 & _);
    [discriminate|discriminate|reflexivity|exact Hsave|].
  exists st'. auto.
Defined.

Lemma addProvider_save_error_witness :
  exists st',
    addProviderRequest (fun _ => ".") "work" "JBSWY3DPEHPK3PXP" (mkTime 59 0) (mkTime 59 0)
      (initialSession blockedDisk) = Done st'
    /\ otpView st'
       = "[red]Error saving providers: failed to write file: open providers.json: is a directory[white]"
    /\ providers st' = [mkProvider "work" "JBSWY3DPEHPK3PXP"]
    /\ selectedProviderIndex st' = -1
    /\ currentOTP st' = "".
Proof.
  assert (exists fs',
             saveProviders (fun _ => ".")
               (providers (initialSession blockedDisk) ++ [mkProvider "work" "JBSWY3DPEHPK3PXP"])
               ProvidersFilePath (disk (initialSession blockedDisk))
             = (fs', Some "failed to write file: open providers.json: is a directory"))
    as [fs' Hsave] by (eexists; vm_compute; reflexivity).
  destruct (addProvider_save_error (fun _ => ".") "work" "JBSWY3DPEHPK3PXP"
              "failed to write file: open providers.json: is a directory"
              (mkTime 59 0) (mkTime 59 0) (initialSession blockedDisk) fs')
    as (st' & Hrun & H1 & H2 & _ & H4 & H5 & _);
    [discriminate|discriminate|reflexivity|exact Hsave|].
  exists st'. auto.
Defined.

Lemma addProvider_persists_witness :
  exists st',
    addProviderRequest (fun _ => ".") "work" "JBSWY3DPEHPK3PXP" (mkTime 59 0) (mkTime 59 0)
      (initialSession ∅) = Done st'
    /\ providers (initialSession (disk st')) = map coerceProvider (providers st').
Proof.
  destruct saveProviders_example as [fs' Hsave].
  destruct (addProvider_persists (fun _ => ".") "work" "JBSWY3DPEHPK3PXP"
              (mkTime 59 0) (mkTime 59 0) (initialSession ∅) fs')
    as (st' & Hrun & H1 & _);
    [discriminate|discriminate|reflexivity|exact Hsave|].
  exists st'. auto.
Defined.

Lemma add_replaces_unreadable_file_witness :
  exists st',
    addProviderRequest (fun _ => ".") "work" "JBSWY3DPEHPK3PXP" (mkTime 59 0) (mkTime 59 0)
      (initialSession damagedDisk) = Done st'
    /\ providers st' = [mkProvider "work" "JBSWY3DPEHPK3PXP"]
    /\ disk st' !! ProvidersFilePath = savedDisk !! ProvidersFilePath.
Proof.
  assert (exists fs',
             saveProviders (fun _ => ".") [mkProvider "work" "JBSWY3DPEHPK3PXP"]
               ProvidersFilePath damagedDisk = (fs', None))
    as [fs' Hsave] by (eexists; vm_compute; reflexivity).
  apply (add_replaces_unreadable_file (fun _ => ".") damagedDisk fs'
           "failed to unmarshal providers: invalid JSON input" "work" "JBSWY3DPEHPK3PXP");
    [vm_compute; reflexivity|discriminate|discriminate|reflexivity|exact Hsave].
Defined.

Lemma step_example :
  exists st',
    step (fun _ => ".") (EvAddProvider "work" "JBSWY3DPEHPK3PXP" (mkTime 59 0) (mkTime 59 0))
      (initialSession ∅) = Done st'.
Proof. eexists. vm_compute. reflexivity. Qed.

Lemma step_appends_witness :
  exists st',
    step (fun _ => ".") (EvAddProvider "work" "JBSWY3DPEHPK3PXP" (mkTime 59 0) (mkTime 59 0))
      (initialSession ∅) = Done st'
    /\ (length (providers st') <= 1)%nat.
Proof.
  destruct step_example as [st' Hrun]. exists st'. split; [exact Hrun|].
  destruct (step_appends (fun _ => ".") _ _ _ Hrun)
    as [(-> & _)|(name & secret & _ & _ & _ & _ & _ & _ & -> & _)]; vm_compute; lia.
Defined.

Lemma session_wellFormed_witness :
  exists st',
    step (fun _ => ".") (EvAddProvider "work" "JBSWY3DPEHPK3PXP" (mkTime 59 0) (mkTime 59 0))
      (initialSession ∅) = Done st'
    /\ wellFormed st'.
Proof.
  destruct step_example as [st' Hrun]. exists st'. split; [exact Hrun|].
  apply (session_wellFormed (fun _ => ".") ∅).
  exact (reach_step (fun _ => ".") ∅ (initialSession ∅) st'
           (EvAddProvider "work" "JBSWY3DPEHPK3PXP" (mkTime 59 0) (mkTime 59 0))
           (reach_init _ _) I Hrun).
Defined.

Lemma session_never_panics_witness :
  exists st',
    step (fun _ => ".") (EvSelect 0 (mkTime 59 0) (mkTime 59 0)) (initialSession savedDisk)
    = Done st'.
Proof.
  apply (session_never_panics (fun _ => ".") savedDisk).
  - apply reach_init.
  - vm_compute. split; [discriminate|reflexivity].
Defined.

(** ** The code that is held *)

Lemma sliceIndex_app {A} (l : list A) (x y : A) (i : Z) :
  sliceIndex l i = Some x -> sliceIndex (l ++ [y]) i = Some x.
Proof.
  intros H. pose proof (sliceIndex_range _ _ _ H) as Hr.
  destruct (sliceIndex_Some l i Hr) as (x' & Hx & Hlk). rewrite H in Hx.
  injection Hx as <-.
  assert (0 <= i < lenZ (l ++ [y])) as Hr'
    by (unfold lenZ in *; rewrite length_app; cbn; lia).
  destruct (sliceIndex_Some (l ++ [y]) i Hr') as (z & -> & Hz).
  rewrite lookup_app_l in Hz by (unfold lenZ in Hr; lia). congruence.
Qed.

Lemma generateAndDisplayOTP_codeOfSelection (tGen tShow : Time) (st st' : Session) :
  selectedProviderIndex st = -1 \/ validIndex st ->
  generateAndDisplayOTP tGen tShow st = Done st' -> codeOfSelection st'.
Proof.
  intros Hwf Hrun.
  destruct (Z.eq_dec (selectedProviderIndex st) (-1)) as [Hsel|Hsel].
  { revert Hrun. unfold generateAndDisplayOTP. rewrite Hsel, orb_true_r.
    intros [= <-]. now left. }
  destruct Hwf as [Hwf|Hwf]; [contradiction|].
  destruct (sliceIndex_Some _ _ Hwf) as (p & Hp & _).
  destruct (generateAndDisplayOTP_selected tGen tShow st p Hp) as (st1 & Hrun1 & Hres).
  rewrite Hrun in Hrun1. injection Hrun1 as <-.
  destruct (generateAndDisplayOTP_sameData _ _ _ _ Hrun) as (H1 & _ & H3 & _).
  destruct (generateTOTP (Secret p) tGen) as [code|e] eqn:Hg.
  - destruct Hres as (Ho & Hn & _). right. exists p, tGen.
    rewrite H1, H3, Ho. auto.
  - destruct Hres as (Ho & _). now left.
Qed.

Section CodeFacts.

Variable filepath_Dir : string -> string.

Lemma step_codeOfSelection (e : event) (st st' : Session) :
  wellFormed st -> codeOfSelection st -> enabled e st ->
  step filepath_Dir e st = Done st' -> codeOfSelection st'.
Proof.
  intros Hwf Hj Hen.
  pose proof (wellFormed_lengths st Hwf) as Hlen. destruct Hwf as [Hs Hl].
  destruct e as [index tGen tShow|tGen tShow|now|name secret tGen tShow];
    cbn [step enabled] in *.
  - unfold selectProvider. apply generateAndDisplayOTP_codeOfSelection.
    right. unfold validIndex. cbn. lia.
  - unfold coarseTick.
    destruct ((0 <? lenZ (providers st)) && (0 <=? selectedProviderIndex st)).
    + now apply generateAndDisplayOTP_codeOfSelection.
    + now intros [= <-].
  - intros [= <-]. unfold fineTick, updateCountdown.
    destruct (String.eqb _ "" || String.eqb _ ""); exact Hj.
  - unfold addProviderRequest, addProvider. cbn [formName formSecret setForm].
    destruct (String.eqb name ""); [intros [= <-]; exact Hj|].
    destruct (String.eqb secret ""); [intros [= <-]; exact Hj|].
    destruct (base32_DecodeString secret); [|intros [= <-]; exact Hj].
    cbn zeta. destruct (saveProviders _ _ _ _) as [fs [err|]].
    + intros [= <-]. unfold codeOfSelection in *. cbn.
      destruct Hj as [Hj|(p & t & Hp & Hn & Hg)]; [now left|right].
      exists p, t. split; [now apply sliceIndex_app|auto].
    + apply generateAndDisplayOTP_codeOfSelection. right. unfold validIndex. cbn.
      unfold lenZ. rewrite length_app. cbn. lia.
Qed.

Lemma reachable_codeOfSelection (fs0 : FS) (st : Session) :
  reachable filepath_Dir fs0 st -> codeOfSelection st.
Proof.
  induction 1 as [|st st' e Hr IH Hen Hstep].
  - now left.
  - apply (step_codeOfSelection e st); [|exact IH|exact Hen|exact Hstep].
    now apply (reachable_wellFormed filepath_Dir fs0).
Qed.

(** X11: in every state of a run, a code that is held has six digits, was
    generated for the secret of the selected provider, and is held with
    that provider's name. *)
Theorem session_code_of_selection (fs0 : FS) (st : Session) :
  reachable filepath_Dir fs0 st ->
  currentOTP st <> "" ->
  isSixDigits (currentOTP st) = true
  /\ exists (p : Provider) (t : Time),
       sliceIndex (providers st) (selectedProviderIndex st) = Some p
       /\ currentProvider st = Name p
       /\ generateTOTP (Secret p) t = Ok (currentOTP st).
Proof.
  intros Hr Hne. destruct (reachable_codeOfSelection fs0 st Hr) as [H|(p & t & Hp & Hn & Hg)];
    [contradiction|].
  split; [now apply (generateTOTP_six_digits (Secret p) t)|].
  exists p, t. auto.
Qed.

End CodeFacts.

(** X12: with a provider selected, a coarse tick holds the code of its
    secret at the instant of the tick, or clears the fields and shows the
    error; a tick in the window the held code was generated in leaves the
    code as it is. *)
Theorem coarseTick_refreshes (tGen tShow : Time) (st : Session) (p : Provider) :
  sliceIndex (providers st) (selectedProviderIndex st) = Some p ->
  exists st',
    coarseTick tGen tShow st = Done st'
    /\ match generateTOTP (Secret p) tGen with
       | Ok code => currentOTP st' = code /\ currentProvider st' = Name p
       | Err e =>
           currentOTP st' = "" /\ currentProvider st' = "" /\ otpView st' = errorText e
       end
    /\ forall t0 : Time,
         sameWindow t0 tGen ->
         generateTOTP (Secret p) t0 = Ok (currentOTP st) ->
         currentOTP st' = currentOTP st.
Proof.
  intros Hp. pose proof (sliceIndex_range _ _ _ Hp) as Hr.
  unfold coarseTick.
  replace (0 <? lenZ (providers st)) with true by lia.
  replace (0 <=? selectedProviderIndex st) with true by lia. cbn [andb].
  destruct (generateAndDisplayOTP_selected tGen tShow st p Hp) as (st' & Hrun & Hres).
  exists st'. split; [exact Hrun|]. split.
  - destruct (generateTOTP (Secret p) tGen); tauto.
  - intros t0 Hw Hg0. rewrite (generateTOTP_sameWindow _ t0 tGen Hw) in Hg0.
    rewrite Hg0 in Hres. tauto.
Qed.

Lemma session_code_of_selection_witness :
  exists st',
    step (fun _ => ".") (EvAddProvider "work" "JBSWY3DPEHPK3PXP" (mkTime 59 0) (mkTime 59 0))
      (initialSession ∅) = Done st'
    /\ currentOTP st' = "996554"
    /\ isSixDigits (currentOTP st') = true.
Proof.
  assert (exists st',
             step (fun _ => ".")
               (EvAddProvider "work" "JBSWY3DPEHPK3PXP" (mkTime 59 0) (mkTime 59 0))
               (initialSession ∅) = Done st' /\ currentOTP st' = "996554")
    as (st' & Hrun & Hc) by (eexists; split; vm_compute; reflexivity).
  exists st'. split; [exact Hrun|]. split; [exact Hc|].
  apply (session_code_of_selection (fun _ => ".") ∅ st').
  - exact (reach_step (fun _ => ".") ∅ (initialSession ∅) st'
             (EvAddProvider "work" "JBSWY3DPEHPK3PXP" (mkTime 59 0) (mkTime 59 0))
             (reach_init _ _) I Hrun).
  - rewrite Hc. discriminate.
Defined.

Lemma coarseTick_refreshes_witness :
  exists st',
    coarseTick (mkTime 59 0) (mkTime 59 0) (setSelected 0 oneProvider) = Done st'
    /\ currentProvider st' = "work".
Proof.
  destruct (coarseTick_refreshes (mkTime 59 0) (mkTime 59 0) (setSelected 0 oneProvider)
              (mkProvider "work" "JBSWY3DPEHPK3PXP") eq_refl) as (st' & Hrun & Hres & _).
  exists st'. split; [exact Hrun|].
  vm_compute in Hres. tauto.
Defined.

(** ** The countdown and the window of the code *)

(** X13: from one second to the next the remaining seconds go down by
    one, and from 1 back to 30. *)
Theorem countdown_ticks (t : Time) :
  remainingSeconds (later t 1)
  = if remainingSeconds t =? 1 then 30 else remainingSeconds t - 1.
Proof.
  unfold remainingSeconds, Time_Second, later. cbn [unixSec zoneOffset].
  destruct (Z.eqb_spec (30 - ((unixSec t + zoneOffset t) mod 60) mod 30) 1) as [E|E];
    revert E; Z.to_euclidean_division_equations; lia.
Qed.

Lemma later_window (t : Time) (d : Z) :
  zoneOffset t mod 30 = 0 -> 0 <= d < remainingSeconds t -> sameWindow t (later t d).
Proof.
  intros Hz Hd. pose proof (Time_Second_mod_30 t Hz) as Hs.
  unfold remainingSeconds in Hd. rewrite Hs in Hd.
  exists (Time_Unix t / 30). unfold later, Time_Unix in *. cbn [unixSec].
  revert Hd. Z.to_euclidean_division_equations. lia.
Qed.

(** X14: on a clock whose zone is a multiple of 30 seconds from UTC the
    countdown is exact: for fewer seconds than remain the generated code is
    the same, and when they have passed the next window has begun and the
    countdown shows 30. *)
Theorem countdown_spans_window (t : Time) (d : Z) :
  zoneOffset t mod 30 = 0 ->
  0 <= d <= remainingSeconds t ->
  (d < remainingSeconds t ->
   forall s : string, generateTOTP s (later t d) = generateTOTP s t)
  /\ (d = remainingSeconds t ->
      Time_Unix (later t d) / 30 = Time_Unix t / 30 + 1
      /\ remainingSeconds (later t d) = 30).
Proof.
  intros Hz Hd. split.
  - intros Hlt s. symmetry. apply generateTOTP_sameWindow, later_window; [exact Hz|lia].
  - intros ->. pose proof (Time_Second_mod_30 t Hz) as Hs.
    assert (zoneOffset (later t (remainingSeconds t)) mod 30 = 0) as Hz' by exact Hz.
    pose proof (Time_Second_mod_30 _ Hz') as Hs'.
    unfold remainingSeconds in *. rewrite Hs' at 1. rewrite Hs.
    unfold later, Time_Unix. cbn [unixSec].
    Z.to_euclidean_division_equations. lia.
Qed.

Lemma countdown_spans_window_witness :
  generateTOTP "JBSWY3DPEHPK3PXP" (later (mkTime 43217 3600) 12)
  = generateTOTP "JBSWY3DPEHPK3PXP" (mkTime 43217 3600).
Proof.
  refine (proj1 (countdown_spans_window (mkTime 43217 3600) 12 _ _) _ _).
  - reflexivity.
  - vm_compute. split; discriminate.
  - reflexivity.
Defined.

(** ** Secrets that the form refuses and the generator accepts *)

(** *** Bytes that are no base32 *)

Lemma inAlphabet_isBase32Byte (pre : list Z) :
  forallb inAlphabet pre = true -> forallb isBase32Byte pre = true.
Proof.
  induction pre as [|b pre IH]; [reflexivity|]. cbn [forallb]. intros H.
  apply andb_prop in H. destruct H as [Hb Hp]. unfold isBase32Byte at 1.
  now rewrite Hb, IH.
Qed.

(** The first byte that is no symbol of the alphabet, no padding and no line
    break stops the inner loop with an error. *)
Lemma readQuantum_foreign (olen c : Z) (rest pre : list Z) :
  inAlphabet c = false -> c <> padChar ->
  forallb inAlphabet pre = true ->
  forall (k : nat) (dbuf : list Z),
    (length pre < k)%nat ->
    exists n, readQuantum olen k dbuf (pre ++ c :: rest) = QErr n.
Proof.
  intros Hc Hpad. induction pre as [|b pre IH]; intros Hpre k dbuf Hk.
  - destruct k as [|k]; [simpl in Hk; lia|]. cbn [app readQuantum].
    assert ((c =? padChar) = false) as -> by lia. cbn [andb].
    assert (base32_decodeMap c = 255) as ->.
    { unfold base32_decodeMap, inAlphabet in *.
      destruct ((65 <=? c) && (c <=? 90)); [discriminate|].
      destruct ((50 <=? c) && (c <=? 55)); [discriminate|reflexivity]. }
    cbn. eexists. reflexivity.
  - destruct k as [|k]; [simpl in Hk; lia|]. cbn [forallb] in Hpre.
    apply andb_prop in Hpre. destruct Hpre as [Hb Hpre].
    cbn [app]. rewrite readQuantum_symbol by exact Hb.
    apply IH; [exact Hpre|simpl in Hk; lia].
Qed.

Lemma decodeLoop_foreign (olen c : Z) (rest : list Z) :
  inAlphabet c = false -> c <> padChar ->
  forall (n : nat) (pre : list Z) (fuel : nat),
    length pre = n -> forallb inAlphabet pre = true ->
    (n < 8 * fuel)%nat ->
    exists e, decodeLoop fuel olen (pre ++ c :: rest) = Err e.
Proof.
  intros Hc Hpad n. induction n as [n IH] using lt_wf_ind.
  intros pre fuel Hn Hpre Hfuel.
  destruct fuel as [|fuel]; [lia|]. cbn [decodeLoop].
  destruct (pre ++ c :: rest) as [|x xs] eqn:Hs; [destruct pre; discriminate|].
  rewrite <- Hs. clear x xs Hs.
  destruct (le_lt_dec 8 (length pre)) as [Hlong|Hshort].
  - destruct pre as [|c0 [|c1 [|c2 [|c3 [|c4 [|c5 [|c6 [|c7 pre']]]]]]]];
      try (simpl in Hlong; lia).
    change (forallb inAlphabet ([c0; c1; c2; c3; c4; c5; c6; c7] ++ pre') = true) in Hpre.
    rewrite forallb_app in Hpre. apply andb_prop in Hpre. destruct Hpre as [H8 Hpre'].
    cbn [app]. rewrite readQuantum_full by exact H8.
    destruct (IH (length pre')) with (pre := pre') (fuel := fuel) as [e He];
      [subst n; simpl; lia|reflexivity|exact Hpre'|subst n; simpl in *; lia|].
    rewrite He.
    eexists. reflexivity.
  - destruct (readQuantum_foreign olen c rest pre Hc Hpad Hpre 8 [] Hshort) as [m ->].
    eexists. reflexivity.
Qed.

Lemma stripNewlines_foreign (pre rest : list Z) (c : Z) :
  forallb inAlphabet pre = true -> c <> 10 -> c <> 13 ->
  stripNewlines (pre ++ c :: rest) = pre ++ c :: stripNewlines rest.
Proof.
  intros Hpre H10 H13. unfold stripNewlines. rewrite filter_app.
  fold (stripNewlines pre).
  rewrite base32_stripNewlines by now apply inAlphabet_isBase32Byte.
  f_equal. rewrite filter_cons. destruct (decide _) as [_|Hn]; [reflexivity|].
  exfalso. apply Hn. assert (negb ((c =? 13) || (c =? 10)) = true) as -> by lia.
  exact I.
Qed.

(** A string whose first byte outside the alphabet is neither padding nor a
    line break is refused by the decoder. *)
Lemma base32_DecodeString_foreign (s : string) (pre rest : list Z) (c : Z) :
  bytes_of_string s = pre ++ c :: rest ->
  forallb inAlphabet pre = true ->
  inAlphabet c = false -> c <> 61 -> c <> 10 -> c <> 13 ->
  is_ok (base32_DecodeString s) = false.
Proof.
  intros Hs Hpre Hc H61 H10 H13. unfold base32_DecodeString.
  rewrite Hs, stripNewlines_foreign by assumption.
  destruct (decodeLoop_foreign (lenZ (pre ++ c :: stripNewlines rest)) c
              (stripNewlines rest) Hc H61 (length pre) pre
              (S (length (pre ++ c :: stripNewlines rest))) eq_refl Hpre) as [e ->];
    [|reflexivity].
  rewrite length_app. simpl. lia.
Qed.

(** X15: a secret whose first byte outside A-Z and 2-7 is neither the
    padding character nor a line break (a lower-case letter, a blank, one
    of the digits 0, 1, 8, 9) is refused by the button "Add Provider": the
    base32 error is shown and nothing is added or saved. *)
Theorem addProvider_rejects_foreign_byte
  (filepath_Dir : string -> string) (name secret : string) (pre rest : list Z) (c : Z)
  (tGen tShow : Time) (st : Session) :
  name <> "" ->
  bytes_of_string secret = pre ++ c :: rest ->
  forallb inAlphabet pre = true ->
  inAlphabet c = false -> c <> 61 -> c <> 10 -> c <> 13 ->
  exists st',
    addProviderRequest filepath_Dir name secret tGen tShow st = Done st'
    /\ otpView st' = "[red]Error: Secret must be a valid base32 string[white]"
    /\ providers st' = providers st
    /\ disk st' = disk st /\ saves st' = saves st.
Proof.
  intros Hn Hs Hpre Hc H61 H10 H13.
  pose proof (base32_DecodeString_foreign secret pre rest c Hs Hpre Hc H61 H10 H13) as Hd.
  unfold addProviderRequest, addProvider. cbn [formName formSecret setForm].
  destruct (String.eqb_spec name ""); [contradiction|].
  destruct (String.eqb_spec secret "") as [E|_].
  { subst secret. destruct pre; discriminate Hs. }
  destruct (base32_DecodeString secret); [discriminate|].
  eexists. split; [reflexivity|]. cbn. tauto.
Qed.

Lemma addProvider_rejects_foreign_byte_witness :
  exists st',
    addProviderRequest (fun _ => ".") "work" "jbswy3dpehpk3pxp" (mkTime 0 0) (mkTime 0 0)
      (initialSession ∅) = Done st'
    /\ otpView st' = "[red]Error: Secret must be a valid base32 string[white]"
    /\ providers st' = []
    /\ disk st' = ∅ /\ saves st' = 0%nat.
Proof.
  apply (addProvider_rejects_foreign_byte (fun _ => ".") "work" "jbswy3dpehpk3pxp"
           [] (bytes_of_string "bswy3dpehpk3pxp") 106);
    [discriminate|reflexivity|reflexivity|reflexivity|lia|lia|lia].
Defined.

(** *** The generator and the case of the letters *)

Lemma leadingSpace_graphic (b : Z) (r : list Z) :
  isGraphic b = true -> leadingSpace (b :: r) = false.
Proof.
  unfold isGraphic. intros Hb.
  unfold leadingSpace. cbn [startsWithRune].
  assert (space1 b = false) as -> by (unfold space1; lia).
  destruct r as [|b1 r]; [reflexivity|].
  assert (space2 b b1 = false) as -> by (unfold space2; lia).
  destruct r as [|b2 r]; [reflexivity|].
  unfold space3. lia.
Qed.

Lemma leadingSpaceRev_graphic (b : Z) (r : list Z) :
  isGraphic b = true -> leadingSpaceRev (b :: r) = false.
Proof.
  unfold isGraphic. intros Hb.
  unfold leadingSpaceRev. cbn [startsWithRune].
  assert (space1 b = false) as -> by (unfold space1; lia).
  destruct r as [|b1 r]; [reflexivity|].
  assert (space2 b1 b = false) as -> by (unfold space2; lia).
  destruct r as [|b2 r]; [reflexivity|].
  unfold space3. lia.
Qed.

(** A string of printable ASCII without blanks has nothing to trim. *)
Lemma trimSpace_graphic (s : string) :
  forallb isGraphic (bytes_of_string s) = true -> strings_TrimSpace s = s.
Proof.
  intros Hs. unfold strings_TrimSpace.
  destruct (bytes_of_string s) as [|b r] eqn:Hb.
  - apply bytes_of_string_inj. rewrite Hb. reflexivity.
  - rewrite <- Hb in *.
    pose proof (trimSpace_surrounded [] (bytes_of_string s) []
                  SpaceSeq_nil SpaceSeq_nil) as H.
    rewrite app_nil_r in H. cbn [app] in H.
    rewrite H; [apply string_of_bytes_of_string| |].
    + rewrite Hb in *. cbn [forallb] in Hs. apply andb_prop in Hs.
      now apply leadingSpace_graphic.
    + unfold trailingSpace.
      destruct (rev (bytes_of_string s)) as [|x xs] eqn:Hr; [reflexivity|].
      apply leadingSpaceRev_graphic.
      rewrite forallb_forall in Hs. apply Hs.
      apply in_rev. rewrite Hr. now left.
Qed.

Lemma lowerByte_base32 (b : Z) :
  isBase32Byte b = true ->
  isGraphic (lowerByte b) = true /\ upperByte (lowerByte b) = b /\ 0 <= lowerByte b < 256.
Proof.
  intros Hb. apply isBase32Byte_range in Hb. unfold isGraphic, lowerByte, upperByte.
  destruct ((65 <=? b) && (b <=? 90)) eqn:E.
  - assert ((97 <=? b + 32) && (b + 32 <=? 122) = true) as -> by lia. lia.
  - assert ((97 <=? b) && (b <=? 122) = false) as -> by lia. lia.
Qed.

Lemma asciiToLower_bytes (s : string) :
  forallb isBase32Byte (bytes_of_string s) = true ->
  bytes_of_string (asciiToLower s) = map lowerByte (bytes_of_string s).
Proof.
  intros Hs. unfold asciiToLower. apply bytes_of_string_of_bytes.
  apply Forall_map, Forall_forall. intros b Hb. cbn.
  rewrite forallb_forall in Hs. apply list_elem_of_In in Hb.
  now apply lowerByte_base32, Hs.
Qed.

(** X16: the generator takes the lower-case spelling of a valid secret for
    the secret itself: the outcome is the same at every instant. *)
Theorem generateTOTP_ignores_case (s : string) (t : Time) :
  validSecret s = true ->
  generateTOTP (asciiToLower s) t = generateTOTP s t.
Proof.
  intros Hv. unfold validSecret in Hv. apply andb_prop in Hv. destruct Hv as [_ Hwf].
  pose proof (wellFormedBase32_bytes _ Hwf) as Hb.
  pose proof (asciiToLower_bytes s Hb) as Hl.
  rewrite !generateTOTP_eq. unfold totp_GenerateCode, hotp_GenerateCodeCustom.
  assert (strings_ToUpper (hotp_padSecret (strings_TrimSpace (asciiToLower s)))
          = strings_ToUpper (hotp_padSecret (strings_TrimSpace s))) as ->; [|reflexivity].
  rewrite (trimSpace_base32 s Hb).
  rewrite trimSpace_graphic.
  2:{ rewrite Hl. rewrite forallb_forall in *. intros b Hin.
      apply in_map_iff in Hin. destruct Hin as (b' & <- & Hin).
      now apply lowerByte_base32, Hb. }
  rewrite !hotp_padSecret_whole.
  - unfold strings_ToUpper. f_equal.
    rewrite Hl, (base32_upper (bytes_of_string s) Hb), map_map. clear Hl Hwf.
    induction (bytes_of_string s) as [|b l IH]; [reflexivity|].
    cbn [forallb] in Hb. apply andb_prop in Hb. destruct Hb as [Hb0 Hb].
    cbn [map]. rewrite IH by exact Hb. f_equal. now apply lowerByte_base32.
  - rewrite <- bytes_of_string_length. now apply wellFormedBase32_length.
  - rewrite <- bytes_of_string_length, Hl, length_map.
    now apply wellFormedBase32_length.
Qed.

Lemma generateTOTP_ignores_case_witness :
  generateTOTP "jbswy3dpehpk3pxp" (mkTime 59 0) = generateTOTP "JBSWY3DPEHPK3PXP" (mkTime 59 0).
Proof.
  apply (generateTOTP_ignores_case "JBSWY3DPEHPK3PXP" (mkTime 59 0)). reflexivity.
Defined.

(** ** Secret files (main.go, lines 40-68 and 243-265) *)

Lemma TrimSpace_blank (data : string) :
  SpaceSeq (bytes_of_string data) -> strings_TrimSpace data = "".
Proof.
  intros Hws. unfold strings_TrimSpace.
  rewrite <- (app_nil_r (bytes_of_string data)).
  rewrite trimLeftSpace_SpaceSeq by exact Hws. reflexivity.
Qed.

Section SecretFileEdges.

Variable strings_ToLower : string -> string.

(** X17: a .txt or .key file that holds white space only (or nothing) is
    read as the empty secret, without an error. *)
Theorem readSecretFromFile_blank (fs : FS) (filePath data : string) :
  strings_ToLower (filepath_Ext filePath) = ".txt"
  \/ strings_ToLower (filepath_Ext filePath) = ".key" ->
  fs !! filePath = Some (NFile data) ->
  SpaceSeq (bytes_of_string data) ->
  readSecretFromFile strings_ToLower fs filePath = Ok "".
Proof.
  intros Hext Hfs Hws.
  rewrite (readSecretFromFile_text strings_ToLower fs filePath data Hext Hfs).
  rewrite (TrimSpace_blank data Hws). reflexivity.
Qed.

(** X18: for a path whose lower-cased extension is neither .txt nor .key no
    secret is returned; when the file can be read the error is the one
    about QR codes, whatever the file holds. *)
Theorem readSecretFromFile_unsupported (fs : FS) (filePath : string) :
  strings_ToLower (filepath_Ext filePath) <> ".txt" ->
  strings_ToLower (filepath_Ext filePath) <> ".key" ->
  is_ok (readSecretFromFile strings_ToLower fs filePath) = false
  /\ forall data : string,
       fs !! filePath = Some (NFile data) ->
       readSecretFromFile strings_ToLower fs filePath
       = Err "QR code parsing is not supported in this version".
Proof.
  intros Ht Hk. unfold readSecretFromFile, os_ReadFile.
  destruct (String.eqb_spec (strings_ToLower (filepath_Ext filePath)) ".txt");
    [contradiction|].
  destruct (String.eqb_spec (strings_ToLower (filepath_Ext filePath)) ".key");
    [contradiction|].
  cbn [orb]. destruct (fs !! filePath) as [[d|]|]; split; intros;
    try reflexivity; discriminate.
Qed.

(** X19: when the file gives a secret, the button "Read Secret from File"
    puts it in the secret field and leaves the name field, the providers,
    the selection, the held code and the file system alone; with a name in
    the form and a secret that is not empty, the button "Add Provider" then
    appends the provider with that secret. *)
Theorem readSecretButton_fills_form (filePath secret : string) (st : Session) :
  filePath <> "" ->
  readSecretFromFile strings_ToLower (disk st) filePath = Ok secret ->
  formSecret (readSecretButton strings_ToLower filePath st) = secret
  /\ formName (readSecretButton strings_ToLower filePath st) = formName st
  /\ providers (readSecretButton strings_ToLower filePath st) = providers st
  /\ selectedProviderIndex (readSecretButton strings_ToLower filePath st)
     = selectedProviderIndex st
  /\ currentOTP (readSecretButton strings_ToLower filePath st) = currentOTP st
  /\ disk (readSecretButton strings_ToLower filePath st) = disk st
  /\ (formName st <> "" -> secret <> "" ->
      forall (filepath_Dir : string -> string) (tGen tShow : Time),
      exists st',
        addProvider filepath_Dir tGen tShow (readSecretButton strings_ToLower filePath st)
        = Done st'
        /\ providers st' = providers st ++ [mkProvider (formName st) secret]).
Proof.
  intros Hp Hread. unfold readSecretButton.
  destruct (String.eqb_spec filePath ""); [contradiction|]. rewrite Hread.
  repeat (split; [reflexivity|]).
  intros Hn Hs filepath_Dir tGen tShow.
  set (msg := "[green]Secret read successfully from file: [yellow]" +:+ _).
  change (addProvider filepath_Dir tGen tShow (setView msg (setForm (formName st) secret st)))
    with (addProviderRequest filepath_Dir (formName st) secret tGen tShow (setView msg st)).
  assert (is_ok (base32_DecodeString secret) = true) as Hd.
  { revert Hread. unfold readSecretFromFile.
    destruct (os_ReadFile (disk st) filePath) as [data|]; [|discriminate].
    destruct (_ || _); [|discriminate].
    destruct (base32_DecodeString (strings_TrimSpace data)) eqn:E; [|discriminate].
    intros [= <-]. now rewrite E. }
  destruct (addProviderRequest_accepts filepath_Dir (formName st) secret tGen tShow
              (setView msg st) Hn Hs Hd) as (st' & Hrun & H & _).
  exists st'. auto.
Qed.

End SecretFileEdges.

Lemma readSecretFromFile_blank_witness :
  readSecretFromFile asciiToLower (<["notes.txt" := NFile blankFileContent]> ∅) "notes.txt"
  = Ok "".
Proof.
  apply (readSecretFromFile_blank asciiToLower _ "notes.txt" blankFileContent).
  - left. reflexivity.
  - reflexivity.
  - change (bytes_of_string blankFileContent) with [32; 9; 13; 10; 226; 128; 131].
    do 4 (apply SpaceSeq_1; [reflexivity|]).
    apply SpaceSeq_3; [reflexivity|]. apply SpaceSeq_nil.
Defined.

Lemma readSecretFromFile_unsupported_witness :
  readSecretFromFile asciiToLower (<["qr/secret.PNG" := NFile "JBSWY3DPEHPK3PXP"]> ∅)
    "qr/secret.PNG"
  = Err "QR code parsing is not supported in this version".
Proof.
  refine (proj2 (readSecretFromFile_unsupported asciiToLower
                   (<["qr/secret.PNG" := NFile "JBSWY3DPEHPK3PXP"]> ∅) "qr/secret.PNG" _ _)
            "JBSWY3DPEHPK3PXP" _).
  - vm_compute. discriminate.
  - vm_compute. discriminate.
  - reflexivity.
Defined.

Lemma readSecretButton_fills_form_witness :
  formSecret (readSecretButton asciiToLower "keys/work.KEY" formFilled) = "JBSWY3DPEHPK3PXP"
  /\ exists st',
       addProvider (fun _ => ".") (mkTime 59 0) (mkTime 59 0)
         (readSecretButton asciiToLower "keys/work.KEY" formFilled) = Done st'
       /\ providers st'
          = [mkProvider "work" "JBSWY3DPEHPK3PXP"; mkProvider "mail" "JBSWY3DPEHPK3PXP"].
Proof.
  destruct (readSecretButton_fills_form asciiToLower "keys/work.KEY" "JBSWY3DPEHPK3PXP"
              formFilled) as (H1 & _ & _ & _ & _ & _ & H7);
    [discriminate|vm_compute; reflexivity|].
  split; [exact H1|].
  apply (H7 ltac:(discriminate) ltac:(discriminate) (fun _ => ".")).
Defined.

(** * Further properties of the file picker (filepicker.go) *)

Section PickerFacts.

Variable os_Getwd : result string.

Variable filepath_Abs : string -> result string.

Variable filepath_Dir : string -> string.

Variable filepath_Join : string -> string -> string.

Variable ioutil_ReadDir : string -> result (list FilePicker.DirEntry).

Variable strings_ToLower : string -> string.

Local Abbreviation listDirectory :=
  (FilePicker.listDirectory os_Getwd filepath_Abs filepath_Dir filepath_Join
     ioutil_ReadDir strings_ToLower).
Local Abbreviation updateFileList :=
  (FilePicker.updateFileList os_Getwd filepath_Abs filepath_Dir filepath_Join
     ioutil_ReadDir strings_ToLower).
Local Abbreviation handleSelection :=
  (FilePicker.handleSelection os_Getwd filepath_Abs filepath_Dir filepath_Join
     ioutil_ReadDir strings_ToLower).

(** The icon in front of the name tells a directory from a file, whatever
    the name is. *)
Lemma itemPrefix_folder (file : FilePicker.FileInfo) :
  strings_HasPrefix (FilePicker.itemPrefix file +:+ FilePicker.Name file)
    FilePicker.folderIcon
  = FilePicker.IsParent file || FilePicker.IsDir file.
Proof.
  unfold FilePicker.itemPrefix.
  destruct (FilePicker.IsParent file), (FilePicker.IsDir file); reflexivity.
Qed.

Lemma addItems_spec (files : list FilePicker.FileInfo) :
  forall (i : Z) (items : list FilePicker.Item),
    FilePicker.addItems i files items
    = items ++ imap (fun k file =>
                       FilePicker.mkItem
                         (FilePicker.itemPrefix file +:+ FilePicker.Name file)
                         (FilePicker.Path file) (97 + (i + Z.of_nat k) mod 26)) files.
Proof.
  induction files as [|file files IH]; intros i items; cbn [FilePicker.addItems imap].
  - now rewrite app_nil_r.
  - rewrite IH, <- app_assoc. cbn [app]. f_equal. f_equal.
    + now rewrite Z.add_0_r.
    + apply imap_ext. intros k x _. cbn. do 3 f_equal. lia.
Qed.

Lemma sliceIndex_addItems (files : list FilePicker.FileInfo) (index : Z)
  (file : FilePicker.FileInfo) :
  sliceIndex files index = Some file ->
  sliceIndex (FilePicker.addItems 0 files []) index
  = Some (FilePicker.mkItem (FilePicker.itemPrefix file +:+ FilePicker.Name file)
            (FilePicker.Path file) (97 + index mod 26)).
Proof.
  intros Hf. pose proof (sliceIndex_range _ _ _ Hf) as Hr.
  rewrite addItems_spec. cbn [app].
  destruct (sliceIndex_Some files index Hr) as (x & Hx & Hlk).
  rewrite Hf in Hx. injection Hx as <-.
  unfold sliceIndex, lenZ in *. rewrite length_imap.
  destruct (Z.ltb_spec index 0); [lia|].
  destruct (Z.leb_spec (Z.of_nat (length files)) index); [lia|]. cbn [orb].
  rewrite list_lookup_imap, Hlk. cbn. rewrite Z2Nat.id by lia. reflexivity.
Qed.

(** X20: handling the selection of the item of an entry lists the entry's
    path when the entry is a directory or the parent entry, and hands the
    entry's path to the caller when it is a file, whatever its name is. *)
Theorem handleSelection_entry
  (dirPath : string) (p : FilePicker.Picker)
  (files : list FilePicker.FileInfo) (index : Z) (file : FilePicker.FileInfo) :
  listDirectory dirPath = Ok files ->
  sliceIndex files index = Some file ->
  handleSelection index (updateFileList dirPath p)
  = if FilePicker.IsParent file || FilePicker.IsDir file
    then FilePicker.Listed (updateFileList (FilePicker.Path file) (updateFileList dirPath p))
    else FilePicker.Picked (FilePicker.Path file).
Proof.
  intros Hl Hf. unfold FilePicker.handleSelection.
  unfold FilePicker.updateFileList at 1. rewrite Hl. cbn [FilePicker.fileList].
  rewrite (sliceIndex_addItems files index file Hf).
  cbn [FilePicker.mainText FilePicker.secondaryText].
  rewrite itemPrefix_folder.
  destruct (FilePicker.IsParent file || FilePicker.IsDir file); reflexivity.
Qed.

(** The listing begins with the entry of the parent directory. *)
Lemma listDirectory_parent_first (dirPath absPath : string)
  (files : list FilePicker.DirEntry) :
  FilePicker.resolves os_Getwd filepath_Abs dirPath absPath ->
  ioutil_ReadDir absPath = Ok files ->
  exists entries,
    listDirectory dirPath = Ok (FilePicker.parentEntry filepath_Dir absPath :: entries).
Proof.
  intros (dir & Hdir & Habs) Hread. unfold FilePicker.listDirectory.
  assert ((if String.eqb dirPath ""
           then match os_Getwd with
                | Ok wd => Ok wd
                | Err err => Err ("failed to get current directory: " +:+ err)
                end
           else Ok dirPath) = Ok dir) as ->.
  { destruct (String.eqb dirPath ""); [|exact Hdir]. now rewrite Hdir. }
  rewrite Habs, Hread. rewrite appendEntries_spec. cbn [app].
  rewrite sort_Slice_first; [eexists; reflexivity|].
  pose proof (visibleEntries_spec filepath_Join absPath files) as Hvis.
  eapply Forall_impl; [exact Hvis|]. cbn. unfold FilePicker.notParent, FilePicker.less.
  intros a [-> _]. reflexivity.
Qed.

(** X21: the first item of a directory that was listed leads to the parent
    directory. *)
Theorem handleSelection_parent
  (dirPath absPath : string) (files : list FilePicker.DirEntry) (p : FilePicker.Picker) :
  FilePicker.resolves os_Getwd filepath_Abs dirPath absPath ->
  ioutil_ReadDir absPath = Ok files ->
  handleSelection 0 (updateFileList dirPath p)
  = FilePicker.Listed (updateFileList (filepath_Dir absPath) (updateFileList dirPath p)).
Proof.
  intros Hres Hread.
  destruct (listDirectory_parent_first dirPath absPath files Hres Hread) as [entries Hl].
  unfold FilePicker.handleSelection.
  unfold FilePicker.updateFileList at 1. rewrite Hl. cbn [FilePicker.fileList].
  rewrite (sliceIndex_addItems _ 0 (FilePicker.parentEntry filepath_Dir absPath));
    [|reflexivity].
  cbn [FilePicker.mainText FilePicker.secondaryText].
  rewrite itemPrefix_folder. reflexivity.
Qed.

(** X22: listDirectory returns a listing exactly when the directory (the
    working directory for the empty path) can be made absolute and read. *)
Theorem listDirectory_succeeds_iff (dirPath : string) :
  is_ok (listDirectory dirPath) = true
  <-> exists absPath files,
        FilePicker.resolves os_Getwd filepath_Abs dirPath absPath
        /\ ioutil_ReadDir absPath = Ok files.
Proof.
  split.
  - unfold FilePicker.listDirectory, FilePicker.resolves.
    destruct (String.eqb dirPath "").
    + destruct os_Getwd as [wd|e]; [|discriminate].
      destruct (filepath_Abs wd) as [absPath|e] eqn:Ha; [|discriminate].
      destruct (ioutil_ReadDir absPath) as [files|e] eqn:Hr; [|discriminate].
      intros _. exists absPath, files. split; [|exact Hr]. exists wd. auto.
    + destruct (filepath_Abs dirPath) as [absPath|e] eqn:Ha; [|discriminate].
      destruct (ioutil_ReadDir absPath) as [files|e] eqn:Hr; [|discriminate].
      intros _. exists absPath, files. split; [|exact Hr]. exists dirPath. auto.
  - intros (absPath & files & Hres & Hread).
    destruct (listDirectory_parent_first dirPath absPath files Hres Hread) as [entries ->].
    reflexivity.
Qed.

End PickerFacts.

Lemma handleSelection_entry_witness :
  FilePicker.handleSelection (Ok "/home/otp") (fun p => Ok p) (fun _ => "/home")
    (fun d n => d +:+ "/" +:+ n) (fun _ => Ok exampleDir) asciiToLower 3
    (FilePicker.ShowFilePicker (Ok "/home/otp") (fun p => Ok p) (fun _ => "/home")
       (fun d n => d +:+ "/" +:+ n) (fun _ => Ok exampleDir) asciiToLower "")
  = FilePicker.Picked "/home/otp/A.key".
Proof.
  refine (handleSelection_entry (Ok "/home/otp") (fun p => Ok p) (fun _ => "/home")
           (fun d n => d +:+ "/" +:+ n) (fun _ => Ok exampleDir) asciiToLower
           "" _ _ 3 (FilePicker.mkFileInfo "A.key" "/home/otp/A.key" false false) _ _);
    reflexivity.
Defined.

Lemma handleSelection_parent_witness :
  exists p,
    FilePicker.handleSelection (Ok "/home/otp") (fun p => Ok p) (fun _ => "/home")
      (fun d n => d +:+ "/" +:+ n) (fun _ => Ok exampleDir) asciiToLower 0
      (FilePicker.ShowFilePicker (Ok "/home/otp") (fun p => Ok p) (fun _ => "/home")
         (fun d n => d +:+ "/" +:+ n) (fun _ => Ok exampleDir) asciiToLower "")
    = FilePicker.Listed p
    /\ FilePicker.currentPath p = "/home".
Proof.
  eexists. split.
  - refine (handleSelection_parent (Ok "/home/otp") (fun p => Ok p) (fun _ => "/home")
             (fun d n => d +:+ "/" +:+ n) (fun _ => Ok exampleDir) asciiToLower
             "" "/home/otp" exampleDir _ _ _).
    + exists "/home/otp". split; reflexivity.
    + reflexivity.
  - reflexivity.
Defined.

(** * Further properties of the stored list (main.go, lines 71-113) *)

(** ** What is read is valid UTF-8 *)

Lemma allFrom_spec (p : Z -> bool) (n : nat) :
  forall z, allFrom n z p = true -> forall x, z <= x < z + Z.of_nat n -> p x = true.
Proof.
  induction n as [|n IH]; intros z H x Hx; [lia|].
  cbn [allFrom] in H. apply andb_prop in H. destruct H as [Hz Hn].
  destruct (Z.eq_dec x z) as [->|Hne]; [exact Hz|].
  apply (IH (z + 1) Hn). lia.
Qed.

Lemma utf8_Valid_app (a b : list Z) :
  utf8_Valid a = true -> utf8_Valid (a ++ b) = utf8_Valid b.
Proof.
  remember (length a) as n eqn:Hn. revert a Hn.
  induction n as [n IH] using lt_wf_ind. intros a Hn.
  assert (forall r : list Z, (length r < n)%nat -> utf8_Valid r = true ->
            utf8_Valid (r ++ b) = utf8_Valid b) as IH'
    by (intros r Hr; now apply (IH (length r))).
  clear IH. subst n.
  destruct a as [|b0 r0]; [reflexivity|].
  cbn [app utf8_Valid]. destruct (b0 <? 128).
  { intros H. apply IH'; [cbn; lia|exact H]. }
  destruct r0 as [|b1 r1]; [discriminate|]. cbn [app].
  destruct (utf8_is2 b0 b1).
  { intros H. apply IH'; [cbn; lia|exact H]. }
  destruct r1 as [|b2 r2]; [discriminate|]. cbn [app].
  destruct (utf8_is3 b0 b1 b2).
  { intros H. apply IH'; [cbn; lia|exact H]. }
  destruct r2 as [|b3 r3]; [discriminate|]. cbn [app].
  destruct (utf8_is4 b0 b1 b2 b3); [|discriminate].
  intros H. apply IH'; [cbn; lia|exact H].
Qed.

Lemma validText_app (a b : list Z) :
  validText a = true -> validText b = true -> validText (a ++ b) = true.
Proof.
  unfold validText. intros Ha Hb.
  apply andb_prop in Ha. destruct Ha as [Ha1 Ha2].
  apply andb_prop in Hb. destruct Hb as [Hb1 Hb2].
  now rewrite forallb_app, Ha1, Hb1, utf8_Valid_app, Hb2.
Qed.

(** The encoding of a code point of the basic plane that is no surrogate. *)
Lemma utf8_EncodeRune_valid (r : Z) :
  0 <= r < 65536 -> isSurrogate r = false -> validText (utf8_EncodeRune r) = true.
Proof.
  intros Hr Hs.
  assert (allFrom (Z.to_nat 65536) 0
            (fun r => isSurrogate r || validText (utf8_EncodeRune r)) = true)
    as H by (vm_compute; reflexivity).
  pose proof (allFrom_spec _ _ _ H r) as Hx. rewrite Z2Nat.id in Hx by lia.
  specialize (Hx ltac:(lia)). cbn beta in Hx.
  now rewrite Hs in Hx.
Qed.

(** The encoding of the code point of a surrogate pair. *)
Lemma utf16_DecodeRune_valid (r1 r2 dec : Z) :
  utf16_DecodeRune r1 r2 = Some dec -> validText (utf8_EncodeRune dec) = true.
Proof.
  assert (allFrom (Z.to_nat 1024) 55296 (fun r1 =>
            allFrom (Z.to_nat 1024) 56320 (fun r2 =>
              match utf16_DecodeRune r1 r2 with
              | Some dec => validText (utf8_EncodeRune dec)
              | None => true
              end)) = true) as H by (vm_compute; reflexivity).
  intros Hd. pose proof Hd as Hd'. unfold utf16_DecodeRune in Hd'.
  destruct ((55296 <=? r1) && (r1 <? 56320) && (56320 <=? r2) && (r2 <? 57344)) eqn:Hr;
    [|discriminate].
  pose proof (allFrom_spec _ _ _ H r1) as H1. rewrite Z2Nat.id in H1 by lia.
  specialize (H1 ltac:(lia)). cbn beta in H1.
  pose proof (allFrom_spec _ _ _ H1 r2) as H2. rewrite Z2Nat.id in H2 by lia.
  specialize (H2 ltac:(lia)). cbn beta in H2.
  now rewrite Hd in H2.
Qed.

Lemma hexVal_range (c v : Z) : hexVal c = Some v -> 0 <= v < 16.
Proof.
  unfold hexVal.
  destruct ((48 <=? c) && (c <=? 57)) eqn:H1; [intros [= <-]; lia|].
  destruct ((97 <=? c) && (c <=? 102)) eqn:H2; [intros [= <-]; lia|].
  destruct ((65 <=? c) && (c <=? 70)) eqn:H3; [intros [= <-]; lia|discriminate].
Qed.

Lemma getu4_range (h1 h2 h3 h4 r : Z) : getu4 h1 h2 h3 h4 = Some r -> 0 <= r < 65536.
Proof.
  unfold getu4.
  destruct (hexVal h1) as [a|] eqn:Ha; [|discriminate].
  destruct (hexVal h2) as [b|] eqn:Hb; [|discriminate].
  destruct (hexVal h3) as [c|] eqn:Hc; [|discriminate].
  destruct (hexVal h4) as [d|] eqn:Hd; [|discriminate].
  apply hexVal_range in Ha, Hb, Hc, Hd. intros [= <-]. lia.
Qed.

Lemma consBytes_inv (bs : list Z) (r : option (list Z * list Z)) (t rest : list Z) :
  consBytes bs r = Some (t, rest) -> exists t', r = Some (t', rest) /\ t = bs ++ t'.
Proof.
  destruct r as [[t' rest']|]; [|discriminate].
  intros [= <- <-]. eauto.
Qed.

(** One step of the reader: the closing quote, a syntax error, or a piece of
    valid UTF-8 and the rest of the input. *)
Lemma readString_step (c : Z) (r0 : list Z) :
  forallb isByte (c :: r0) = true ->
  readString (c :: r0) = None
  \/ readString (c :: r0) = Some ([], r0)
  \/ exists piece r',
       readString (c :: r0) = consBytes piece (readString r')
       /\ validText piece = true
       /\ forallb isByte r' = true
       /\ (length r' <= length r0)%nat.
Proof.
  intros Hb.
  assert (forall piece r', validText piece = true -> forallb isByte r' = true ->
            (length r' <= length r0)%nat ->
            forall x, x = consBytes piece (readString r') ->
            x = None \/ x = Some ([], r0)
            \/ exists piece0 r'0,
                 x = consBytes piece0 (readString r'0)
                 /\ validText piece0 = true /\ forallb isByte r'0 = true
                 /\ (length r'0 <= length r0)%nat) as Hok.
  { intros piece r' H1 H2 H3 x ->. right. right. exists piece, r'. auto. }
  cbn [forallb] in Hb. apply andb_prop in Hb. destruct Hb as [Hc Hr0].
  unfold isByte in Hc.
  destruct (Z_lt_le_dec c 128) as [Hlow|Hhigh].
  - cbn [readString]. unfold dq, backslash.
    destruct (c =? 34) eqn:E1; [right; left; reflexivity|].
    destruct (c <? 32) eqn:E2; [left; reflexivity|].
    destruct (c =? 92) eqn:E3.
    2:{ replace (c <? 128) with true by lia.
        apply (Hok [c] r0); [|exact Hr0|lia|reflexivity].
        unfold validText. cbn. replace (c <? 128) with true by lia.
        unfold isByte. lia. }
    destruct r0 as [|e r1]; [left; reflexivity|].
    cbn [forallb] in Hr0. apply andb_prop in Hr0. destruct Hr0 as [He Hr1].
    unfold isByte in He.
    destruct ((e =? 34) || (e =? 92) || (e =? 47)) eqn:E4.
    { apply (Hok [e] r1); [|exact Hr1|cbn; lia|reflexivity].
      unfold validText. cbn. replace (e <? 128) with true by lia.
      unfold isByte. lia. }
    destruct (e =? 98); [apply (Hok [8] r1); [reflexivity|exact Hr1|cbn; lia|reflexivity]|].
    destruct (e =? 102); [apply (Hok [12] r1); [reflexivity|exact Hr1|cbn; lia|reflexivity]|].
    destruct (e =? 110); [apply (Hok [10] r1); [reflexivity|exact Hr1|cbn; lia|reflexivity]|].
    destruct (e =? 114); [apply (Hok [13] r1); [reflexivity|exact Hr1|cbn; lia|reflexivity]|].
    destruct (e =? 116); [apply (Hok [9] r1); [reflexivity|exact Hr1|cbn; lia|reflexivity]|].
    destruct (e =? 117); [|left; reflexivity].
    destruct r1 as [|h1 [|h2 [|h3 [|h4 r5]]]]; try (left; reflexivity).
    assert (forallb isByte r5 = true) as Hr5.
    { cbn [forallb] in Hr1. repeat (apply andb_prop in Hr1; destruct Hr1 as [_ Hr1]).
      exact Hr1. }
    destruct (getu4 h1 h2 h3 h4) as [rr|] eqn:Hu; [|left; reflexivity].
    pose proof (getu4_range _ _ _ _ _ Hu) as Hrr.
    destruct (isSurrogate rr) eqn:Hs.
    2:{ apply (Hok (utf8_EncodeRune rr) r5);
          [now apply utf8_EncodeRune_valid|exact Hr5|cbn; lia|reflexivity]. }
    assert (consBytes runeErrorBytes (readString r5) = None
            \/ consBytes runeErrorBytes (readString r5) = Some ([], e :: h1 :: h2 :: h3 :: h4 :: r5)
            \/ exists piece0 r'0,
                 consBytes runeErrorBytes (readString r5) = consBytes piece0 (readString r'0)
                 /\ validText piece0 = true /\ forallb isByte r'0 = true
                 /\ (length r'0 <= length (e :: h1 :: h2 :: h3 :: h4 :: r5))%nat) as Hbad.
    { apply (Hok runeErrorBytes r5); [reflexivity|exact Hr5|cbn; lia|reflexivity]. }
    destruct r5 as [|c1 [|c2 [|g1 [|g2 [|g3 [|g4 r11]]]]]]; try exact Hbad.
    destruct (if (c1 =? 92) && (c2 =? 117)
              then match getu4 g1 g2 g3 g4 with
                   | Some rr1 => utf16_DecodeRune rr rr1
                   | None => None
                   end
              else None) as [dec|] eqn:Hdec; [|exact Hbad].
    apply (Hok (utf8_EncodeRune dec) r11); [| |cbn; lia|reflexivity].
    + destruct ((c1 =? 92) && (c2 =? 117)); [|discriminate].
      destruct (getu4 g1 g2 g3 g4) as [rr1|]; [|discriminate].
      now apply (utf16_DecodeRune_valid rr rr1).
    + cbn [forallb] in Hr5. repeat (apply andb_prop in Hr5; destruct Hr5 as [_ Hr5]).
      exact Hr5.
  - rewrite readString_nonASCII by lia.
    assert (forall r, forallb isByte r = true -> (length r <= length r0)%nat ->
              consBytes runeErrorBytes (readString r) = None
              \/ consBytes runeErrorBytes (readString r) = Some ([], r0)
              \/ exists piece0 r'0,
                   consBytes runeErrorBytes (readString r) = consBytes piece0 (readString r'0)
                   /\ validText piece0 = true /\ forallb isByte r'0 = true
                   /\ (length r'0 <= length r0)%nat) as Hbad.
    { intros r H1 H2. apply (Hok runeErrorBytes r); [reflexivity|exact H1|exact H2|reflexivity]. }
    destruct r0 as [|b1 r1]; [apply Hbad; [reflexivity|lia]|].
    pose proof Hr0 as Hr0'.
    cbn [forallb] in Hr0. apply andb_prop in Hr0. destruct Hr0 as [Hb1 Hr1].
    destruct (utf8_is2 c b1) eqn:H2.
    { apply (Hok [c; b1] r1); [|exact Hr1|cbn; lia|reflexivity].
      unfold validText. cbn [forallb utf8_Valid]. rewrite H2, Hb1.
      replace (c <? 128) with false by lia. unfold isByte. lia. }
    destruct r1 as [|b2 r2]; [apply Hbad; [exact Hr0'|lia]|].
    cbn [forallb] in Hr1. apply andb_prop in Hr1. destruct Hr1 as [Hb2 Hr2].
    destruct (utf8_is3 c b1 b2) eqn:H3.
    { apply (Hok [c; b1; b2] r2); [|exact Hr2|cbn; lia|reflexivity].
      unfold validText. cbn [forallb utf8_Valid]. rewrite H2, H3, Hb1, Hb2.
      replace (c <? 128) with false by lia. unfold isByte. lia. }
    destruct r2 as [|b3 r3]; [apply Hbad; [exact Hr0'|lia]|].
    cbn [forallb] in Hr2. apply andb_prop in Hr2. destruct Hr2 as [Hb3 Hr3].
    destruct (utf8_is4 c b1 b2 b3) eqn:H4.
    { apply (Hok [c; b1; b2; b3] r3); [|exact Hr3|cbn; lia|reflexivity].
      unfold validText. cbn [forallb utf8_Valid]. rewrite H2, H3, H4, Hb1, Hb2, Hb3.
      replace (c <? 128) with false by lia. unfold isByte. lia. }
    apply Hbad; [exact Hr0'|lia].
Qed.

(** What the reader returns is valid UTF-8, and what it leaves is bytes. *)
Lemma readString_valid (s t rest : list Z) :
  forallb isByte s = true ->
  readString s = Some (t, rest) ->
  validText t = true /\ forallb isByte rest = true.
Proof.
  remember (length s) as n eqn:Hn. revert s t rest Hn.
  induction n as [n IH] using lt_wf_ind. intros s t rest Hn Hs Hread.
  destruct s as [|c r0]; [discriminate|].
  destruct (readString_step c r0 Hs) as [H|[H|(piece & r' & H & Hp & Hr & Hlen)]];
    rewrite H in Hread.
  - discriminate.
  - injection Hread as <- <-. split; [reflexivity|].
    cbn [forallb] in Hs. now apply andb_prop in Hs.
  - apply consBytes_inv in Hread. destruct Hread as (t' & Hread & ->).
    destruct (IH (length r')) with (s := r') (t := t') (rest := rest) as [Ht Hrest];
      [subst n; cbn; lia|reflexivity|exact Hr|exact Hread|].
    split; [now apply validText_app|exact Hrest].
Qed.

Lemma skipWS_bytes (s : list Z) : forallb isByte s = true -> forallb isByte (skipWS s) = true.
Proof.
  induction s as [|c r IH]; [reflexivity|]. intros H. cbn [skipWS].
  destruct (isWS c); [|exact H].
  cbn [forallb] in H. apply andb_prop in H. now apply IH.
Qed.

Lemma skipDigits_bytes (s : list Z) :
  forallb isByte s = true -> forallb isByte (skipDigits s) = true.
Proof.
  induction s as [|c r IH]; [reflexivity|]. intros H. cbn [skipDigits].
  destruct ((48 <=? c) && (c <=? 57)); [|exact H].
  cbn [forallb] in H. apply andb_prop in H. now apply IH.
Qed.

Lemma tail_bytes (c : Z) (r : list Z) :
  forallb isByte (c :: r) = true -> forallb isByte r = true.
Proof. cbn [forallb]. intros H. now apply andb_prop in H. Qed.

Lemma readDigits1_bytes (s rest : list Z) :
  forallb isByte s = true -> readDigits1 s = Some rest -> forallb isByte rest = true.
Proof.
  destruct s as [|c r]; [discriminate|]. intros H. cbn [readDigits1].
  destruct (isDigit c); [|discriminate]. intros [= <-].
  apply skipDigits_bytes. now apply tail_bytes in H.
Qed.

Lemma readNumber_bytes (s rest : list Z) :
  forallb isByte s = true -> readNumber s = Some rest -> forallb isByte rest = true.
Proof.
  intros Hs. unfold readNumber.
  set (s1 := match s with c :: r => if c =? 45 then r else s | [] => s end).
  assert (forallb isByte s1 = true) as Hs1.
  { subst s1. destruct s as [|c r]; [exact Hs|].
    destruct (c =? 45); [now apply tail_bytes in Hs|exact Hs]. }
  clearbody s1.
  destruct s1 as [|c r]; [discriminate|].
  assert (forall s2, (if c =? 48 then Some r
                      else if isDigit c then Some (skipDigits r) else None) = Some s2 ->
                     forallb isByte s2 = true) as Hint.
  { intros s2. apply tail_bytes in Hs1.
    destruct (c =? 48); [now intros [= <-]|].
    destruct (isDigit c); [|discriminate]. intros [= <-]. now apply skipDigits_bytes. }
  destruct (if c =? 48 then Some r else if isDigit c then Some (skipDigits r) else None)
    as [s2|]; [|discriminate].
  specialize (Hint s2 eq_refl).
  assert (forall s3, match s2 with
                     | c :: r => if c =? 46 then readDigits1 r else Some s2
                     | [] => Some s2
                     end = Some s3 -> forallb isByte s3 = true) as Hfrac.
  { intros s3. destruct s2 as [|c2 r2]; [now intros [= <-]|].
    destruct (c2 =? 46); [|now intros [= <-]].
    apply readDigits1_bytes. now apply tail_bytes in Hint. }
  destruct (match s2 with
            | c :: r => if c =? 46 then readDigits1 r else Some s2
            | [] => Some s2
            end) as [s3|]; [|discriminate].
  specialize (Hfrac s3 eq_refl).
  destruct s3 as [|c3 r3]; [now intros [= <-]|].
  destruct ((c3 =? 101) || (c3 =? 69)); [|now intros [= <-]].
  pose proof (tail_bytes _ _ Hfrac) as Hr3.
  destruct r3 as [|sg r']; [discriminate|].
  destruct ((sg =? 43) || (sg =? 45)).
  - apply readDigits1_bytes. now apply tail_bytes in Hr3.
  - now apply readDigits1_bytes.
Qed.

Lemma stripPrefix_bytes (p s rest : list Z) :
  forallb isByte s = true -> stripPrefix p s = Some rest -> forallb isByte rest = true.
Proof.
  revert s. induction p as [|a p IH]; intros s Hs; cbn [stripPrefix].
  - now intros [= <-].
  - destruct s as [|b s']; [discriminate|].
    destruct (a =? b); [|discriminate]. apply IH. now apply tail_bytes in Hs.
Qed.

(** The three parsers return values whose strings are valid UTF-8. *)
Lemma parse_valid (fuel : nat) :
  (forall s v rest,
      forallb isByte s = true -> parseValue fuel s = Some (v, rest) ->
      jsonValid v = true /\ forallb isByte rest = true)
  /\ (forall s vs rest,
         forallb isByte s = true -> parseElems fuel s = Some (vs, rest) ->
         forallb jsonValid vs = true /\ forallb isByte rest = true)
  /\ (forall s ms rest,
         forallb isByte s = true -> parseMembers fuel s = Some (ms, rest) ->
         forallb (fun kv => jsonValid (snd kv)) ms = true /\ forallb isByte rest = true).
Proof.
  induction fuel as [|f (IHv & IHe & IHm)]; [repeat split; discriminate|].
  split; [|split].
  - intros s v rest Hs. cbn [parseValue].
    destruct s as [|c r]; [discriminate|].
    pose proof (tail_bytes _ _ Hs) as Hr.
    destruct (c =? dq).
    { destruct (readString r) as [[t rest']|] eqn:Hread; [|discriminate].
      intros [= <- <-]. now apply (readString_valid r). }
    destruct (c =? 91).
    { pose proof (skipWS_bytes r Hr) as Hw.
      destruct (skipWS r) as [|c' r']; [discriminate|].
      destruct (c' =? 93).
      { intros [= <- <-]. split; [reflexivity|]. now apply tail_bytes in Hw. }
      destruct (parseElems f (c' :: r')) as [[vs rest']|] eqn:He; [|discriminate].
      intros [= <- <-]. now apply (IHe (c' :: r')). }
    destruct (c =? 123).
    { pose proof (skipWS_bytes r Hr) as Hw.
      destruct (skipWS r) as [|c' r']; [discriminate|].
      destruct (c' =? 125).
      { intros [= <- <-]. split; [reflexivity|]. now apply tail_bytes in Hw. }
      destruct (parseMembers f (c' :: r')) as [[ms rest']|] eqn:Hm; [|discriminate].
      intros [= <- <-]. now apply (IHm (c' :: r')). }
    destruct (c =? 116).
    { destruct (stripPrefix (lit "true") (c :: r)) as [rest'|] eqn:Hp; [|discriminate].
      intros [= <- <-]. split; [reflexivity|]. now apply (stripPrefix_bytes _ _ _ Hs Hp). }
    destruct (c =? 102).
    { destruct (stripPrefix (lit "false") (c :: r)) as [rest'|] eqn:Hp; [|discriminate].
      intros [= <- <-]. split; [reflexivity|]. now apply (stripPrefix_bytes _ _ _ Hs Hp). }
    destruct (c =? 110).
    { destruct (stripPrefix (lit "null") (c :: r)) as [rest'|] eqn:Hp; [|discriminate].
      intros [= <- <-]. split; [reflexivity|]. now apply (stripPrefix_bytes _ _ _ Hs Hp). }
    destruct (readNumber (c :: r)) as [rest'|] eqn:Hn; [|discriminate].
    intros [= <- <-]. split; [reflexivity|]. now apply (readNumber_bytes _ _ Hs Hn).
  - intros s vs rest Hs. cbn [parseElems].
    destruct (parseValue f s) as [[v rest1]|] eqn:Hv; [|discriminate].
    destruct (IHv s v rest1 Hs Hv) as [Hvv Hr1].
    pose proof (skipWS_bytes rest1 Hr1) as Hw.
    destruct (skipWS rest1) as [|c r]; [discriminate|].
    pose proof (tail_bytes _ _ Hw) as Hr.
    destruct (c =? 44).
    { destruct (parseElems f (skipWS r)) as [[vs' rest']|] eqn:He; [|discriminate].
      intros [= <- <-].
      destruct (IHe (skipWS r) vs' rest' (skipWS_bytes r Hr) He) as [Hvs Hrest].
      split; [|exact Hrest]. cbn [forallb]. now rewrite Hvv, Hvs. }
    destruct (c =? 93); [|discriminate].
    intros [= <- <-]. split; [|exact Hr]. cbn [forallb]. now rewrite Hvv.
  - intros s ms rest Hs. cbn [parseMembers].
    destruct s as [|q r]; [discriminate|].
    pose proof (tail_bytes _ _ Hs) as Hr.
    destruct (q =? dq); [|discriminate].
    destruct (readString r) as [[key rest0]|] eqn:Hread; [|discriminate].
    destruct (readString_valid r key rest0 Hr Hread) as [_ Hr0].
    pose proof (skipWS_bytes rest0 Hr0) as Hw0.
    destruct (skipWS rest0) as [|c r1]; [discriminate|].
    pose proof (tail_bytes _ _ Hw0) as Hr1.
    destruct (c =? 58); [|discriminate].
    destruct (parseValue f (skipWS r1)) as [[v rest2]|] eqn:Hv; [|discriminate].
    destruct (IHv (skipWS r1) v rest2 (skipWS_bytes r1 Hr1) Hv) as [Hvv Hr2].
    pose proof (skipWS_bytes rest2 Hr2) as Hw2.
    destruct (skipWS rest2) as [|c2 r2]; [discriminate|].
    pose proof (tail_bytes _ _ Hw2) as Hr2'.
    destruct (c2 =? 44).
    { destruct (parseMembers f (skipWS r2)) as [[ms' rest']|] eqn:Hm; [|discriminate].
      intros [= <- <-].
      destruct (IHm (skipWS r2) ms' rest' (skipWS_bytes r2 Hr2') Hm) as [Hms Hrest].
      split; [|exact Hrest]. cbn [forallb snd]. now rewrite Hvv, Hms. }
    destruct (c2 =? 125); [|discriminate].
    intros [= <- <-]. split; [|exact Hr2']. cbn [forallb snd]. now rewrite Hvv.
Qed.

Lemma validText_string (s : list Z) :
  validText s = true -> validUTF8 (string_of_bytes s) = true.
Proof.
  unfold validText, validUTF8. intros H. apply andb_prop in H. destruct H as [Hb Hv].
  rewrite bytes_of_string_of_bytes; [exact Hv|].
  apply Forall_forall. intros z Hz. rewrite forallb_forall in Hb.
  apply list_elem_of_In in Hz. specialize (Hb z Hz). unfold isByte in Hb. lia.
Qed.

Lemma setField_valid (p p' : Provider) (key : list Z) (v : json) :
  providerValid p = true -> jsonValid v = true ->
  setField p key v = Ok p' -> providerValid p' = true.
Proof.
  unfold providerValid. intros Hp Hv. apply andb_prop in Hp. destruct Hp as [Hn Hs].
  unfold setField.
  destruct (keyIs "Name" key).
  { destruct v; try discriminate; intros [= <-]; cbn [Name Secret];
      [now rewrite Hn, Hs|]. rewrite Hs, andb_true_r. now apply validText_string. }
  destruct (keyIs "Secret" key).
  { destruct v; try discriminate; intros [= <-]; cbn [Name Secret];
      [now rewrite Hn, Hs|]. rewrite Hn. now apply validText_string. }
  intros [= <-]. now rewrite Hn, Hs.
Qed.

Lemma setFields_valid (ms : list (list Z * json)) :
  forall p p',
    providerValid p = true ->
    forallb (fun kv => jsonValid (snd kv)) ms = true ->
    setFields p ms = Ok p' -> providerValid p' = true.
Proof.
  induction ms as [|[k v] ms IH]; intros p p' Hp Hms; cbn [setFields].
  - now intros [= <-].
  - cbn [forallb snd] in Hms. apply andb_prop in Hms. destruct Hms as [Hv Hms].
    destruct (setField p k v) as [p1|e] eqn:Hf; [|discriminate].
    apply (IH p1); [|exact Hms]. now apply (setField_valid p p1 k v).
Qed.

Lemma decodeElems_valid (vs : list json) :
  forall ps,
    forallb jsonValid vs = true -> decodeElems vs = Ok ps ->
    forallb providerValid ps = true.
Proof.
  induction vs as [|v vs IH]; intros ps Hvs; cbn [decodeElems].
  - now intros [= <-].
  - cbn [forallb] in Hvs. apply andb_prop in Hvs. destruct Hvs as [Hv Hvs].
    destruct (decodeProvider v) as [p|e] eqn:Hp; [|discriminate].
    destruct (decodeElems vs) as [ps'|e] eqn:Hps; [|discriminate].
    intros [= <-]. cbn [forallb]. rewrite (IH ps' Hvs eq_refl), andb_true_r.
    unfold decodeProvider in Hp. destruct v; try discriminate.
    + now injection Hp as <-.
    + cbn [jsonValid] in Hv. now apply (setFields_valid m (mkProvider "" "") p).
Qed.

(** What Unmarshal returns is valid UTF-8, whatever the document. *)
Lemma json_Unmarshal_valid (data : string) (ps : list Provider) :
  json_Unmarshal data = Ok ps -> forallb providerValid ps = true.
Proof.
  unfold json_Unmarshal, parseDocument.
  destruct (parseValue _ (skipWS (bytes_of_string data))) as [[v rest]|] eqn:Hv;
    [|discriminate].
  destruct (parse_valid (S (S (2 * length (bytes_of_string data))))) as [Hval _].
  destruct (Hval _ _ _ (skipWS_bytes _ (bytes_of_string_isByte data)) Hv) as [Hjv _].
  destruct (skipWS rest); [|discriminate].
  destruct v; try discriminate.
  - now intros [= <-].
  - cbn [jsonValid] in Hjv. now apply decodeElems_valid.
Qed.

(** ** Loading, saving and loading again *)

Lemma loadProviders_providerValid (filePath : string) (fs : FS) (ps : list Provider) :
  loadProviders filePath fs = Ok ps -> forallb providerValid ps = true.
Proof.
  unfold loadProviders. destruct (os_NotExist fs filePath); [now intros [= <-]|].
  destruct (os_ReadFile fs filePath) as [data|e]; [|discriminate].
  destruct (json_Unmarshal data) as [ps'|e] eqn:Hu; [|discriminate].
  intros [= <-]. now apply (json_Unmarshal_valid data).
Qed.

(** X23: the names and secrets that loadProviders returns are valid UTF-8,
    whatever the file holds. *)
Theorem loadProviders_valid_utf8 (filePath : string) (fs : FS) (ps : list Provider) :
  loadProviders filePath fs = Ok ps ->
  Forall (fun p => validUTF8 (Name p) = true /\ validUTF8 (Secret p) = true) ps.
Proof.
  intros H. apply loadProviders_providerValid in H.
  apply Forall_forall. intros p Hp. rewrite forallb_forall in H.
  apply list_elem_of_In in Hp. specialize (H p Hp). unfold providerValid in H.
  now apply andb_prop in H.
Qed.

Lemma loadProviders_valid_utf8_witness :
  Forall (fun p => validUTF8 (Name p) = true /\ validUTF8 (Secret p) = true)
    [mkProvider "" "JBSWY3DPEHPK3PXP"].
Proof.
  apply (loadProviders_valid_utf8 ProvidersFilePath unnamedProviderFile).
  vm_compute. reflexivity.
Defined.

Section ReloadFacts.

Variable filepath_Dir : string -> string.

(** X24: a list that was loaded is saved and loaded again without change. *)
Theorem load_save_load
  (filePath filePath' : string) (fs fs1 fs2 : FS) (ps : list Provider) :
  loadProviders filePath fs = Ok ps ->
  saveProviders filepath_Dir ps filePath' fs1 = (fs2, None) ->
  loadProviders filePath' fs2 = Ok ps.
Proof.
  intros Hload Hsave. rewrite (save_load filepath_Dir ps filePath' fs1 fs2 Hsave).
  f_equal. apply coerceProvider_valid. now apply (loadProviders_providerValid filePath fs).
Qed.

End ReloadFacts.

Lemma load_save_load_witness :
  exists fs2,
    saveProviders (fun _ => ".") [mkProvider "" "JBSWY3DPEHPK3PXP"] "backup.json" ∅
    = (fs2, None)
    /\ loadProviders "backup.json" fs2 = Ok [mkProvider "" "JBSWY3DPEHPK3PXP"].
Proof.
  assert (exists fs2,
             saveProviders (fun _ => ".") [mkProvider "" "JBSWY3DPEHPK3PXP"] "backup.json" ∅
             = (fs2, None)) as [fs2 Hsave] by (eexists; vm_compute; reflexivity).
  exists fs2. split; [exact Hsave|].
  apply (load_save_load (fun _ => ".") ProvidersFilePath "backup.json"
           unnamedProviderFile ∅ fs2); [vm_compute; reflexivity|exact Hsave].
Defined.
